(** * A shallow embedding of the ORM helpers of [ahmachan/orm]

    The development follows the layout of the repository:

    - [Go]          the fragment of Go's data the helpers manipulate
                    (scalars held in [interface{}], errors, maps and their
                    [range] order);
    - [SqlBuilder]  [src/sqlbuilder.go]: the CRUD helpers written against
                    the statement builder ([where], [insert], [update],
                    [buildInsertManySQL]);
    - [Impl]        [src/impl.go]: the older helpers that write SQL text
                    into a [bytes.Buffer] ([checkCols], [where],
                    [insertMult], [updateMult]);
    - [Fetch]       [src/fetch/obj_test.go], second half ([package fetch]):
                    [Obj], [Object], [parseObject], [getName], [getColumns],
                    [fetchOnceObj], [fetchObjToFixedSlice], [fetchObjToSlice],
                    [afterFetch];
    - [Schema]      the column properties of the model compiler ([nullable],
                    [ai], ...), whose code is not among the sources;
    - [Spec]        the wording of the specification for the CRUD helpers;
    - [Examples]    records, models and result sets to run the helpers on.

    Definitions come first.  The facts follow, one module per package
    ([SqlBuilderFacts], [ImplFacts], [FetchFacts], [SchemaFacts]), and
    [Claims] settles the properties C1 to C10 of the specification. *)

From stdpp Require Import base strings list gmap.
From Stdlib Require Import ZArith Ascii.

#[local] Set Warnings "-register-all".
#[local] Open Scope string_scope.
#[local] Open Scope list_scope.

(* ===================================================================== *)
(** * Go data shared by the packages                                      *)
(* ===================================================================== *)

Module Go.

(** The dynamic values the helpers read out of record fields through
    [reflect.Value.Interface()], and the values a driver hands to
    [rows.Scan].  Two [interface{}] values are [==] when they have the same
    dynamic type and the same value, which is Rocq's equality here.  A field
    of a type Go cannot compare (a byte slice), on which [==] panics, is not
    part of this fragment. *)
Inductive scalar : Type :=
| SInt (z : Z)
| SStr (s : string)
| SBool (b : bool).

#[global] Instance scalar_eq_dec : EqDecision scalar.
Proof. solve_decision. Defined.

(** Errors are compared by kind only, so each message of the source is a
    constructor. *)
Inductive error : Type :=
| ErrModel (msg : string)          (* whatever [NewModel] reports *)
| ErrNoWhereKey                    (* no primary key / unique index usable *)
| ErrFieldNotFound (goName : string)
| ErrNoColumns                     (* "insertOne: no column to insert" *)
| ErrHeterogeneous                 (* elements of different types *)
| ErrUnknownColumn (name : string)
| ErrNotStruct
| ErrInvalidKind                   (* [fetch.ErrInvalidKind] *)
| ErrDuplicateField (name : string)
| ErrDriver (msg : string)         (* [rows.Columns], [rows.Scan], [Exec] *)
| ErrHook (msg : string)           (* returned by a user's [AfterFetch] *)
| ErrSchema (column property : string). (* a schema error of the compiler *)

#[global] Instance error_eq_dec : EqDecision error.
Proof. solve_decision. Defined.

(** A function that returns [(T, error)]. *)
Inductive result (T : Type) : Type :=
| Ok (x : T)
| Err (e : error).
Arguments Ok {T} x.
Arguments Err {T} e.

(** A Go [map[string]V] is kept as the list of its entries in the order
    they were inserted; keys are distinct.  Go leaves the order in which
    [range] visits a map unspecified, so every [range] over a map takes the
    visiting order as an argument, which must be a rearrangement of the
    entries. *)
Definition gomap (V : Type) : Type := list (string * V).

Definition range_order {V : Type} (order : list (string * V)) (m : gomap V) : Prop :=
  order ≡ₚ m.

(** [m[key]] with the comma-ok form. *)
Fixpoint map_get {V : Type} (m : gomap V) (key : string) : option V :=
  match m with
  | [] => None
  | (k, v) :: rest => if String.eqb k key then Some v else map_get rest key
  end.

(** A record value as [reflect] presents it to the CRUD helpers: the
    identity of its type and its fields by name. *)
Record StructVal : Type := mkStruct {
  TypeName : string;
  Fields : list (string * scalar)
}.

(** [rval.FieldByName(name)]; [None] is the invalid [reflect.Value]. *)
Definition FieldByName (rval : StructVal) (name : string) : option scalar :=
  map_get (Fields rval) name.

End Go.

Import Go.

(* ===================================================================== *)
(** * src/sqlbuilder.go                                                   *)
(* ===================================================================== *)

Module SqlBuilder.

(** [core.Column], the fields the helpers read. *)
Record Column : Type := mkColumn {
  Name : string;
  GoName : string;
  Zero : scalar;
  HasDefault : bool
}.

#[global] Instance Column_eq_dec : EqDecision Column.
Proof. solve_decision. Defined.

(** [core.Model]. *)
Record Model : Type := mkModel {
  ModelName : string;
  Cols : gomap Column;
  PK : list Column;
  UniqueIndexes : gomap (list Column);
  AI : option Column
}.

(** Modelled from the spec: [Column.IsAI] is not among the sources.  The
    spec gives a model at most one AI column ([Model.AI]); a column is the
    AI column when it is that one.  The method reads the column's
    back-reference to its model, which is the [m] passed here. *)
Definition IsAI (m : Model) (col : Column) : bool :=
  match AI m with
  | Some a => bool_decide (a = col)
  | None => false
  end.

(** Modelled from the spec: the statement builder is an external
    collaborator.  A statement records the calls the helpers make on it, in
    order: [And(cond, arg)] on its WHERE part, [KeyValue] / [Values] on an
    INSERT, [Set] on an UPDATE. *)
Definition WhereStmt : Type := list (string * scalar).

(** [WhereStmt().And(cond, arg)] *)
Definition And (w : WhereStmt) (cond : string) (arg : scalar) : WhereStmt :=
  w ++ [(cond, arg)].

(** An INSERT statement: its table, its columns and its rows of values. *)
Record InsertStmt : Type := mkInsert {
  iTable : string;
  iCols : list string;
  iArgs : list (list scalar)
}.

(** [sqlbuilder.Insert(e, table)] *)
Definition Insert (table : string) : InsertStmt := mkInsert table [] [].

(** [Table(table)] *)
Definition Table (s : InsertStmt) (table : string) : InsertStmt :=
  mkInsert table (iCols s) (iArgs s).

(** [KeyValue(col, val)] adds a column and its value in the first row. *)
Definition KeyValue (s : InsertStmt) (col : string) (val : scalar) : InsertStmt :=
  match iArgs s with
  | [] => mkInsert (iTable s) (iCols s ++ [col]) [[val]]
  | row :: rest => mkInsert (iTable s) (iCols s ++ [col]) ((row ++ [val]) :: rest)
  end.

(** [Values(vals...)] adds a row of values. *)
Definition Values (s : InsertStmt) (vals : list scalar) : InsertStmt :=
  mkInsert (iTable s) (iCols s) (iArgs s ++ [vals]).

(** The (column, value) pairs an INSERT statement holds for its first
    row. *)
Definition pairs (s : InsertStmt) : list (string * scalar) :=
  zip (iCols s) (default [] (head (iArgs s))).

(** An UPDATE statement: its table, the columns it sets and its WHERE
    part. *)
Record UpdateStmt : Type := mkUpdate {
  uTable : string;
  uSets : list (string * scalar);
  uWhere : WhereStmt
}.

(** [sqlbuilder.Update(e, table)] *)
Definition Update (table : string) : UpdateStmt := mkUpdate table [] [].

(** [Set(col, val)] *)
Definition Set_ (s : UpdateStmt) (col : string) (val : scalar) : UpdateStmt :=
  mkUpdate (uTable s) (uSets s ++ [(col, val)]) (uWhere s).

Section Helpers.

(** [core.NewModel] is not among the sources: the compiled model of a
    record is a parameter. *)
Variable NewModel : StructVal -> result Model.

(** [getModel]: the pointer chain of [v] is already followed in
    [StructVal]. *)
Definition getModel (v : StructVal) : result (Model * StructVal) :=
  match NewModel v with
  | Err e => Err e
  | Ok m => Ok (m, v)
  end.

(** The loop of the closure [getKV] of [where]; [keys] and [vals] are the
    variables it captures. *)
Fixpoint getKV_loop (rval : StructVal) (cols : list Column)
    (keys : list string) (vals : list scalar)
    : bool * list string * list scalar :=
  match cols with
  | [] => (true, keys, vals)
  | col :: rest =>
      match FieldByName rval (GoName col) with
      | None => (false, [], [])
      | Some field =>
          if bool_decide (Zero col = field) then (false, [], [])
          else getKV_loop rval rest (keys ++ [Name col]) (vals ++ [field])
      end
  end.

(** [getKV(cols)]: the result and the captured variables after the call. *)
Definition getKV (rval : StructVal) (cols : list Column)
    (keys : list string) (vals : list scalar)
    : bool * list string * list scalar :=
  match cols with
  | [] => (false, keys, vals)
  | _ => getKV_loop rval cols keys vals
  end.

(** [for _, cols := range m.UniqueIndexes { if getKV(cols) { break } }] *)
Fixpoint range_unique (rval : StructVal) (order : list (string * list Column))
    (keys : list string) (vals : list scalar) : list string * list scalar :=
  match order with
  | [] => (keys, vals)
  | (_, cols) :: rest =>
      let '(ok, keys', vals') := getKV rval cols keys vals in
      if ok then (keys', vals') else range_unique rval rest keys' vals'
  end.

(** [for index, key := range keys] with the call
    [sql.WhereStmt().And("{"+key+"}=?", vals[index])]; [vals] is as long as
    [keys]. *)
Fixpoint and_keys (w : WhereStmt) (keys : list string) (vals : list scalar)
    : WhereStmt :=
  match keys, vals with
  | key :: keys', val :: vals' => and_keys (And w ("{" +:+ key +:+ "}=?") val) keys' vals'
  | _, _ => w
  end.

(** [where(sql, m, rval)]; [uorder] is the order in which the [range]
    visits [m.UniqueIndexes].  The WHERE part is returned with the
    error. *)
Definition where_ (w : WhereStmt) (m : Model) (rval : StructVal)
    (uorder : list (string * list Column)) : WhereStmt * option error :=
  let '(ok, keys, vals) := getKV rval (PK m) [] [] in
  let '(keys, vals) :=
    if ok then (keys, vals) else range_unique rval uorder keys vals in
  if bool_decide (length keys = 0) then (w, Some ErrNoWhereKey)
  else (and_keys w keys vals, None).

(** The column filter of [insert] and of [buildInsertManySQL]:
    [col.Zero == field.Interface() && (col.IsAI() || col.HasDefault)]. *)
Definition skipped (m : Model) (col : Column) (field : scalar) : bool :=
  bool_decide (Zero col = field) && (IsAI m col || HasDefault col).

(** The loop of [insert] over [m.Cols], visited in [order]. *)
Fixpoint insert_loop (m : Model) (rval : StructVal)
    (order : list (string * Column)) (sql : InsertStmt) : result InsertStmt :=
  match order with
  | [] => Ok sql
  | (name, col) :: rest =>
      match FieldByName rval (GoName col) with
      | None => Err (ErrFieldNotFound (GoName col))
      | Some field =>
          if skipped m col field then insert_loop m rval rest sql
          else insert_loop m rval rest (KeyValue sql ("{" +:+ name +:+ "}") field)
      end
  end.

(** [insert(e, v)], up to the statement handed to [Exec]; [order m] is
    the order in which the [range] visits [m.Cols]. *)
Definition insert (v : StructVal) (order : Model -> list (string * Column))
    : result InsertStmt :=
  match getModel v with
  | Err e => Err e
  | Ok (m, rval) =>
      insert_loop m rval (order m) (Insert ("{#" +:+ ModelName m +:+ "}"))
  end.

(** [inStrSlice(key, slice)] *)
Fixpoint inStrSlice (key : string) (slice : list string) : bool :=
  match slice with
  | [] => false
  | v :: rest => if String.eqb v key then true else inStrSlice key rest
  end.

(** The loop of [update] over [m.Cols]. *)
Fixpoint update_loop (rval : StructVal) (cols : list string)
    (order : list (string * Column)) (sql : UpdateStmt) : result UpdateStmt :=
  match order with
  | [] => Ok sql
  | (name, col) :: rest =>
      match FieldByName rval (GoName col) with
      | None => Err (ErrFieldNotFound (GoName col))
      | Some field =>
          if negb (inStrSlice name cols) && bool_decide (Zero col = field)
          then update_loop rval cols rest sql
          else update_loop rval cols rest (Set_ sql ("{" +:+ name +:+ "}") field)
      end
  end.

(** [update(e, v, cols...)], up to the statement handed to [Exec]. *)
Definition update (v : StructVal) (cols : list string)
    (order : Model -> list (string * Column))
    (uorder : Model -> list (string * list Column)) : result UpdateStmt :=
  match getModel v with
  | Err e => Err e
  | Ok (m, rval) =>
      match update_loop rval cols (order m) (Update ("{#" +:+ ModelName m +:+ "}")) with
      | Err e => Err e
      | Ok sql =>
          match where_ (uWhere sql) m rval (uorder m) with
          | (_, Some e) => Err e
          | (w, None) => Ok (mkUpdate (uTable sql) (uSets sql) w)
          end
      end
  end.

(** The loop over the columns of the first element in
    [buildInsertManySQL]. *)
Fixpoint first_loop (m : Model) (irval : StructVal)
    (order : list (string * Column)) (sql : InsertStmt) (keys : list string)
    : result (InsertStmt * list string) :=
  match order with
  | [] => Ok (sql, keys)
  | (name, col) :: rest =>
      match FieldByName irval (GoName col) with
      | None => Err (ErrFieldNotFound (GoName col))
      | Some field =>
          if skipped m col field then first_loop m irval rest sql keys
          else first_loop m irval rest
                 (KeyValue sql ("{" +:+ name +:+ "}") field) (keys ++ [name])
      end
  end.

(** The loop over [keys] for an element after the first. *)
Fixpoint next_loop (m : Model) (irval : StructVal)
    (keys : list string) (vals : list scalar) : result (list scalar) :=
  match keys with
  | [] => Ok vals
  | name :: rest =>
      match map_get (Cols m) name with
      | None => Err (ErrUnknownColumn name)
      | Some col =>
          match FieldByName irval (GoName col) with
          | None => Err (ErrFieldNotFound (GoName col))
          | Some field =>
              if skipped m col field then next_loop m irval rest vals
              else next_loop m irval rest (vals ++ [field])
          end
      end
  end.

(** The outer loop of [buildInsertManySQL]; [i] is the index of the head
    of [elems]. *)
Fixpoint many_loop (order : Model -> list (string * Column))
    (elems : list StructVal) (i : nat) (sql : InsertStmt)
    (keys : list string) (firstType : string) : result InsertStmt :=
  match elems with
  | [] => Ok sql
  | elem :: rest =>
      match getModel elem with
      | Err e => Err e
      | Ok (m, irval) =>
          if bool_decide (i = 0) then
            match first_loop m irval (order m)
                    (Table sql ("{#" +:+ ModelName m +:+ "}")) keys with
            | Err e => Err e
            | Ok (sql', keys') =>
                many_loop order rest (S i) sql' keys' (TypeName irval)
            end
          else if negb (String.eqb firstType (TypeName irval)) then
            Err ErrHeterogeneous
          else
            match next_loop m irval keys [] with
            | Err e => Err e
            | Ok vals => many_loop order rest (S i) (Values sql vals) keys firstType
            end
      end
  end.

(** [buildInsertManySQL(e, rval)]; [rval] is the slice of records. *)
Definition buildInsertManySQL (rval : list StructVal)
    (order : Model -> list (string * Column)) : result InsertStmt :=
  many_loop order rval 0 (Insert "") [] "".

(** ** The other helpers of the file *)

(** Modelled from the spec: a SELECT statement of the builder, as the calls
    [Select] / [Count], [From], [ForUpdate] and [WhereStmt().And] leave it. *)
Record SelectStmt : Type := mkSelect {
  sCols : string;
  sTable : string;
  sForUpdate : bool;
  sWhere : WhereStmt
}.

(** Modelled from the spec: a DELETE statement of the builder. *)
Record DeleteStmt : Type := mkDelete {
  dTable : string;
  dWhere : WhereStmt
}.

(** The loop of [whereAny] over [m.Cols]: a column whose field is missing or
    zero is passed over. *)
Fixpoint whereAny_loop (rval : StructVal) (order : list (string * Column))
    (keys : list string) (vals : list scalar) : list string * list scalar :=
  match order with
  | [] => (keys, vals)
  | (_, col) :: rest =>
      match FieldByName rval (GoName col) with
      | None => whereAny_loop rval rest keys vals
      | Some field =>
          if bool_decide (Zero col = field) then whereAny_loop rval rest keys vals
          else whereAny_loop rval rest (keys ++ [Name col]) (vals ++ [field])
      end
  end.

(** [whereAny(sql, m, rval)]; its error, "no non-zero field, no where part
    can be produced", is of the kind of the error of [where]. *)
Definition whereAny (w : WhereStmt) (m : Model) (rval : StructVal)
    (order : list (string * Column)) : WhereStmt * option error :=
  let '(keys, vals) := whereAny_loop rval order [] [] in
  if bool_decide (length keys = 0) then (w, Some ErrNoWhereKey)
  else (and_keys w keys vals, None).

(** [count(e, v)], up to the statement handed to [QueryInt]. *)
Definition count (v : StructVal) (order : Model -> list (string * Column))
    : result SelectStmt :=
  match getModel v with
  | Err e => Err e
  | Ok (m, rval) =>
      match whereAny [] m rval (order m) with
      | (_, Some e) => Err e
      | (w, None) =>
          Ok (mkSelect "COUNT(*) AS count" ("{#" +:+ ModelName m +:+ "}") false w)
      end
  end.

(** [find(e, v)], up to the statement handed to [QueryObj]. *)
Definition find (v : StructVal) (uorder : Model -> list (string * list Column))
    : result SelectStmt :=
  match getModel v with
  | Err e => Err e
  | Ok (m, rval) =>
      match where_ [] m rval (uorder m) with
      | (_, Some e) => Err e
      | (w, None) => Ok (mkSelect "*" ("{#" +:+ ModelName m +:+ "}") false w)
      end
  end.

(** [forUpdate(tx, v)], up to the statement handed to [QueryObj]. *)
Definition forUpdate (v : StructVal) (uorder : Model -> list (string * list Column))
    : result SelectStmt :=
  match getModel v with
  | Err e => Err e
  | Ok (m, rval) =>
      match where_ [] m rval (uorder m) with
      | (_, Some e) => Err e
      | (w, None) => Ok (mkSelect "*" ("{#" +:+ ModelName m +:+ "}") true w)
      end
  end.

(** [del(e, v)], up to the statement handed to [Exec]. *)
Definition del (v : StructVal) (uorder : Model -> list (string * list Column))
    : result DeleteStmt :=
  match getModel v with
  | Err e => Err e
  | Ok (m, rval) =>
      match where_ [] m rval (uorder m) with
      | (_, Some e) => Err e
      | (w, None) => Ok (mkDelete ("{#" +:+ ModelName m +:+ "}") w)
      end
  end.

End Helpers.

End SqlBuilder.


(* ===================================================================== *)
(** * src/impl.go                                                         *)
(* ===================================================================== *)

Module Impl.

(** The [reflect.Type] of a column, as far as [reflect.Zero] needs it. *)
Inductive rtype : Type := TInt | TString | TBool.

#[global] Instance rtype_eq_dec : EqDecision rtype.
Proof. solve_decision. Defined.

(** [reflect.Zero(t).Interface()] *)
Definition reflect_Zero (t : rtype) : scalar :=
  match t with
  | TInt => SInt 0
  | TString => SStr ""
  | TBool => SBool false
  end.

(** [Column], the fields the helpers read. *)
Record Column : Type := mkColumn {
  Name : string;
  GoName : string;
  GoType : rtype;
  HasDefault : bool
}.

#[global] Instance Column_eq_dec : EqDecision Column.
Proof. solve_decision. Defined.

(** [Model] *)
Record Model : Type := mkModel {
  ModelName : string;
  Cols : gomap Column;
  PK : list Column;
  UniqueIndexes : gomap (list Column);
  AI : option Column
}.

(** Modelled from the spec: [Column.IsAI] is not among the sources; a column
    is the AI column when it is the one the model names in [AI]. *)
Definition IsAI (m : Model) (col : Column) : bool :=
  match AI m with
  | Some a => bool_decide (a = col)
  | None => false
  end.

(** The [engine] interface: [Dialect().Quote(w, name)] is given by the text
    it writes, [Exec] by the error it returns; the statements executed are
    kept in a log. *)
Record engine : Type := mkEngine {
  Quote : string -> string;
  Prefix : string;
  Exec : string -> list scalar -> option error
}.

(** What [insertMult] and [updateMult] receive in [objs], after the pointer
    chain is followed: a record, or a value of another kind. *)
Inductive object : Type :=
| ORecord (s : StructVal)
| OOther.

(** [bytes.Buffer.Truncate(n)]: all but the first [n] bytes are dropped. *)
Definition Truncate (n : nat) (sql : string) : string := String.substring 0 n sql.

Section Helpers.

(** [newModel] is not among the sources: the compiled model of a record is a
    parameter. *)
Variable newModel : object -> result Model.

(** The loop of [checkCols]. *)
Fixpoint checkCols_loop (cols : list Column) (rval : StructVal) : bool :=
  match cols with
  | [] => true
  | col :: rest =>
      match FieldByName rval (GoName col) with
      | None => false
      | Some field =>
          if bool_decide (reflect_Zero (GoType col) = field) then false
          else checkCols_loop rest rval
      end
  end.

(** [checkCols(cols, rval)] *)
Definition checkCols (cols : list Column) (rval : StructVal) : bool :=
  match cols with
  | [] => false
  | _ => checkCols_loop cols rval
  end.

(** The loop of [where] over [m.PK]: nothing is written between two
    conditions.  [FieldByName] is valid here, [checkCols] has passed. *)
Fixpoint where_pk (e : engine) (cols : list Column) (rval : StructVal)
    (sql : string) (ret : list scalar) : string * list scalar :=
  match cols with
  | [] => (sql, ret)
  | col :: rest =>
      let sql := sql +:+ Quote e (Name col) in
      let sql := sql +:+ "=?" in
      let ret := match FieldByName rval (GoName col) with
                 | Some field => ret ++ [field]
                 | None => ret
                 end in
      where_pk e rest rval sql ret
  end.

(** The loop of [where] over the columns of a unique index: [" AND "] is
    written after every condition. *)
Fixpoint where_index (e : engine) (cols : list Column) (rval : StructVal)
    (sql : string) (ret : list scalar) : string * list scalar :=
  match cols with
  | [] => (sql, ret)
  | col :: rest =>
      let sql := sql +:+ Quote e (Name col) in
      let sql := sql +:+ "=?" in
      let ret := match FieldByName rval (GoName col) with
                 | Some field => ret ++ [field]
                 | None => ret
                 end in
      let sql := sql +:+ " AND " in
      where_index e rest rval sql ret
  end.

(** [for _, cols := range m.UniqueIndexes { ... }] of [where], and the
    final [return nil, errors.New(...)]. *)
Fixpoint where_unique (e : engine) (order : list (string * list Column))
    (rval : StructVal) (sql : string) (ret : list scalar)
    : string * result (list scalar) :=
  match order with
  | [] => (sql, Err ErrNoWhereKey)
  | (_, cols) :: rest =>
      if negb (checkCols cols rval) then where_unique e rest rval sql ret
      else
        let sql := sql +:+ " WHERE " in
        let '(sql, ret) := where_index e cols rval sql ret in
        let sql := Truncate (String.length sql - 5) sql in
        (sql, Ok ret)
  end.

(** [where(e, sql, m, rval)]: the buffer after the call and the values
    returned; [uorder] is the order in which [range] visits
    [m.UniqueIndexes]. *)
Definition where_ (e : engine) (sql : string) (m : Model) (rval : StructVal)
    (uorder : list (string * list Column)) : string * result (list scalar) :=
  let ret := [] in
  if checkCols (PK m) rval then
    let sql := sql +:+ " WHERE " in
    let '(sql, ret) := where_pk e (PK m) rval sql ret in
    (sql, Ok ret)
  else where_unique e uorder rval sql ret.

(** The column filter of [insertMult]. *)
Definition skipped (m : Model) (col : Column) (field : scalar) : bool :=
  bool_decide (reflect_Zero (GoType col) = field) && (IsAI m col || HasDefault col).

(** The loop of [insertMult] over [m.Cols]. *)
Fixpoint insert_cols (m : Model) (rval : StructVal) (order : list (string * Column))
    (keys : list string) (vals : list scalar) : result (list string * list scalar) :=
  match order with
  | [] => Ok (keys, vals)
  | (name, col) :: rest =>
      match FieldByName rval (GoName col) with
      | None => Err (ErrFieldNotFound (GoName col))
      | Some field =>
          if skipped m col field then insert_cols m rval rest keys vals
          else insert_cols m rval rest (keys ++ [name]) (vals ++ [field])
      end
  end.

(** [for _, col := range keys { Quote(sql, col); sql.WriteByte(',') }] *)
Fixpoint write_keys (e : engine) (keys : list string) (sql : string) : string :=
  match keys with
  | [] => sql
  | col :: rest => write_keys e rest (sql +:+ Quote e col +:+ ",")
  end.

(** [for range vals { sql.WriteString("?,") }] *)
Fixpoint write_marks (vals : list scalar) (sql : string) : string :=
  match vals with
  | [] => sql
  | _ :: rest => write_marks rest (sql +:+ "?,")
  end.

(** The text [insertMult] builds for one record. *)
Definition insert_sql (e : engine) (m : Model) (keys : list string)
    (vals : list scalar) : string :=
  let sql := "" in
  let sql := sql +:+ "INSERT INTO " in
  let sql := sql +:+ Quote e (Prefix e +:+ ModelName m) in
  let sql := sql +:+ "(" in
  let sql := write_keys e keys sql in
  let sql := Truncate (String.length sql - 1) sql in
  let sql := sql +:+ ")VALUES(" in
  let sql := write_marks vals sql in
  let sql := Truncate (String.length sql - 1) sql in
  sql +:+ ")".

(** [insertMult(e, objs...)]: the statements executed, in order, and the
    error returned. *)
Fixpoint insertMult (e : engine) (order : Model -> list (string * Column))
    (objs : list object) (log : list (string * list scalar))
    : list (string * list scalar) * option error :=
  match objs with
  | [] => (log, None)
  | v :: rest =>
      match newModel v with
      | Err err => (log, Some err)
      | Ok m =>
          match v with
          | OOther => (log, Some ErrNotStruct)
          | ORecord rval =>
              match insert_cols m rval (order m) [] [] with
              | Err err => (log, Some err)
              | Ok (keys, vals) =>
                  if bool_decide (length keys = 0) then (log, Some ErrNoColumns)
                  else
                    let sql := insert_sql e m keys vals in
                    match Exec e sql vals with
                    | Some err => (log ++ [(sql, vals)], Some err)
                    | None => insertMult e order rest (log ++ [(sql, vals)])
                    end
              end
          end
      end
  end.

(** The loop of [updateMult] over [m.Cols]. *)
Fixpoint update_cols (e : engine) (rval : StructVal) (order : list (string * Column))
    (sql : string) (vals : list scalar) : result (string * list scalar) :=
  match order with
  | [] => Ok (sql, vals)
  | (name, col) :: rest =>
      match FieldByName rval (GoName col) with
      | None => Err (ErrFieldNotFound (GoName col))
      | Some field =>
          if bool_decide (reflect_Zero (GoType col) = field)
          then update_cols e rval rest sql vals
          else update_cols e rval rest (sql +:+ Quote e name +:+ "=?,") (vals ++ [field])
      end
  end.

(** [updateMult(e, objs...)] *)
Fixpoint updateMult (e : engine) (order : Model -> list (string * Column))
    (uorder : Model -> list (string * list Column))
    (objs : list object) (log : list (string * list scalar))
    : list (string * list scalar) * option error :=
  match objs with
  | [] => (log, None)
  | v :: rest =>
      match newModel v with
      | Err err => (log, Some err)
      | Ok m =>
          match v with
          | OOther => (log, Some ErrNotStruct)
          | ORecord rval =>
              let sql := "" in
              let sql := sql +:+ "UPDATE " in
              let sql := sql +:+ Quote e (Prefix e +:+ ModelName m) in
              let sql := sql +:+ " SET " in
              match update_cols e rval (order m) sql [] with
              | Err err => (log, Some err)
              | Ok (sql, vals) =>
                  let sql := Truncate (String.length sql - 1) sql in
                  match where_ e sql m rval (uorder m) with
                  | (_, Err err) => (log, Some err)
                  | (sql, Ok whereVals) =>
                      let vals := vals ++ whereVals in
                      match Exec e sql vals with
                      | Some err => (log ++ [(sql, vals)], Some err)
                      | None => updateMult e order uorder rest (log ++ [(sql, vals)])
                      end
                  end
              end
          end
      end
  end.

(** ** The other helpers of the file *)

(** [deleteMult(e, objs...)] *)
Fixpoint deleteMult (e : engine)
    (uorder : Model -> list (string * list Column))
    (objs : list object) (log : list (string * list scalar))
    : list (string * list scalar) * option error :=
  match objs with
  | [] => (log, None)
  | v :: rest =>
      match newModel v with
      | Err err => (log, Some err)
      | Ok m =>
          match v with
          | OOther => (log, Some ErrNotStruct)
          | ORecord rval =>
              let sql := "" in
              let sql := sql +:+ "DELETE FROM " in
              let sql := sql +:+ Quote e (Prefix e +:+ ModelName m) in
              match where_ e sql m rval (uorder m) with
              | (_, Err err) => (log, Some err)
              | (sql, Ok vals) =>
                  match Exec e sql vals with
                  | Some err => (log ++ [(sql, vals)], Some err)
                  | None => deleteMult e uorder rest (log ++ [(sql, vals)])
                  end
              end
          end
      end
  end.

End Helpers.

End Impl.


(* ===================================================================== *)
(** * src/fetch/obj_test.go, [package fetch]                              *)
(* ===================================================================== *)

Module Fetch.

(** [reflect.StructField], the parts [parseObject] and [getName] read. *)
Record StructField : Type := mkField {
  FieldName : string;
  Tag : string;          (* [field.Tag.Get("orm")] *)
  Anonymous : bool
}.

(** Go values as [reflect] walks them.  A pointer holds its pointee, so two
    pointers never share one; a slice holds its backing array.  Where the
    code needs a type and has no value of it (a nil pointer, the elements of
    a slice), the type is given by its zero value: [VNil z] is the nil
    pointer for which [reflect.New(vf.Type().Elem())] allocates [z]. *)
Inductive value : Type :=
| VScalar (s : scalar)
| VNil (elem : value)
| VPtr (pointee : value)
| VStruct (tyname : string) (fields : list (StructField * value))
| VSlice (elem : value) (items : list value)
| VArray (elem : value) (items : list value).

(** A field location inside a receiver element: the [reflect.Value] kept in
    the field map stands for the place reached by these steps. *)
Inductive step : Type :=
| PDeref
| PField (i : nat).

(** The steps from a receiver element to one of its fields. *)
Definition path : Type := list step.

(** [*sql.Rows]: what [Columns()] returns and the rows [Next()] has not
    delivered yet; a SQL NULL is [None]. *)
Record Rows : Type := mkRows {
  Columns : result (list string);
  pending : list (list (option scalar))
}.

(** What a call leaves behind: the values returned, the receiver and the
    cursor after the call; or a run-time panic. *)
Inductive outcome : Type :=
| Return (count : nat) (err : option error) (obj : value) (rows : Rows)
| Panic.

(** An [AfterFetch] method of a record type: its receiver is the record or a
    pointer to it; the body gives the record after the call and the error. *)
Record Method : Type := mkMethod {
  ptrReceiver : bool;
  body : value -> value * option error
}.

(** ** The tag tokenizer *)

(** The part of [s] before the first [sep]. *)
Fixpoint before (sep : ascii) (s : string) : string :=
  match s with
  | EmptyString => EmptyString
  | String c s' => if Ascii.eqb c sep then EmptyString else String c (before sep s')
  end.

(** The part of [s] after the first [sep], if there is one. *)
Fixpoint after (sep : ascii) (s : string) : option string :=
  match s with
  | EmptyString => None
  | String c s' => if Ascii.eqb c sep then Some s' else after sep s'
  end.

(** The pieces of [s] between the occurrences of [sep]; [cur] is the piece
    being read. *)
Fixpoint split (sep : ascii) (s : string) (cur : string) : list string :=
  match s with
  | EmptyString => [cur]
  | String c s' =>
      if Ascii.eqb c sep then cur :: split sep s' EmptyString
      else split sep s' (cur +:+ String c EmptyString)
  end.

(** Blanks removed at the left, at the right, on both sides. *)
Fixpoint ltrim (s : string) : string :=
  match s with
  | String " " s' => ltrim s'
  | _ => s
  end.

Fixpoint rtrim (s : string) : string :=
  match s with
  | EmptyString => EmptyString
  | String c s' =>
      let r := rtrim s' in
      if Ascii.eqb c " " && String.eqb r EmptyString then EmptyString else String c r
  end.

Definition trim (s : string) : string := rtrim (ltrim s).

(** Modelled from the spec: a property [name] or [name(arg1,arg2)] with its
    arguments. *)
Definition parse_prop (p : string) : string * list string :=
  let name := trim (before "(" p) in
  match after "(" p with
  | None => (name, [])
  | Some rest => (name, map trim (split "," (before ")" rest) EmptyString))
  end.

(** Modelled from the spec: [tags.Get] of [internal/tags] is not among the
    sources.  A tag is [prop1(arg1,arg2);prop2;prop3(...)]: semicolons
    separate properties, commas inside parentheses separate arguments,
    whitespace around tokens is not significant.  [tagsGet tags name] is the
    argument list of the first property called [name]. *)
Definition tagsGet (tags name : string) : option (list string) :=
  match List.find (fun p => String.eqb (fst p) name)
          (map parse_prop (split ";" tags EmptyString)) with
  | Some p => Some (snd p)
  | None => None
  end.

(** [unicode.IsUpper(rune(b))] for a byte [b]: the upper-case letters of
    Latin-1. *)
Definition IsUpper (c : ascii) : bool :=
  let n := nat_of_ascii c in
  ((65 <=? n) && (n <=? 90) || (192 <=? n) && (n <=? 214)
   || (216 <=? n) && (n <=? 222))%nat.

(** ** The source functions *)

(** [name[0]] is taken as the empty string when the property has no
    argument. *)
Definition getName (field : StructField) : string :=
  let tags := Tag field in
  let fromTag :=
    match tags with
    | EmptyString => None
    | String c _ =>
        if Ascii.eqb c "-" then Some EmptyString
        else match tagsGet tags "name" with
             | Some name => Some (hd EmptyString name)
             | None => None
             end
    end in
  match fromTag with
  | Some name => name
  | None =>
      match FieldName field with
      | String c _ => if IsUpper c then FieldName field else EmptyString
      | EmptyString => EmptyString
      end
  end.

(** [for subname, val := range items], writing [val] into the outer map
    under the key [name+"."+subname];
    the keys written are distinct, the visiting order is immaterial. *)
Definition add_dotted (name : string) (items ret : gmap string path) : gmap string path :=
  map_fold (fun subname val acc => <[name +:+ "." +:+ subname := val]> acc) ret items.

(** [parseObject(v, ret)]; [here] is where [v] sits in the receiver element.
    Returned are [v] after the call (nil pointer fields are allocated on the
    way), the map and the error.

    - the outer function is the body up to the loop over the fields;
    - [fields] is that loop, [i] the index of the head of [fs];
    - [target] is the inner loop [for vf.Kind() == reflect.Ptr] together
      with the branch on [vf.Kind() == reflect.Struct] after it. *)
Fixpoint parseObject (v : value) (here : path) (ret : gmap string path)
    {struct v} : value * gmap string path * option error :=
  match v with
  | VPtr v' =>
      let '(v'', ret', err) := parseObject v' (here ++ [PDeref]) ret in
      (VPtr v'', ret', err)
  | VStruct ty fs =>
      let fields :=
        fix fields (fs : list (StructField * value)) (i : nat)
            (ret : gmap string path)
            : list (StructField * value) * gmap string path * option error :=
          match fs with
          | [] => ([], ret, None)
          | (field, vf) :: rest =>
              if Anonymous field then
                let '(vf', ret', _) := parseObject vf (here ++ [PField i]) ret in
                let '(rest', ret'', err) := fields rest (S i) ret' in
                ((field, vf') :: rest', ret'', err)
              else
                let name := getName field in
                if String.eqb name EmptyString then
                  let '(rest', ret', err) := fields rest (S i) ret in
                  ((field, vf) :: rest', ret', err)
                else
                  let target :=
                    fix target (vf : value) (p : path)
                        : value * gmap string path * option error :=
                      match vf with
                      | VPtr x =>
                          let '(x', ret', err) := target x (p ++ [PDeref]) in
                          (VPtr x', ret', err)
                      | VNil z =>
                          let '(z', ret', err) := target z (p ++ [PDeref]) in
                          (VPtr z', ret', err)
                      | VStruct _ _ =>
                          let '(vf', items, err) := parseObject vf p ∅ in
                          match err with
                          | Some e => (vf', ret, Some e)
                          | None => (vf', add_dotted name items ret, None)
                          end
                      | _ =>
                          match ret !! name with
                          | Some _ => (vf, ret, Some (ErrDuplicateField name))
                          | None => (vf, <[name := p]> ret, None)
                          end
                      end in
                  let '(vf', ret', err) := target vf (here ++ [PField i]) in
                  match err with
                  | Some e => ((field, vf') :: rest, ret', Some e)
                  | None =>
                      let '(rest', ret'', err') := fields rest (S i) ret' in
                      ((field, vf') :: rest', ret'', err')
                  end
          end in
      let '(fs', ret', err) := fields fs 0 ret in
      (VStruct ty fs', ret', err)
  | _ => (v, ret, Some ErrInvalidKind)
  end.

(** The two loops of [parseObject] on their own, over the call [rec] they
    make on a record: [parse_target] is [target], [parse_fields] is [fields],
    and [parseObject] on a record is [parse_fields parseObject]. *)
Definition parse_target
    (rec : value -> path -> gmap string path -> value * gmap string path * option error)
    (name : string) (ret : gmap string path)
    : value -> path -> value * gmap string path * option error :=
  fix target (vf : value) (p : path)
      : value * gmap string path * option error :=
    match vf with
    | VPtr x =>
        let '(x', ret', err) := target x (p ++ [PDeref]) in
        (VPtr x', ret', err)
    | VNil z =>
        let '(z', ret', err) := target z (p ++ [PDeref]) in
        (VPtr z', ret', err)
    | VStruct _ _ =>
        let '(vf', items, err) := rec vf p ∅ in
        match err with
        | Some e => (vf', ret, Some e)
        | None => (vf', add_dotted name items ret, None)
        end
    | _ =>
        match ret !! name with
        | Some _ => (vf, ret, Some (ErrDuplicateField name))
        | None => (vf, <[name := p]> ret, None)
        end
    end.

Definition parse_fields
    (rec : value -> path -> gmap string path -> value * gmap string path * option error)
    (here : path)
    : list (StructField * value) -> nat -> gmap string path ->
      list (StructField * value) * gmap string path * option error :=
  fix fields (fs : list (StructField * value)) (i : nat)
      (ret : gmap string path)
      : list (StructField * value) * gmap string path * option error :=
    match fs with
    | [] => ([], ret, None)
    | (field, vf) :: rest =>
        if Anonymous field then
          let '(vf', ret', _) := rec vf (here ++ [PField i]) ret in
          let '(rest', ret'', err) := fields rest (S i) ret' in
          ((field, vf') :: rest', ret'', err)
        else
          let name := getName field in
          if String.eqb name EmptyString then
            let '(rest', ret', err) := fields rest (S i) ret in
            ((field, vf) :: rest', ret', err)
          else
            let '(vf', ret', err) :=
              parse_target rec name ret vf (here ++ [PField i]) in
            match err with
            | Some e => ((field, vf') :: rest, ret', Some e)
            | None =>
                let '(rest', ret'', err') := fields rest (S i) ret' in
                ((field, vf') :: rest', ret'', err')
            end
    end.



(** [getColumns(v, cols)]: a bound field is [Some] of its place, the
    throw-away [&val] is [None]. *)
Definition getColumns (v : value) (cols : list string)
    : value * result (list (option path)) :=
  let '(v', items, err) := parseObject v [] ∅ in
  match err with
  | Some e => (v', Err e)
  | None => (v', Ok (map (fun col => items !! col) cols))
  end.

(** Writing through a field location. *)
Fixpoint update_at (v : value) (p : path) (f : value -> result value)
    : result value :=
  match p, v with
  | [], _ => f v
  | PDeref :: p', VPtr x =>
      match update_at x p' f with
      | Ok x' => Ok (VPtr x')
      | Err e => Err e
      end
  | PField i :: p', VStruct ty fs =>
      match fs !! i with
      | Some (field, vf) =>
          match update_at vf p' f with
          | Ok vf' => Ok (VStruct ty (<[i := (field, vf')]> fs))
          | Err e => Err e
          end
      | None => Err (ErrDriver "scan: no such field")
      end
  | _, _ => Err (ErrDriver "scan: no such place")
  end.

(** Modelled from the spec: [database/sql] is the opaque driver.  Of its
    conversions only the identities are kept: a driver value is stored into a
    destination of its own kind; a NULL or a value of another kind is a scan
    error. *)
Definition convertAssign (src : option scalar) (dest : value) : result value :=
  match src, dest with
  | Some (SInt z), VScalar (SInt _) => Ok (VScalar (SInt z))
  | Some (SStr s), VScalar (SStr _) => Ok (VScalar (SStr s))
  | Some (SBool b), VScalar (SBool _) => Ok (VScalar (SBool b))
  | _, _ => Err (ErrDriver "scan: unsupported conversion")
  end.

(** [rows.Scan(buff...)] on the current row: destinations are assigned from
    left to right, and the ones before a failing column stay assigned. *)
Fixpoint scan_loop (row : list (option scalar)) (buff : list (option path))
    (v : value) : value * option error :=
  match row, buff with
  | src :: row', dest :: buff' =>
      match dest with
      | None => scan_loop row' buff' v
      | Some p =>
          match update_at v p (convertAssign src) with
          | Ok v' => scan_loop row' buff' v'
          | Err e => (v, Some e)
          end
      end
  | _, _ => (v, None)
  end.

(** [rows.Scan(buff...)]: as many destinations as columns are required. *)
Definition Scan (row : list (option scalar)) (buff : list (option path))
    (v : value) : value * option error :=
  if bool_decide (length row = length buff) then scan_loop row buff v
  else (v, Some (ErrDriver "scan: wrong number of destinations")).

(** [itemType := val.Type().Elem()] followed by
    [for itemType.Kind() == reflect.Ptr { itemType = itemType.Elem() }],
    on the zero value that stands for the element type. *)
Fixpoint itemType (z : value) : value :=
  match z with
  | VNil z' => itemType z'
  | VPtr z' => itemType z'
  | _ => z
  end.

(** [Kind() == reflect.Struct] *)
Definition isStruct (v : value) : bool :=
  match v with
  | VStruct _ _ => true
  | _ => false
  end.

(** [reflect.Append(elem, reflect.New(itemType))]: the new element is a
    pointer to a record, so the call panics unless the element type of the
    slice is exactly that pointer type. *)
Definition Append_New (z : value) (items : list value) : option (list value) :=
  match z with
  | VNil (VStruct ty fs) => Some (items ++ [VPtr (VStruct ty fs)])
  | _ => None
  end.

(** The slice or array [val] with the elements [items]. *)
Definition set_items (val : value) (items : list value) : value :=
  match val with
  | VSlice z _ => VSlice z items
  | VArray z _ => VArray z items
  | _ => val
  end.

Section Hooks.

(** The [AfterFetch] method of each record type, by the name of the type;
    [None] when the type has none. *)
Variable methods : string -> option Method.

(** [afterFetch(v)]: [v] is what [Interface()] returned, a record (a copy:
    only a value receiver applies, and what the method assigns is lost) or a
    pointer to one (the method set holds both receivers).  A nil pointer
    never gets here, [getColumns] fails on it first. *)
Definition afterFetch (v : value) : value * option error :=
  match v with
  | VPtr (VStruct ty fs) =>
      match methods ty with
      | Some f =>
          let '(s', err) := body f (VStruct ty fs) in
          (if ptrReceiver f then VPtr s' else v, err)
      | None => (v, None)
      end
  | VStruct ty fs =>
      match methods ty with
      | Some f =>
          if ptrReceiver f then (v, None)
          else (v, snd (body f v))
      | None => (v, None)
      end
  | _ => (v, None)
  end.

(** [fetchOnceObj(val, rows)] *)
Definition fetchOnceObj (val : value) (rows : Rows) : outcome :=
  match Columns rows with
  | Err e => Return 0 (Some e) val rows
  | Ok cols =>
      match getColumns val cols with
      | (val, Err e) => Return 0 (Some e) val rows
      | (val, Ok buff) =>
          match pending rows with
          | row :: rest =>
              let rows := mkRows (Columns rows) rest in
              match Scan row buff val with
              | (val, Some e) => Return 0 (Some e) val rows
              | (val, None) =>
                  match afterFetch val with
                  | (val, Some e) => Return 0 (Some e) val rows
                  | (val, None) => Return 1 None val rows
                  end
              end
          | [] => Return 0 None val rows
          end
      end
  end.

(** What a loop over the rows ends with: the error of the [return 0, err]
    it took, if any, the elements and the rows left. *)
Inductive loop_end : Type :=
| Ended (err : option error) (count : nat) (items : list value)
    (unread : list (list (option scalar)))
| Panicked.

(** The loop of [fetchObjToFixedSlice]:
    [for i := 0; (i < l) && rows.Next(); i++]. *)
Fixpoint fixed_loop (cols : list string) (l i : nat) (items : list value)
    (rows : list (list (option scalar))) : loop_end :=
  if bool_decide (i < l) then
    match rows with
    | [] => Ended None l items []
    | row :: rest =>
        match items !! i with
        | None => Panicked
        | Some item =>
            match getColumns item cols with
            | (item, Err e) => Ended (Some e) 0 (<[i := item]> items) rest
            | (item, Ok buff) =>
                match Scan row buff item with
                | (item, Some e) => Ended (Some e) 0 (<[i := item]> items) rest
                | (item, None) =>
                    match afterFetch item with
                    | (item, Some e) => Ended (Some e) 0 (<[i := item]> items) rest
                    | (item, None) =>
                        fixed_loop cols l (S i) (<[i := item]> items) rest
                    end
                end
            end
        end
    end
  else Ended None l items rows.

(** [fetchObjToFixedSlice(val, rows)]; [val] is a slice or an array. *)
Definition fetchObjToFixedSlice (val : value) (rows : Rows) : outcome :=
  match val with
  | VSlice z items | VArray z items =>
      if negb (isStruct (itemType z)) then Return 0 (Some ErrInvalidKind) val rows
      else
        match Columns rows with
        | Err e => Return 0 (Some e) val rows
        | Ok cols =>
            let l := length items in
            match fixed_loop cols l 0 items (pending rows) with
            | Ended err count items unread =>
                Return count err (set_items val items) (mkRows (Columns rows) unread)
            | Panicked => Panic
            end
        end
  | _ => Panic
  end.

(** The loop of [fetchObjToSlice]: [for i := 0; rows.Next(); i++]. *)
Fixpoint slice_loop (cols : list string) (z : value) (l i count : nat)
    (items : list value) (rows : list (list (option scalar))) : loop_end :=
  match rows with
  | [] => Ended None count items []
  | row :: rest =>
      let count := S count in
      match (if bool_decide (l <= i) then Append_New z items else Some items) with
      | None => Panicked
      | Some items =>
          match items !! i with
          | None => Panicked
          | Some item =>
              match getColumns item cols with
              | (item, Err e) => Ended (Some e) 0 (<[i := item]> items) rest
              | (item, Ok buff) =>
                  match Scan row buff item with
                  | (item, Some e) => Ended (Some e) 0 (<[i := item]> items) rest
                  | (item, None) =>
                      match afterFetch item with
                      | (item, Some e) => Ended (Some e) 0 (<[i := item]> items) rest
                      | (item, None) =>
                          slice_loop cols z l (S i) count (<[i := item]> items) rest
                      end
                  end
              end
          end
      end
  end.

(** [fetchObjToSlice(val, rows)]; [val] is a pointer to a slice. *)
Definition fetchObjToSlice (val : value) (rows : Rows) : outcome :=
  match val with
  | VPtr (VSlice z items) =>
      if negb (isStruct (itemType z)) then Return 0 (Some ErrInvalidKind) val rows
      else
        match Columns rows with
        | Err e => Return 0 (Some e) val rows
        | Ok cols =>
            let l := length items in
            match slice_loop cols z l 0 0 items (pending rows) with
            | Ended err count items unread =>
                Return count err (VPtr (VSlice z items)) (mkRows (Columns rows) unread)
            | Panicked => Panic
            end
        end
  | _ => Panic
  end.

(** The receiver of a call made on [val.Elem()] is the pointer [val]. *)
Definition through_pointer (o : outcome) : outcome :=
  match o with
  | Return count err elem rows => Return count err (VPtr elem) rows
  | Panic => Panic
  end.

(** [Object(rows, obj)] *)
Definition Object (rows : Rows) (obj : value) : outcome :=
  match obj with
  | VPtr elem =>
      match elem with
      | VSlice _ _ => fetchObjToSlice obj rows
      | VArray _ _ => through_pointer (fetchObjToFixedSlice elem rows)
      | VStruct _ _ => through_pointer (fetchOnceObj elem rows)
      | _ => Return 0 (Some ErrInvalidKind) obj rows
      end
  | VSlice _ _ => fetchObjToFixedSlice obj rows
  | _ => Return 0 (Some ErrInvalidKind) obj rows
  end.

(** [Obj(obj, rows)], deprecated. *)
Definition Obj (obj : value) (rows : Rows) : outcome :=
  Object rows obj.

End Hooks.

End Fetch.


(* ===================================================================== *)
(** * The model compiler: the column properties                           *)
(* ===================================================================== *)

Module Schema.

(** Modelled from the spec: the model compiler ([NewModel], [parseColumn],
    [setNullable], [setAI], [setPK], [setDefault], [setOCC]) is not among the
    sources, only its tests are.  A column is as in section 3 of the spec;
    [IsInteger] is what the compiler needs of [NativeType]. *)
Record Column : Type := mkColumn {
  Name : string;
  GoName : string;
  IsInteger : bool;
  Len1 : nat;
  Len2 : nat;
  Nullable : bool;
  HasDefault : bool;
  Default : string
}.

(** Modelled from the spec: the compiled schema.  The code holds pointers to
    columns; here a column is named by its position in declaration order, so
    that [AI], [OCC], [PK] and the indices keep naming the same column while
    its properties are applied. *)
Record Model : Type := mkModel {
  Cols : list Column;
  PK : list nat;
  AI : option nat;
  OCC : option nat;
  UniqueIndexes : gomap (list nat);
  KeyIndexes : gomap (list nat);
  FK : gomap (nat * list string)
}.

Definition emptyModel : Model := mkModel [] [] None None [] [] [].

(** Modelled from the spec: a field of the record being compiled, after
    anonymous fields are flattened, with what the compiler reads of it. *)
Record Field : Type := mkField {
  FieldName : string;
  FieldIsInteger : bool;
  FieldTag : string
}.

Definition setCol_Nullable (col : Column) (b : bool) : Column :=
  mkColumn (Name col) (GoName col) (IsInteger col) (Len1 col) (Len2 col)
    b (HasDefault col) (Default col).

Definition setCol_Name (col : Column) (n : string) : Column :=
  mkColumn n (GoName col) (IsInteger col) (Len1 col) (Len2 col)
    (Nullable col) (HasDefault col) (Default col).

Definition setCol_Len (col : Column) (l1 l2 : nat) : Column :=
  mkColumn (Name col) (GoName col) (IsInteger col) l1 l2
    (Nullable col) (HasDefault col) (Default col).

Definition setCol_Default (col : Column) (d : string) : Column :=
  mkColumn (Name col) (GoName col) (IsInteger col) (Len1 col) (Len2 col)
    (Nullable col) true d.

Definition setM_PK (m : Model) (pk : list nat) : Model :=
  mkModel (Cols m) pk (AI m) (OCC m) (UniqueIndexes m) (KeyIndexes m) (FK m).

Definition setM_AI (m : Model) (i : nat) : Model :=
  mkModel (Cols m) (PK m) (Some i) (OCC m) (UniqueIndexes m) (KeyIndexes m) (FK m).

Definition setM_OCC (m : Model) (i : nat) : Model :=
  mkModel (Cols m) (PK m) (AI m) (Some i) (UniqueIndexes m) (KeyIndexes m) (FK m).

Definition setM_Unique (m : Model) (u : gomap (list nat)) : Model :=
  mkModel (Cols m) (PK m) (AI m) (OCC m) u (KeyIndexes m) (FK m).

Definition setM_Key (m : Model) (k : gomap (list nat)) : Model :=
  mkModel (Cols m) (PK m) (AI m) (OCC m) (UniqueIndexes m) k (FK m).

Definition setM_FK (m : Model) (f : gomap (nat * list string)) : Model :=
  mkModel (Cols m) (PK m) (AI m) (OCC m) (UniqueIndexes m) (KeyIndexes m) f.

Definition addCol (m : Model) (col : Column) : Model :=
  mkModel (Cols m ++ [col]) (PK m) (AI m) (OCC m) (UniqueIndexes m)
    (KeyIndexes m) (FK m).

(** Modelled from the spec: [Column.IsAI], for the column at position
    [i]. *)
Definition IsAI (m : Model) (i : nat) : bool := bool_decide (AI m = Some i).

Definition lower (c : ascii) : ascii :=
  let n := nat_of_ascii c in
  if ((65 <=? n) && (n <=? 90))%nat then ascii_of_nat (n + 32) else c.

Fixpoint lowercase (s : string) : string :=
  match s with
  | EmptyString => EmptyString
  | String c s' => String (lower c) (lowercase s')
  end.

(** Modelled from the spec: [nullable] accepts true, T, 1 against false, 0,
    whatever the case. *)
Definition parseBool (s : string) : option bool :=
  let l := lowercase s in
  if String.eqb l "true" || String.eqb l "t" || String.eqb l "1" then Some true
  else if String.eqb l "false" || String.eqb l "0" then Some false
  else None.

Definition isDigit (c : ascii) : bool :=
  let n := nat_of_ascii c in ((48 <=? n) && (n <=? 57))%nat.

Fixpoint parseNat_loop (s : string) (acc : nat) : option nat :=
  match s with
  | EmptyString => Some acc
  | String c s' =>
      if isDigit c then parseNat_loop s' (10 * acc + (nat_of_ascii c - 48))
      else None
  end.

(** A non-negative integer literal. *)
Definition parseNat (s : string) : option nat :=
  match s with
  | EmptyString => None
  | _ => parseNat_loop s 0
  end.

(** Modelled from the spec: [nullable], zero or one argument, none meaning
    true; an AI column cannot be declared nullable, which is a schema error
    naming the column. *)
Definition setNullable (m : Model) (i : nat) (col : Column) (vals : list string)
    : result (Model * Column) :=
  let declare (b : bool) :=
    if b && IsAI m i then Err (ErrSchema (Name col) "nullable")
    else Ok (m, setCol_Nullable col b) in
  match vals with
  | [] => declare true
  | [v] =>
      match parseBool v with
      | Some b => declare b
      | None => Err (ErrSchema (Name col) "nullable")
      end
  | _ => Err (ErrSchema (Name col) "nullable")
  end.

(** Modelled from the spec: [ai], at most two arguments (start, step), both
    numeric.  The AI column is integer-typed, not nullable and without
    default; a model has at most one; a primary key declared so far must be
    this column alone. *)
Definition setAI (m : Model) (i : nat) (col : Column) (vals : list string)
    : result (Model * Column) :=
  if bool_decide (2 < length vals) then Err (ErrSchema (Name col) "ai")
  else if negb (forallb (fun v => bool_decide (is_Some (parseNat v))) vals)
  then Err (ErrSchema (Name col) "ai")
  else if HasDefault col then Err (ErrSchema (Name col) "ai")
  else if Nullable col then Err (ErrSchema (Name col) "ai")
  else if negb (IsInteger col) then Err (ErrSchema (Name col) "ai")
  else if bool_decide (is_Some (AI m)) then Err (ErrSchema (Name col) "ai")
  else if negb (bool_decide (PK m = []) || bool_decide (PK m = [i]))
  then Err (ErrSchema (Name col) "ai")
  else Ok (setM_AI (setM_PK m [i]) i, col).

(** Modelled from the spec: [pk] takes no argument and appends the column to
    the primary key; the AI column is the sole member of its key. *)
Definition setPK (m : Model) (i : nat) (col : Column) (vals : list string)
    : result (Model * Column) :=
  match vals with
  | [] =>
      if bool_decide (is_Some (AI m)) then Err (ErrSchema (Name col) "pk")
      else Ok (setM_PK m (PK m ++ [i]), col)
  | _ => Err (ErrSchema (Name col) "pk")
  end.

(** Modelled from the spec: [default] takes one argument; no default on the
    AI column nor on a single-column primary key. *)
Definition setDefault (m : Model) (i : nat) (col : Column) (vals : list string)
    : result (Model * Column) :=
  match vals with
  | [v] =>
      if IsAI m i then Err (ErrSchema (Name col) "default")
      else if bool_decide (PK m = [i]) then Err (ErrSchema (Name col) "default")
      else Ok (m, setCol_Default col v)
  | _ => Err (ErrSchema (Name col) "default")
  end.

(** Modelled from the spec: [occ], zero or one boolean argument; the OCC
    column is integer-kinded, not nullable, not AI, and there is one at
    most. *)
Definition setOCC (m : Model) (i : nat) (col : Column) (vals : list string)
    : result (Model * Column) :=
  let mark :=
    if bool_decide (is_Some (OCC m)) || IsAI m i || Nullable col
       || negb (IsInteger col)
    then Err (ErrSchema (Name col) "occ")
    else Ok (setM_OCC m i, col) in
  match vals with
  | [] => mark
  | [v] =>
      match parseBool v with
      | Some true => mark
      | Some false => Ok (m, col)
      | None => Err (ErrSchema (Name col) "occ")
      end
  | _ => Err (ErrSchema (Name col) "occ")
  end.

(** Modelled from the spec: [name] takes one argument, the column name. *)
Definition setName (m : Model) (col : Column) (vals : list string)
    : result (Model * Column) :=
  match vals with
  | [n] => Ok (m, setCol_Name col n)
  | _ => Err (ErrSchema (Name col) "name")
  end.

(** Modelled from the spec: [len] takes up to two non-negative integers. *)
Definition setLen (m : Model) (col : Column) (vals : list string)
    : result (Model * Column) :=
  match vals with
  | [] => Ok (m, col)
  | [a] =>
      match parseNat a with
      | Some l1 => Ok (m, setCol_Len col l1 (Len2 col))
      | None => Err (ErrSchema (Name col) "len")
      end
  | [a; b] =>
      match parseNat a, parseNat b with
      | Some l1, Some l2 => Ok (m, setCol_Len col l1 l2)
      | _, _ => Err (ErrSchema (Name col) "len")
      end
  | _ => Err (ErrSchema (Name col) "len")
  end.

(** Appending a column to the index called [name]. *)
Fixpoint index_add (name : string) (i : nat) (idx : gomap (list nat))
    : gomap (list nat) :=
  match idx with
  | [] => [(name, [i])]
  | (k, cols) :: rest =>
      if String.eqb k name then (k, cols ++ [i]) :: rest
      else (k, cols) :: index_add name i rest
  end.

Definition is_bound {V : Type} (m : gomap V) (key : string) : bool :=
  match map_get m key with
  | Some _ => true
  | None => false
  end.

(** Modelled from the spec: [unique] and [index] take the name of the index;
    a constraint name belongs to one kind of constraint. *)
Definition setUnique (m : Model) (i : nat) (col : Column) (vals : list string)
    : result (Model * Column) :=
  match vals with
  | [n] =>
      if is_bound (KeyIndexes m) n || is_bound (FK m) n
      then Err (ErrSchema (Name col) "unique")
      else Ok (setM_Unique m (index_add n i (UniqueIndexes m)), col)
  | _ => Err (ErrSchema (Name col) "unique")
  end.

Definition setIndex (m : Model) (i : nat) (col : Column) (vals : list string)
    : result (Model * Column) :=
  match vals with
  | [n] =>
      if is_bound (UniqueIndexes m) n || is_bound (FK m) n
      then Err (ErrSchema (Name col) "index")
      else Ok (setM_Key m (index_add n i (KeyIndexes m)), col)
  | _ => Err (ErrSchema (Name col) "index")
  end.

Definition isRule (r : string) : bool :=
  let u := r in
  String.eqb u "NO ACTION" || String.eqb u "CASCADE" || String.eqb u "SET NULL"
  || String.eqb u "SET DEFAULT" || String.eqb u "RESTRICT" || String.eqb u "".

(** Modelled from the spec: [fk(constraintName, refTable, refCol[,
    updateRule[, deleteRule]])], the rules drawn from the closed set. *)
Definition setFK (m : Model) (i : nat) (col : Column) (vals : list string)
    : result (Model * Column) :=
  match vals with
  | n :: refTable :: refCol :: rules =>
      if bool_decide (2 < length rules) || negb (forallb isRule rules)
         || is_bound (UniqueIndexes m) n || is_bound (KeyIndexes m) n
         || is_bound (FK m) n
      then Err (ErrSchema (Name col) "fk")
      else Ok (setM_FK m (FK m ++ [(n, (i, refTable :: refCol :: rules))]), col)
  | _ => Err (ErrSchema (Name col) "fk")
  end.

(** Modelled from the spec: one property of a tag applied to the column at
    position [i]; an unknown property is an error. *)
Definition applyProp (m : Model) (i : nat) (col : Column)
    (prop : string * list string) : result (Model * Column) :=
  let '(name, vals) := prop in
  if String.eqb name "name" then setName m col vals
  else if String.eqb name "len" then setLen m col vals
  else if String.eqb name "nullable" then setNullable m i col vals
  else if String.eqb name "pk" then setPK m i col vals
  else if String.eqb name "ai" then setAI m i col vals
  else if String.eqb name "unique" then setUnique m i col vals
  else if String.eqb name "index" then setIndex m i col vals
  else if String.eqb name "fk" then setFK m i col vals
  else if String.eqb name "occ" then setOCC m i col vals
  else if String.eqb name "default" then setDefault m i col vals
  else Err (ErrSchema (Name col) name).

(** Modelled from the spec: the properties of a tag are applied in order,
    up to the first error. *)
Fixpoint applyProps (m : Model) (i : nat) (col : Column)
    (props : list (string * list string)) : result (Model * Column) :=
  match props with
  | [] => Ok (m, col)
  | prop :: rest =>
      match applyProp m i col prop with
      | Err e => Err e
      | Ok (m', col') => applyProps m' i col' rest
      end
  end.

(** The properties of a tag, in order; the empty pieces a stray semicolon
    leaves are dropped. *)
Definition tagProps (tag : string) : list (string * list string) :=
  List.filter (fun p => negb (String.eqb (fst p) ""))
    (map Fetch.parse_prop (Fetch.split ";" tag EmptyString)).

Definition isExported (name : string) : bool :=
  match name with
  | String c _ => Fetch.IsUpper c
  | EmptyString => false
  end.

Definition hasProp (name : string) (props : list (string * list string)) : bool :=
  existsb (fun p => String.eqb (fst p) name) props.

(** Modelled from the spec: [parseColumn], the properties of one field
    applied to a fresh column, which then joins the model under its final
    name; a name already taken is an error. *)
Definition parseColumn (m : Model) (f : Field) : result Model :=
  let i := length (Cols m) in
  let col := mkColumn (FieldName f) (FieldName f) (FieldIsInteger f) 0 0 false false "" in
  match applyProps m i col (tagProps (FieldTag f)) with
  | Err e => Err e
  | Ok (m', col') =>
      if existsb (fun c => String.eqb (Name c) (Name col')) (Cols m')
      then Err (ErrSchema (Name col') "name")
      else Ok (addCol m' col')
  end.

(** Modelled from the spec: the field walk, in declaration order.  A tag
    that starts with [-] excludes the field, and so does an un-exported name
    without an explicit [name(...)]. *)
Fixpoint walk (fields : list Field) (m : Model) : result Model :=
  match fields with
  | [] => Ok m
  | f :: rest =>
      let excluded :=
        match FieldTag f with
        | String "-" _ => true
        | _ => negb (isExported (FieldName f))
               && negb (hasProp "name" (tagProps (FieldTag f)))
        end in
      if excluded then walk rest m
      else
        match parseColumn m f with
        | Err e => Err e
        | Ok m' => walk rest m'
        end
  end.

(** Modelled from the spec: the model of a record type is compiled from
    the empty model. *)
Definition compile (fields : list Field) : result Model := walk fields emptyModel.

(** The invariant of the spec: the AI column, if any, is not nullable. *)
Definition noNullableAI (m : Model) : Prop :=
  forall i col, AI m = Some i -> Cols m !! i = Some col -> Nullable col = false.

(** What holds while the properties of the column at position [i] are
    applied: the columns compiled so far are the ones before [i], none of
    them is a nullable AI column, and the column in hand is not one
    either. *)
Definition applying (m : Model) (i : nat) (col : Column) : Prop :=
  length (Cols m) = i
  /\ noNullableAI m
  /\ (AI m = Some i -> Nullable col = false).

(** The other properties leave [AI], the columns compiled so far and
    [Nullable] of the column in hand as they are. *)
Definition untouched (m : Model) (col : Column) (m' : Model) (col' : Column) : Prop :=
  AI m' = AI m /\ Cols m' = Cols m /\ Nullable col' = Nullable col.

End Schema.


(* ===================================================================== *)
(** * The wording of the specification                                    *)
(* ===================================================================== *)

Module Spec.

(** INSERT: a pair is emitted for every column where either the value is
    non-zero or the column is neither AI nor has a default. *)
Definition included (zero field : scalar) (isAI hasDefault : bool) : bool :=
  negb (bool_decide (field = zero)) || (negb isAI && negb hasDefault).

(** The same, said the other way round: a column is omitted when its value
    is zero and it is AI or has a default. *)
Definition omitted (zero field : scalar) (isAI hasDefault : bool) : bool :=
  bool_decide (field = zero) && (isAI || hasDefault).

(** UPDATE: every non-zero column, and every column of the allow-list. *)
Definition updated (zero field : scalar) (name : string) (cols : list string) : bool :=
  negb (bool_decide (field = zero)) || bool_decide (name ∈ cols).

(** The (name, value) pairs of the columns of a model that pass [keep]; a
    column whose field is missing contributes nothing. *)
Definition select {C : Type} (fieldOf : C -> option scalar)
    (keep : string -> C -> scalar -> bool) (cols : list (string * C))
    : list (string * scalar) :=
  omap (fun '(name, col) =>
          match fieldOf col with
          | Some field => if keep name col field then Some (name, field) else None
          | None => None
          end) cols.

(** A key (the primary key or a unique index) can be used for the WHERE
    clause when it has a column and all its columns are present and
    non-zero. *)
Definition usable {C : Type} (fieldOf : C -> option scalar) (zeroOf : C -> scalar)
    (cols : list C) : bool :=
  negb (bool_decide (cols = []))
  && forallb (fun col => match fieldOf col with
                         | Some field => negb (bool_decide (zeroOf col = field))
                         | None => false
                         end) cols.

(** The first entry of a list of indices that can be used. *)
Definition first_usable {C : Type} (fieldOf : C -> option scalar)
    (zeroOf : C -> scalar) (indices : list (string * list C))
    : option (string * list C) :=
  List.find (fun idx => usable fieldOf zeroOf (snd idx)) indices.

(** The conditions [col=?] of a key with their arguments, one per column. *)
Definition conditions {C : Type} (fieldOf : C -> option scalar)
    (text : C -> string) (cols : list C) : list (string * scalar) :=
  omap (fun col => match fieldOf col with
                   | Some field => Some (text col, field)
                   | None => None
                   end) cols.

(** Every column visited has its field in the record. *)
Definition all_valid {C : Type} (goName : C -> string) (rval : StructVal)
    (order : list (string * C)) : Prop :=
  Forall (fun p => is_Some (FieldByName rval (goName p.2))) order.

(** ** [src/sqlbuilder.go] in these words *)

(** Column names as the helpers hand them to the builder. *)
Definition braces (p : string * scalar) : string * scalar :=
  ("{" +:+ p.1 +:+ "}", p.2).

(** The field of a record that holds a column. *)
Definition sb_field (rval : StructVal) (col : SqlBuilder.Column) : option scalar :=
  FieldByName rval (SqlBuilder.GoName col).

(** The columns [insert] keeps, in the wording of the specification. *)
Definition insert_columns (m : SqlBuilder.Model) (rval : StructVal)
    (cols : list (string * SqlBuilder.Column)) : list (string * scalar) :=
  select (sb_field rval)
    (fun _ col field =>
       included (SqlBuilder.Zero col) field (SqlBuilder.IsAI m col)
         (SqlBuilder.HasDefault col)) cols.

(** The columns [update] sets, in the wording of the specification. *)
Definition update_columns (rval : StructVal) (allow : list string)
    (cols : list (string * SqlBuilder.Column)) : list (string * scalar) :=
  select (sb_field rval)
    (fun name col field => updated (SqlBuilder.Zero col) field name allow) cols.

(** The columns of [keys] that the filter of a batch INSERT drops for a
    record after the first. *)
Definition dropped_keys (m : SqlBuilder.Model) (irval : StructVal)
    (keys : list string) : list string :=
  List.filter
    (fun name =>
       match map_get (SqlBuilder.Cols m) name with
       | Some col =>
           match sb_field irval col with
           | Some field => SqlBuilder.skipped m col field
           | None => false
           end
       | None => false
       end) keys.

(** An INSERT statement on which only [KeyValue] was called. *)
Definition single_row (s : SqlBuilder.InsertStmt) : Prop :=
  match SqlBuilder.iArgs s with
  | [] => SqlBuilder.iCols s = []
  | [row] => length row = length (SqlBuilder.iCols s)
  | _ => False
  end.

(** The condition the helpers hand to [And] for a column. *)
Definition key_text (name : string) : string := "{" +:+ name +:+ "}=?".

(** The key [cols] can be used for the record. *)
Definition sb_usable (rval : StructVal) (cols : list SqlBuilder.Column) : bool :=
  usable (sb_field rval) SqlBuilder.Zero cols.

(** The conditions of the key [cols] as [And] receives them. *)
Definition sb_conditions (rval : StructVal) (cols : list SqlBuilder.Column)
    : list (string * scalar) :=
  conditions (sb_field rval) (fun col => key_text (SqlBuilder.Name col)) cols.

(** Keyed WHERE synthesis: the primary key if it can be used; otherwise the
    first index of [indices] that can be; otherwise the no-where-key error
    and nothing added to the WHERE part. *)
Definition keyed_where (w : SqlBuilder.WhereStmt) (m : SqlBuilder.Model)
    (rval : StructVal) (indices : list (string * list SqlBuilder.Column))
    : SqlBuilder.WhereStmt * option error :=
  if sb_usable rval (SqlBuilder.PK m) then
    (w ++ sb_conditions rval (SqlBuilder.PK m), None)
  else
    match first_usable (sb_field rval) SqlBuilder.Zero indices with
    | Some idx => (w ++ sb_conditions rval idx.2, None)
    | None => (w, Some ErrNoWhereKey)
    end.

(** ** [src/impl.go] in these words *)

(** The field of a record that holds a column. *)
Definition impl_field (rval : StructVal) (col : Impl.Column) : option scalar :=
  FieldByName rval (Impl.GoName col).

(** The zero value of the type of a column. *)
Definition impl_zero (col : Impl.Column) : scalar :=
  Impl.reflect_Zero (Impl.GoType col).

(** The key [cols] can be used for the record. *)
Definition impl_usable (rval : StructVal) (cols : list Impl.Column) : bool :=
  usable (impl_field rval) impl_zero cols.

(** The arguments of the conditions of a key. *)
Definition impl_values (rval : StructVal) (cols : list Impl.Column) : list scalar :=
  omap (impl_field rval) cols.

(** One condition [col=?] per column, joined by AND. *)
Definition and_joined (e : Impl.engine) (cols : list Impl.Column) : string :=
  String.concat " AND "
    (map (fun col => Impl.Quote e (Impl.Name col) +:+ "=?") cols).

(** The conditions written one after the other, with nothing between
    them. *)
Definition unjoined (e : Impl.engine) (cols : list Impl.Column) : string :=
  String.concat ""
    (map (fun col => Impl.Quote e (Impl.Name col) +:+ "=?") cols).

(** The conditions as the loop over a unique index writes them, each
    followed by [" AND "]. *)
Fixpoint and_trailing (e : Impl.engine) (cols : list Impl.Column) : string :=
  match cols with
  | [] => ""
  | col :: rest =>
      Impl.Quote e (Impl.Name col) +:+ "=?" +:+ " AND " +:+ and_trailing e rest
  end.

(** Keyed WHERE synthesis on a buffer: the text written and the arguments
    returned. *)
Definition impl_keyed_where (e : Impl.engine) (sql : string) (m : Impl.Model)
    (rval : StructVal) (indices : list (string * list Impl.Column))
    : string * result (list scalar) :=
  if impl_usable rval (Impl.PK m) then
    (sql +:+ " WHERE " +:+ and_joined e (Impl.PK m), Ok (impl_values rval (Impl.PK m)))
  else
    match first_usable (impl_field rval) impl_zero indices with
    | Some idx =>
        (sql +:+ " WHERE " +:+ and_joined e idx.2, Ok (impl_values rval idx.2))
    | None => (sql, Err ErrNoWhereKey)
    end.

(** The columns [insertMult] keeps, in the wording of the specification. *)
Definition impl_insert_columns (m : Impl.Model) (rval : StructVal)
    (cols : list (string * Impl.Column)) : list (string * scalar) :=
  select (impl_field rval)
    (fun _ col field =>
       included (impl_zero col) field (Impl.IsAI m col) (Impl.HasDefault col)) cols.

(** The columns [updateMult] sets; it has no allow-list. *)
Definition impl_update_columns (rval : StructVal)
    (cols : list (string * Impl.Column)) : list (string * scalar) :=
  select (impl_field rval)
    (fun name col field => updated (impl_zero col) field name []) cols.

(** The text [updateMult] writes for the columns it sets. *)
Fixpoint set_text (e : Impl.engine) (names : list string) : string :=
  match names with
  | [] => ""
  | name :: rest => Impl.Quote e name +:+ "=?," +:+ set_text e rest
  end.

(** The columns of the primary key and of the unique indices are columns
    of the model. *)
Definition keys_among_columns {C : Type} (pk : list C)
    (indices : list (string * list C)) (cols : list (string * C)) : Prop :=
  Forall (fun c => c ∈ cols.*2) pk
  /\ Forall (fun idx => Forall (fun c => c ∈ cols.*2) idx.2) indices.

(** ** The other helpers in these words *)

(** Any-field WHERE synthesis: a condition for every column whose field is
    present and differs from the zero of the column. *)
Definition nonzero_conditions (rval : StructVal)
    (cols : list (string * SqlBuilder.Column)) : list (string * scalar) :=
  omap (fun p : string * SqlBuilder.Column =>
          match sb_field rval p.2 with
          | Some field =>
              if bool_decide (field = SqlBuilder.Zero p.2) then None
              else Some (key_text (SqlBuilder.Name p.2), field)
          | None => None
          end) cols.

(** The WHERE part [w] is made of the conditions of a key of the model, the
    primary key or one of the unique indices, that can be used for the
    record; it holds a condition at least. *)
Definition on_key (m : SqlBuilder.Model) (rval : StructVal)
    (indices : list (string * list SqlBuilder.Column))
    (w : SqlBuilder.WhereStmt) : Prop :=
  exists key,
    (key = SqlBuilder.PK m \/ exists name, (name, key) ∈ indices)
    /\ sb_usable rval key = true
    /\ w = sb_conditions rval key
    /\ w <> [].

(** The text of a statement of [deleteMult]: it has a WHERE clause. *)
Definition delete_text (sql : string) : Prop :=
  exists table conds, sql = "DELETE FROM " +:+ table +:+ " WHERE " +:+ conds.

(** The names of a list joined by commas, each quoted by the dialect. *)
Definition quoted_list (e : Impl.engine) (names : list string) : string :=
  String.concat "," (Impl.Quote e <$> names).

(** One placeholder per value, joined by commas. *)
Definition placeholders (vals : list scalar) : string :=
  String.concat "," (replicate (length vals) "?").

(** The assignments [col=?] of an UPDATE, joined by commas. *)
Definition assignments (e : Impl.engine) (names : list string) : string :=
  String.concat "," ((fun name => Impl.Quote e name +:+ "=?") <$> names).

(** ** Receivers of [fetch.Object] *)

(** The receivers [Object] works on: a pointer to a record, and a slice, a
    pointer to a slice or a pointer to an array whose element type is a
    record behind any number of pointers. *)
Definition fetchable (obj : Fetch.value) : bool :=
  match obj with
  | Fetch.VPtr (Fetch.VStruct _ _) => true
  | Fetch.VPtr (Fetch.VSlice z _) => Fetch.isStruct (Fetch.itemType z)
  | Fetch.VPtr (Fetch.VArray z _) => Fetch.isStruct (Fetch.itemType z)
  | Fetch.VSlice z _ => Fetch.isStruct (Fetch.itemType z)
  | _ => false
  end.


(** The column names of the fields of a record, field by field. *)
Definition names (fs : list (Fetch.StructField * Fetch.value)) : list string :=
  (fun p => Fetch.getName p.1) <$> fs.





End Spec.


(* ===================================================================== *)
(** * Records and models used to run the helpers                          *)
(* ===================================================================== *)

Module Examples.

(** ** A table [user(id, name, age)] for [src/sqlbuilder.go]: [id] is the
    auto-increment primary key, [name] has a default, and two unique
    indices were declared, [u_name] before [u_age]. *)

Definition cId : SqlBuilder.Column := SqlBuilder.mkColumn "id" "ID" (SInt 0) false.
Definition cName : SqlBuilder.Column := SqlBuilder.mkColumn "name" "Name" (SStr "") true.
Definition cAge : SqlBuilder.Column := SqlBuilder.mkColumn "age" "Age" (SInt 0) false.

Definition userModel : SqlBuilder.Model :=
  SqlBuilder.mkModel "user"
    [("id", cId); ("name", cName); ("age", cAge)]
    [cId]
    [("u_name", [cName]); ("u_age", [cAge])]
    (Some cId).

Definition NewUser (v : StructVal) : result SqlBuilder.Model := Ok userModel.

Definition user (id : Z) (name : string) (age : Z) : StructVal :=
  mkStruct "User" [("ID", SInt id); ("Name", SStr name); ("Age", SInt age)].

(** [range] visiting the maps in insertion order, and in the reverse
    order. *)
Definition inOrder (m : SqlBuilder.Model) := SqlBuilder.Cols m.
Definition uInOrder (m : SqlBuilder.Model) := SqlBuilder.UniqueIndexes m.
Definition uReversed (m : SqlBuilder.Model) := reverse (SqlBuilder.UniqueIndexes m).

(** ** A table [pair(a, b)] whose primary key is [(a, b)]. *)

Definition cA : SqlBuilder.Column := SqlBuilder.mkColumn "a" "A" (SInt 0) false.
Definition cB : SqlBuilder.Column := SqlBuilder.mkColumn "b" "B" (SInt 0) false.

Definition pairModel : SqlBuilder.Model :=
  SqlBuilder.mkModel "pair" [("a", cA); ("b", cB)] [cA; cB] [] None.

Definition pair_ (a b : Z) : StructVal :=
  mkStruct "Pair" [("A", SInt a); ("B", SInt b)].

(** ** The same two tables for [src/impl.go], and a MySQL-like engine that
    quotes with backticks and executes everything. *)

Definition iId : Impl.Column := Impl.mkColumn "id" "ID" Impl.TInt false.
Definition iName : Impl.Column := Impl.mkColumn "name" "Name" Impl.TString true.
Definition iAge : Impl.Column := Impl.mkColumn "age" "Age" Impl.TInt false.

Definition iUserModel : Impl.Model :=
  Impl.mkModel "user"
    [("id", iId); ("name", iName); ("age", iAge)]
    [iId]
    [("u_name", [iName]); ("u_age", [iAge])]
    (Some iId).

Definition iA : Impl.Column := Impl.mkColumn "a" "A" Impl.TInt false.
Definition iB : Impl.Column := Impl.mkColumn "b" "B" Impl.TInt false.

Definition iPairModel : Impl.Model :=
  Impl.mkModel "pair" [("a", iA); ("b", iB)] [iA; iB] [] None.

Definition newUser (v : Impl.object) : result Impl.Model := Ok iUserModel.

Definition mysql : Impl.engine :=
  Impl.mkEngine (fun name => "`" +:+ name +:+ "`") "" (fun _ _ => None).

Definition iInOrder (m : Impl.Model) := Impl.Cols m.
Definition iUInOrder (m : Impl.Model) := Impl.UniqueIndexes m.
Definition iUReversed (m : Impl.Model) := reverse (Impl.UniqueIndexes m).

(** ** Records for [package fetch]

    [type Member struct { ID int `orm:"name(id)"`; Email string }], whose
    [AfterFetch], declared on [*Member], refuses the member 1:
    [if m.ID == 1 { return errors.New("refused") }; return nil]. *)

Definition fID : Fetch.StructField := Fetch.mkField "ID" "name(id)" false.
Definition fEmail : Fetch.StructField := Fetch.mkField "Email" "" false.

Definition member (id : Z) (email : string) : Fetch.value :=
  Fetch.VStruct "Member"
    [(fID, Fetch.VScalar (SInt id)); (fEmail, Fetch.VScalar (SStr email))].

Definition refuseOne (v : Fetch.value) : Fetch.value * option error :=
  match v with
  | Fetch.VStruct _ ((_, Fetch.VScalar (SInt 1)) :: _) => (v, Some (ErrHook "refused"))
  | _ => (v, None)
  end.

Definition hooks (ty : string) : option Fetch.Method :=
  if String.eqb ty "Member" then Some (Fetch.mkMethod true refuseOne) else None.

Definition noHooks (ty : string) : option Fetch.Method := None.

(** The rows of [SELECT id, Email FROM user WHERE id < n ORDER BY id]. *)
Definition memberRow (i : nat) : list (option scalar) :=
  match i with
  | 0 => [Some (SInt 0); Some (SStr "email-0")]
  | 1 => [Some (SInt 1); Some (SStr "email-1")]
  | _ => [Some (SInt 2); Some (SStr "email-2")]
  end.

Definition memberRows (n : nat) : Fetch.Rows :=
  Fetch.mkRows (Ok ["id"; "Email"]) (memberRow <$> seq 0 n).

(** [[]*Member{&Member{}, ...}] of length [n]. *)
Definition members (n : nat) : Fetch.value :=
  Fetch.VSlice (Fetch.VNil (member 0 "")) (replicate n (Fetch.VPtr (member 0 ""))).

(** [type Profile struct { ID int; Nick *string }] and [Profile{ID: id}],
    whose [Nick] is nil. *)
Definition fNick : Fetch.StructField := Fetch.mkField "Nick" "" false.
Definition fPID : Fetch.StructField := Fetch.mkField "ID" "" false.

Definition profile (id : Z) (nick : Fetch.value) : Fetch.value :=
  Fetch.VStruct "Profile" [(fPID, Fetch.VScalar (SInt id)); (fNick, nick)].

Definition nilString : Fetch.value := Fetch.VNil (Fetch.VScalar (SStr "")).

Definition noRows : Fetch.Rows := Fetch.mkRows (Ok ["ID"; "Nick"]) [].

(** ** Records for the model compiler

    [struct { ID int `orm:"name(id);ai"`; Name string `orm:"nullable"` }]
    compiles; marking the AI column nullable, in either order, does not. *)

Definition plainFields : list Schema.Field :=
  [Schema.mkField "ID" true "name(id);ai"; Schema.mkField "Name" false "nullable"].

Definition aiThenNullable : list Schema.Field :=
  [Schema.mkField "ID" true "name(id);ai;nullable"].

Definition nullableThenAI : list Schema.Field :=
  [Schema.mkField "ID" true "name(id);nullable(T);ai(1,2)"].

Definition plainModel : Schema.Model :=
  Schema.mkModel
    [Schema.mkColumn "id" "ID" true 0 0 false false "";
     Schema.mkColumn "Name" "Name" false 0 0 true false ""]
    [0] (Some 0) None [] [] [].

End Examples.


(* ===================================================================== *)
(** * Facts about src/sqlbuilder.go                                       *)
(* ===================================================================== *)

Module SqlBuilderFacts.
Import SqlBuilder Spec.

Lemma bool_decide_sym {A : Type} `{EqDecision A} (x y : A) :
  bool_decide (x = y) = bool_decide (y = x).
Proof. apply bool_decide_ext. split; congruence. Qed.

(** The filter of the source is the omission rule of the specification,
    and the inclusion rule is its negation. *)
Lemma skipped_omitted m col field :
  skipped m col field
  = Spec.omitted (Zero col) field (IsAI m col) (HasDefault col).
Proof. unfold skipped, Spec.omitted. by rewrite bool_decide_sym. Qed.

Lemma included_not_omitted zero field isAI hasDefault :
  Spec.included zero field isAI hasDefault
  = negb (Spec.omitted zero field isAI hasDefault).
Proof.
  unfold Spec.included, Spec.omitted.
  destruct (bool_decide (field = zero)), isAI, hasDefault; reflexivity.
Qed.

Lemma inStrSlice_elem_of key slice :
  inStrSlice key slice = bool_decide (key ∈ slice).
Proof.
  induction slice as [|v rest IH]; cbn [inStrSlice].
  - symmetry. apply bool_decide_eq_false. by intros ?%elem_of_nil.
  - destruct (String.eqb_spec v key) as [->|Hne].
    + symmetry. apply bool_decide_eq_true. left.
    + rewrite IH. apply bool_decide_ext. rewrite elem_of_cons.
      split; [by right | by intros [->|?]].
Qed.

Lemma zip_snoc {A B : Type} (ks : list A) (row : list B) k v :
  length row = length ks ->
  zip (ks ++ [k]) (row ++ [v]) = zip ks row ++ [(k, v)].
Proof. intros H. symmetry in H. by rewrite (zip_with_app pair ks [k] row [v] H). Qed.

Lemma KeyValue_pairs s k v :
  single_row s ->
  single_row (KeyValue s k v)
  /\ pairs (KeyValue s k v) = pairs s ++ [(k, v)]
  /\ iTable (KeyValue s k v) = iTable s.
Proof.
  unfold single_row, KeyValue, pairs.
  destruct s as [t ks args]; simpl.
  destruct args as [|row [|row' args]]; simpl; intros H; try done.
  - by subst ks.
  - split_and!; [by rewrite !length_app, H | | done].
    by apply zip_snoc.
Qed.

Lemma all_valid_cons {C : Type} (goName : C -> string) rval (p : string * C) order :
  all_valid goName rval (p :: order) ->
  is_Some (FieldByName rval (goName p.2)) /\ all_valid goName rval order.
Proof. intros H. by apply Forall_cons in H. Qed.

Lemma select_cons {C : Type} (fieldOf : C -> option scalar)
    (keep : string -> C -> scalar -> bool) name col rest field :
  fieldOf col = Some field ->
  select fieldOf keep ((name, col) :: rest)
  = if keep name col field then (name, field) :: select fieldOf keep rest
    else select fieldOf keep rest.
Proof. intros H. unfold select. simpl. rewrite H. by destruct (keep name col field). Qed.

Lemma insert_loop_spec m rval order sql :
  all_valid GoName rval order -> single_row sql ->
  exists sql', insert_loop m rval order sql = Ok sql'
    /\ single_row sql'
    /\ iTable sql' = iTable sql
    /\ pairs sql' = pairs sql ++ (braces <$> insert_columns m rval order).
Proof.
  revert sql.
  induction order as [|[name col] rest IH]; intros sql Hv Hs; cbn [insert_loop].
  - exists sql. by rewrite app_nil_r.
  - apply all_valid_cons in Hv as [[field Hf] Hv]. simpl in Hf.
    unfold insert_columns.
    rewrite (select_cons (sb_field rval) _ name col rest field Hf).
    rewrite Hf, included_not_omitted, <- skipped_omitted.
    fold (insert_columns m rval rest).
    destruct (skipped m col field); cbn [negb].
    + by apply IH.
    + destruct (KeyValue_pairs sql ("{" +:+ name +:+ "}") field Hs) as (Hs' & Hp & Ht).
      destruct (IH _ Hv Hs') as (sql' & -> & ? & ? & Hp').
      exists sql'. split_and!; [done | done | congruence |].
      rewrite Hp', Hp, <- app_assoc. done.
Qed.

(** [insert] succeeds whenever the model has a field for each column, and
    the statement holds the pairs of exactly the columns the specification
    names, in the order the columns were visited. *)
Lemma insert_spec NewModel v order m :
  NewModel v = Ok m ->
  all_valid GoName v (order m) ->
  exists stmt, insert NewModel v order = Ok stmt
    /\ iTable stmt = "{#" +:+ ModelName m +:+ "}"
    /\ pairs stmt = braces <$> insert_columns m v (order m).
Proof.
  intros Hm Hv. unfold insert, getModel. rewrite Hm.
  destruct (insert_loop_spec m v (order m) (Insert ("{#" +:+ ModelName m +:+ "}")) Hv)
    as (stmt & -> & _ & Ht & Hp); [done|].
  exists stmt. done.
Qed.

Lemma update_loop_spec rval allow order sql :
  all_valid GoName rval order ->
  update_loop rval allow order sql
  = Ok (mkUpdate (uTable sql)
          (uSets sql ++ (braces <$> update_columns rval allow order)) (uWhere sql)).
Proof.
  revert sql.
  induction order as [|[name col] rest IH]; intros sql Hv; cbn [update_loop].
  - rewrite app_nil_r. by destruct sql.
  - apply all_valid_cons in Hv as [[field Hf] Hv]. simpl in Hf.
    unfold update_columns.
    rewrite (select_cons (sb_field rval) _ name col rest field Hf).
    rewrite Hf. fold (update_columns rval allow rest).
    unfold updated. rewrite inStrSlice_elem_of, (bool_decide_sym (Zero col)).
    destruct (bool_decide (name ∈ allow)), (bool_decide (field = Zero col));
      cbn [negb andb orb]; rewrite IH by done; cbn [Set_ uTable uSets uWhere];
      by rewrite <- ?app_assoc.
Qed.

Lemma getKV_loop_spec rval cols keys vals :
  getKV_loop rval cols keys vals
  = if forallb (fun col => match sb_field rval col with
                           | Some field => negb (bool_decide (Zero col = field))
                           | None => false
                           end) cols
    then (true, keys ++ (Name <$> cols), vals ++ omap (sb_field rval) cols)
    else (false, [], []).
Proof.
  revert keys vals. induction cols as [|col rest IH]; intros keys vals; simpl.
  - by rewrite !app_nil_r.
  - unfold sb_field at 1 3. destruct (FieldByName rval (GoName col)) as [field|]; [|done].
    destruct (bool_decide (Zero col = field)); [done|]. simpl.
    rewrite IH. by rewrite <- !app_assoc.
Qed.

Lemma getKV_spec rval cols :
  getKV rval cols [] []
  = if sb_usable rval cols
    then (true, Name <$> cols, omap (sb_field rval) cols)
    else (false, [], []).
Proof.
  unfold getKV, sb_usable, usable. destruct cols as [|col rest]; [done|].
  by rewrite getKV_loop_spec.
Qed.

Lemma range_unique_spec rval order :
  range_unique rval order [] []
  = match first_usable (sb_field rval) Zero order with
    | Some idx => (Name <$> idx.2, omap (sb_field rval) idx.2)
    | None => ([], [])
    end.
Proof.
  induction order as [|[n cols] rest IH]; simpl; [done|].
  rewrite getKV_spec. fold (sb_usable rval cols).
  by destruct (sb_usable rval cols).
Qed.

(** When a key can be used, every column of it has its field, so the keys
    and the values collected have one entry per column. *)
Lemma usable_fields rval cols :
  sb_usable rval cols = true ->
  cols <> [] /\ length (omap (sb_field rval) cols) = length cols
  /\ sb_conditions rval cols
     = zip (key_text <$> (Name <$> cols)) (omap (sb_field rval) cols).
Proof.
  unfold sb_usable, usable, sb_conditions, conditions.
  intros [Hne Hall]%andb_true_iff.
  apply negb_true_iff, bool_decide_eq_false in Hne. split; [done|]. clear Hne.
  induction cols as [|col rest IH]; simpl in *; [done|].
  destruct (sb_field rval col); [|done].
  apply andb_true_iff in Hall as [_ Hall]. destruct (IH Hall) as [IH1 IH2].
  split; [simpl; f_equal; exact IH1 | f_equal; exact IH2].
Qed.

Lemma and_keys_zip w keys vals :
  and_keys w keys vals = w ++ zip (key_text <$> keys) vals.
Proof.
  revert w vals. induction keys as [|key keys IH]; intros w [|val vals]; simpl;
    rewrite ?app_nil_r; try done.
  rewrite IH. unfold And. by rewrite <- app_assoc.
Qed.

(** [where] is the keyed WHERE synthesis of the specification, run over the
    unique indices in the order the [range] visits them. *)
Lemma where_spec w m rval uorder :
  where_ w m rval uorder = keyed_where w m rval uorder.
Proof.
  unfold where_, keyed_where. rewrite getKV_spec.
  destruct (sb_usable rval (PK m)) eqn:Hpk.
  - destruct (usable_fields _ _ Hpk) as (Hne & Hlen & ->).
    rewrite bool_decide_eq_false_2, and_keys_zip; [done|].
    rewrite length_fmap. by destruct (PK m).
  - rewrite range_unique_spec. unfold first_usable.
    destruct (List.find _ uorder) as [[n cols]|] eqn:Hfind; simpl; [|done].
    apply List.find_some in Hfind as [_ Hu]. simpl in Hu.
    destruct (usable_fields _ _ Hu) as (Hne & Hlen & ->).
    rewrite bool_decide_eq_false_2, and_keys_zip; [done|].
    rewrite length_fmap. by destruct cols.
Qed.

Lemma update_spec NewModel v allow order uorder m :
  NewModel v = Ok m ->
  all_valid GoName v (order m) ->
  update NewModel v allow order uorder
  = match keyed_where [] m v (uorder m) with
    | (w, None) =>
        Ok (mkUpdate ("{#" +:+ ModelName m +:+ "}")
              (braces <$> update_columns v allow (order m)) w)
    | (_, Some e) => Err e
    end.
Proof.
  intros Hm Hv. unfold update, getModel. rewrite Hm, update_loop_spec by done.
  simpl. rewrite where_spec. by destruct (keyed_where _ _ _ _) as [w [e|]].
Qed.

(** A key made of columns whose fields are all zero cannot be used. *)
Lemma unusable_when_zero {C : Type} (fieldOf : C -> option scalar)
    (zeroOf : C -> scalar) (cols : list C) :
  (forall c, c ∈ cols -> fieldOf c = Some (zeroOf c)) ->
  usable fieldOf zeroOf cols = false.
Proof.
  unfold usable. destruct cols as [|c rest]; [done|]. intros H. simpl.
  rewrite (H c) by left. by rewrite bool_decide_eq_true_2.
Qed.

Lemma first_usable_none {C : Type} (fieldOf : C -> option scalar)
    (zeroOf : C -> scalar) (indices : list (string * list C)) :
  Forall (fun idx => forall c, c ∈ idx.2 -> fieldOf c = Some (zeroOf c)) indices ->
  first_usable fieldOf zeroOf indices = None.
Proof.
  intros H. unfold first_usable. induction H as [|idx rest Hidx _ IH]; simpl; [done|].
  by rewrite unusable_when_zero.
Qed.

(** When no column passes the filter of UPDATE, every column is zero. *)
Lemma select_nil_zero {C : Type} (fieldOf : C -> option scalar)
    (zeroOf : C -> scalar) (allow : list string) (cols : list (string * C)) :
  Forall (fun p => is_Some (fieldOf p.2)) cols ->
  select fieldOf (fun name col field => updated (zeroOf col) field name allow) cols = [] ->
  forall col, col ∈ cols.*2 -> fieldOf col = Some (zeroOf col).
Proof.
  induction cols as [|[n c] rest IH]; intros Hv Hnil col Hin.
  - by apply elem_of_nil in Hin.
  - apply Forall_cons in Hv as [[field Hf] Hv]. simpl in Hf.
    rewrite (select_cons _ _ _ _ _ field Hf) in Hnil.
    unfold updated in Hnil at 1.
    destruct (bool_decide (field = zeroOf c)) eqn:Hz; simpl in Hnil; [|done].
    apply bool_decide_eq_true in Hz. subst field.
    destruct (bool_decide (n ∈ allow)); [done|]. simpl in Hnil.
    rewrite fmap_cons in Hin. apply elem_of_cons in Hin as [->|Hin]; [done|].
    by apply IH.
Qed.

(** With no column to set, the key columns are zero and no key can be
    used. *)
Lemma no_key_when_nothing_set {C : Type} (fieldOf : C -> option scalar)
    (zeroOf : C -> scalar) allow pk indices (cols : list (string * C)) :
  Forall (fun p => is_Some (fieldOf p.2)) cols ->
  select fieldOf (fun name col field => updated (zeroOf col) field name allow) cols = [] ->
  keys_among_columns pk indices cols ->
  usable fieldOf zeroOf pk = false /\ first_usable fieldOf zeroOf indices = None.
Proof.
  intros Hv Hnil [Hpk Hidx].
  pose proof (select_nil_zero fieldOf zeroOf allow cols Hv Hnil) as Hz.
  split.
  - apply unusable_when_zero. intros c Hc. apply Hz.
    by apply (proj1 (Forall_forall _ _) Hpk).
  - apply first_usable_none. eapply Forall_impl; [exact Hidx|].
    intros idx Hi c Hc. apply Hz. by apply (proj1 (Forall_forall _ _) Hi).
Qed.

Lemma keyed_where_nothing_set w m v allow cols uindices :
  all_valid GoName v cols ->
  update_columns v allow cols = [] ->
  keys_among_columns (PK m) uindices cols ->
  keyed_where w m v uindices = (w, Some ErrNoWhereKey).
Proof.
  intros Hv Hnil Hk.
  destruct (no_key_when_nothing_set (sb_field v) Zero allow _ _ _ Hv Hnil Hk) as [H1 H2].
  unfold keyed_where, sb_usable. by rewrite H1, H2.
Qed.

(** With a usable primary key, [where] hands one condition per key column
    to [And]. *)
Lemma where_usable_pk w m rval uorder :
  sb_usable rval (PK m) = true ->
  where_ w m rval uorder = (w ++ sb_conditions rval (PK m), None).
Proof. intros H. rewrite where_spec. unfold keyed_where. by rewrite H. Qed.

(** In a batch INSERT the tuple of a record after the first is shorter than
    the column list by the number of columns the filter drops for it. *)
Lemma next_loop_length m irval keys vals vals' :
  next_loop m irval keys vals = Ok vals' ->
  length vals' + length (dropped_keys m irval keys) = length vals + length keys.
Proof.
  revert vals. induction keys as [|name rest IH]; intros vals; cbn [next_loop].
  - intros [= <-]. simpl. lia.
  - unfold dropped_keys. cbn [List.filter]. fold (dropped_keys m irval rest).
    destruct (map_get (Cols m) name) as [col|]; [|done].
    unfold sb_field. destruct (FieldByName irval (GoName col)) as [field|]; [|done].
    destruct (skipped m col field); intros H%IH; simpl in *.
    + lia.
    + rewrite length_app in H. simpl in H. lia.
Qed.

(** ** [whereAny], [count], [find], [forUpdate], [del] *)

Lemma whereAny_loop_spec rval order keys vals :
  exists ks vs,
    whereAny_loop rval order keys vals = (keys ++ ks, vals ++ vs)
    /\ length ks = length vs
    /\ zip (key_text <$> ks) vs = nonzero_conditions rval order.
Proof.
  unfold nonzero_conditions, sb_field. revert keys vals.
  induction order as [|[name col] rest IH]; intros keys vals;
    cbn [whereAny_loop omap list_omap snd].
  - exists [], []. by rewrite !app_nil_r.
  - destruct (FieldByName rval (GoName col)) as [field|]; [|apply IH].
    rewrite (bool_decide_sym (Zero col)).
    destruct (bool_decide (field = Zero col)); [apply IH|].
    destruct (IH (keys ++ [Name col]) (vals ++ [field])) as (ks & vs & -> & Hl & Hz).
    exists (Name col :: ks), (field :: vs). rewrite <- !app_assoc.
    split_and!; [done | simpl; by f_equal | rewrite fmap_cons; simpl; by f_equal].
Qed.

Lemma whereAny_spec w m rval order :
  whereAny w m rval order
  = if bool_decide (nonzero_conditions rval order = [])
    then (w, Some ErrNoWhereKey)
    else (w ++ nonzero_conditions rval order, None).
Proof.
  unfold whereAny.
  destruct (whereAny_loop_spec rval order [] []) as (ks & vs & -> & Hl & Hz).
  cbn [app]. rewrite <- Hz, and_keys_zip.
  destruct ks as [|k ks], vs as [|x vs]; try done.
Qed.

(** The WHERE part [where] builds on success is on a key. *)
Lemma where_on_key w m rval uorder :
  (where_ [] m rval uorder).2 = None ->
  (where_ [] m rval uorder).1 = w ->
  on_key m rval uorder w.
Proof.
  rewrite where_spec. unfold keyed_where.
  destruct (sb_usable rval (PK m)) eqn:Hpk; cbn [fst snd app].
  - intros _ <-. exists (PK m). split_and!; [by left | done | done |].
    destruct (usable_fields _ _ Hpk) as (Hne & Hlen & ->).
    destruct (PK m) as [|c cs]; [done|].
    destruct (omap (sb_field rval) (c :: cs)); [done|]. by rewrite !fmap_cons.
  - unfold first_usable.
    destruct (List.find _ uorder) as [[n key]|] eqn:Hfind; cbn [fst snd app]; [|done].
    intros _ <-. apply List.find_some in Hfind as [Hin Hu]. simpl in Hu.
    exists key. split_and!; [right; exists n; by apply list_elem_of_In | done | done |].
    destruct (usable_fields _ _ Hu) as (Hne & Hlen & ->).
    destruct key as [|c cs]; [done|].
    destruct (omap (sb_field rval) (c :: cs)); [done|]. by rewrite !fmap_cons.
Qed.

(** A loop of [update] that succeeds has found a field for every column. *)
Lemma update_loop_valid rval allow order sql sql' :
  update_loop rval allow order sql = Ok sql' -> all_valid GoName rval order.
Proof.
  revert sql. induction order as [|[name col] rest IH]; intros sql; cbn [update_loop].
  - intros _. constructor.
  - destruct (FieldByName rval (GoName col)) as [field|] eqn:Hf; [|done].
    intros H. constructor; [by eexists|].
    destruct (negb _ && _); by eapply IH.
Qed.

(** The helpers that synthesise a keyed WHERE part fail or hand back a WHERE
    part made on a key. *)
Lemma keyed_where_on_key m rval uorder w :
  keyed_where [] m rval uorder = (w, None) -> on_key m rval uorder w.
Proof.
  rewrite <- where_spec. intros H. apply where_on_key; by rewrite H.
Qed.

(** ** [buildInsertManySQL] *)

(** The loop over the first element builds the statement [insert] builds,
    and keeps the names of its columns. *)
Lemma first_loop_insert_loop m irval order sql keys :
  first_loop m irval order sql keys
  = match insert_loop m irval order sql with
    | Ok sql' => Ok (sql', keys ++ (insert_columns m irval order).*1)
    | Err e => Err e
    end.
Proof.
  revert sql keys.
  induction order as [|[name col] rest IH]; intros sql keys;
    cbn [first_loop insert_loop].
  - by rewrite app_nil_r.
  - destruct (FieldByName irval (GoName col)) as [field|] eqn:Hf; [|done].
    unfold insert_columns.
    rewrite (select_cons (sb_field irval) _ name col rest field Hf).
    rewrite included_not_omitted, <- skipped_omitted.
    fold (insert_columns m irval rest).
    destruct (skipped m col field); cbn [negb]; rewrite IH; [done|].
    destruct (insert_loop _ _ _ _); [|done].
    by rewrite fmap_cons, <- app_assoc.
Qed.

(** A loop that succeeds has found a field for every column. *)
Lemma insert_loop_valid m rval order sql sql' :
  insert_loop m rval order sql = Ok sql' -> all_valid GoName rval order.
Proof.
  revert sql. induction order as [|[name col] rest IH]; intros sql; cbn [insert_loop].
  - intros _. constructor.
  - destruct (FieldByName rval (GoName col)) as [field|] eqn:Hf; [|done].
    intros H. constructor; [by eexists|].
    destruct (skipped m col field); by eapply IH.
Qed.

(** The columns of a statement on which only [KeyValue] was called are the
    first components of its pairs. *)
Lemma single_row_cols sql : single_row sql -> iCols sql = (pairs sql).*1.
Proof.
  unfold single_row, pairs. destruct (iArgs sql) as [|row [|]]; cbn [head default].
  - by intros ->.
  - intros H. symmetry. apply fst_zip. unfold id. lia.
  - done.
Qed.

(** The elements after the first: each has the type of the first and adds
    one tuple, shorter than [keys] by the columns dropped for it; the table
    and the columns of the statement stay. *)
Lemma many_loop_later NewModel order elems i sql keys firstType stmt :
  i <> 0 ->
  many_loop NewModel order elems i sql keys firstType = Ok stmt ->
  Forall (fun r => TypeName r = firstType) elems
  /\ iTable stmt = iTable sql
  /\ iCols stmt = iCols sql
  /\ exists rows,
       iArgs stmt = iArgs sql ++ rows
       /\ Forall2 (fun r row =>
                     exists m, NewModel r = Ok m
                       /\ length row + length (dropped_keys m r keys) = length keys)
            elems rows.
Proof.
  revert i sql. induction elems as [|r rest IH]; intros i sql Hi; cbn [many_loop].
  - intros [= <-]. split_and!; [done..|]. exists []. by rewrite app_nil_r.
  - unfold getModel. destruct (NewModel r) as [m|e] eqn:Hm; [|done].
    rewrite bool_decide_eq_false_2 by done.
    destruct (String.eqb_spec firstType (TypeName r)) as [Ht|Ht]; cbn [negb]; [|done].
    destruct (next_loop m r keys []) as [vals|e] eqn:Hn; [|done].
    intros H. apply IH in H as (Hty & Htab & Hcols & rows & Hargs & Hrows); [|done].
    split_and!; [by constructor | done | done |].
    exists (vals :: rows). cbn [Values iArgs] in Hargs.
    rewrite Hargs, <- app_assoc. split; [done|].
    constructor; [|done]. exists m. split; [done|].
    apply next_loop_length in Hn. simpl in Hn. lia.
Qed.

(** What [buildInsertManySQL] builds from a first record and the records
    after it. *)
Lemma buildInsertManySQL_cons NewModel order first rest m stmt :
  NewModel first = Ok m ->
  buildInsertManySQL NewModel (first :: rest) order = Ok stmt ->
  exists sql,
    insert NewModel first order = Ok sql
    /\ single_row sql
    /\ iTable stmt = "{#" +:+ ModelName m +:+ "}"
    /\ iCols stmt = (braces <$> insert_columns m first (order m)).*1
    /\ iCols sql = iCols stmt
    /\ Forall (fun r => TypeName r = TypeName first) rest
    /\ exists rows,
         iArgs stmt = iArgs sql ++ rows
         /\ Forall2 (fun r row =>
                       exists m', NewModel r = Ok m'
                         /\ length row
                            + length (dropped_keys m' r (insert_columns m first (order m)).*1)
                            = length (insert_columns m first (order m)).*1)
              rest rows.
Proof.
  intros Hm. unfold buildInsertManySQL, insert. cbn [many_loop].
  unfold getModel. rewrite Hm. rewrite bool_decide_eq_true_2 by done.
  rewrite first_loop_insert_loop. cbn [app].
  change (Table (Insert "") ("{#" +:+ ModelName m +:+ "}"))
    with (Insert ("{#" +:+ ModelName m +:+ "}")).
  destruct (insert_loop m first (order m) (Insert _)) as [sql|e] eqn:Hl; [|done].
  intros H. apply many_loop_later in H as (Hty & Htab & Hcols & rows & Hargs & Hrows);
    [|done].
  destruct (insert_loop_spec m first (order m) (Insert ("{#" +:+ ModelName m +:+ "}")))
    as (sql0 & Hl0 & Hs & Ht & Hp); [by eapply insert_loop_valid | done |].
  rewrite Hl in Hl0. injection Hl0 as <-.
  exists sql. split_and!; [done | done | | | done | done | by exists rows].
  - by rewrite Htab, Ht.
  - by rewrite Hcols, (single_row_cols _ Hs), Hp.
Qed.

End SqlBuilderFacts.


(* ===================================================================== *)
(** * Facts about src/impl.go                                             *)
(* ===================================================================== *)

Module ImplFacts.
Import Impl Spec.

(** ** Text in a [bytes.Buffer] *)

Lemma append_cons (x : ascii) (a b : string) :
  String x a +:+ b = String x (a +:+ b).
Proof. reflexivity. Qed.

Lemma append_nil_l (a : string) : "" +:+ a = a.
Proof. reflexivity. Qed.

Lemma append_assoc (a b c : string) : (a +:+ b) +:+ c = a +:+ (b +:+ c).
Proof. induction a as [|x a IH]; [done | by rewrite !append_cons, IH]. Qed.

Lemma append_nil_r (a : string) : a +:+ "" = a.
Proof. induction a as [|x a IH]; [done | by rewrite append_cons, IH]. Qed.

Lemma length_append (a b : string) :
  String.length (a +:+ b) = String.length a + String.length b.
Proof. induction a as [|x a IH]; [done | rewrite append_cons; cbn; by f_equal]. Qed.

Lemma substring_prefix (a b : string) :
  String.substring 0 (String.length a) (a +:+ b) = a.
Proof.
  induction a as [|x a IH].
  - by destruct b.
  - rewrite append_cons. cbn. by f_equal.
Qed.

(** Dropping the last bytes of a buffer that ends with [b]. *)
Lemma Truncate_suffix (a b : string) :
  Truncate (String.length (a +:+ b) - String.length b) (a +:+ b) = a.
Proof.
  unfold Truncate. rewrite length_append.
  replace (String.length a + String.length b - String.length b)
    with (String.length a) by lia.
  apply substring_prefix.
Qed.

(** ** [checkCols] and [where] *)

Lemma checkCols_usable cols rval : checkCols cols rval = impl_usable rval cols.
Proof.
  unfold checkCols, impl_usable, usable. destruct cols as [|c rest]; [done|].
  change (negb (bool_decide (c :: rest = [])) ) with true. rewrite andb_true_l.
  generalize (c :: rest). intros cols.
  induction cols as [|col cols IH]; simpl; [done|].
  unfold impl_field at 1, impl_zero at 1.
  destruct (FieldByName rval (GoName col)) as [field|]; [|done].
  by destruct (bool_decide (reflect_Zero (GoType col) = field)).
Qed.

Lemma where_index_spec e cols rval sql ret :
  where_index e cols rval sql ret
  = (sql +:+ and_trailing e cols, ret ++ impl_values rval cols).
Proof.
  revert sql ret. induction cols as [|col rest IH]; intros sql ret; simpl.
  - by rewrite append_nil_r, app_nil_r.
  - rewrite IH. unfold impl_values. simpl. unfold impl_field at 2.
    rewrite !append_assoc.
    destruct (FieldByName rval (GoName col)); simpl; [|done].
    by rewrite <- app_assoc.
Qed.

(** The loop over the primary key writes the conditions with nothing
    between them. *)
Lemma where_pk_spec e cols rval sql ret :
  where_pk e cols rval sql ret
  = (sql +:+ unjoined e cols, ret ++ impl_values rval cols).
Proof.
  unfold unjoined.
  revert sql ret. induction cols as [|col rest IH]; intros sql ret; cbn [where_pk].
  - by rewrite append_nil_r, app_nil_r.
  - rewrite IH. unfold impl_values. cbn [omap list_omap]. unfold impl_field at 2.
    assert (Hc : String.concat ""
                   (map (fun col => Quote e (Name col) +:+ "=?") (col :: rest))
                 = (Quote e (Name col) +:+ "=?")
                   +:+ String.concat ""
                         (map (fun col => Quote e (Name col) +:+ "=?") rest)).
    { destruct rest; cbn [map String.concat];
        [by rewrite append_nil_r | by rewrite append_nil_l]. }
    rewrite Hc, !append_assoc.
    destruct (FieldByName rval (GoName col)); [|done].
    by rewrite <- app_assoc.
Qed.

(** With a usable primary key, [where] writes its conditions unjoined. *)
Lemma where_usable_pk_unjoined e sql m rval uorder :
  impl_usable rval (PK m) = true ->
  where_ e sql m rval uorder
  = (sql +:+ " WHERE " +:+ unjoined e (PK m), Ok (impl_values rval (PK m))).
Proof.
  intros H. unfold where_. rewrite checkCols_usable, H, where_pk_spec.
  by rewrite append_assoc.
Qed.

Lemma and_trailing_joined e cols :
  cols <> [] -> and_trailing e cols = and_joined e cols +:+ " AND ".
Proof.
  unfold and_joined. induction cols as [|col rest IH]; [done|]. intros _.
  change (and_trailing e (col :: rest))
    with (Quote e (Name col) +:+ "=?" +:+ " AND " +:+ and_trailing e rest).
  destruct rest as [|col' rest].
  - cbn [and_trailing map String.concat].
    by rewrite append_nil_r, append_assoc.
  - rewrite IH by done. cbn [map String.concat]. by rewrite !append_assoc.
Qed.

Lemma usable_nonempty {C : Type} (fieldOf : C -> option scalar) zeroOf (cols : list C) :
  usable fieldOf zeroOf cols = true -> cols <> [].
Proof. unfold usable. by destruct cols. Qed.

(** The loop over the unique indices takes the first index that can be
    used, in the order the [range] visits them, and writes its conditions
    joined by AND; with no such index the buffer is left as it was. *)
Lemma where_unique_spec e order rval sql :
  where_unique e order rval sql []
  = match first_usable (impl_field rval) impl_zero order with
    | Some idx =>
        (sql +:+ " WHERE " +:+ and_joined e idx.2, Ok (impl_values rval idx.2))
    | None => (sql, Err ErrNoWhereKey)
    end.
Proof.
  unfold first_usable.
  induction order as [|[n cols] rest IH]; cbn [where_unique List.find]; [done|].
  rewrite checkCols_usable. cbn [snd]. fold (impl_usable rval cols).
  destruct (impl_usable rval cols) eqn:Hu; cbn [negb]; [|apply IH].
  rewrite where_index_spec. cbn [app snd].
  rewrite and_trailing_joined by (by eapply usable_nonempty).
  rewrite <- !append_assoc.
  by rewrite (Truncate_suffix _ " AND ").
Qed.

Lemma where_unusable_pk e sql m rval uorder :
  impl_usable rval (PK m) = false ->
  where_ e sql m rval uorder = impl_keyed_where e sql m rval uorder.
Proof.
  intros Hpk. unfold where_, impl_keyed_where.
  rewrite checkCols_usable, Hpk. apply where_unique_spec.
Qed.

(** ** [insertMult] and [updateMult] *)

Lemma impl_skipped_omitted m col field :
  skipped m col field
  = omitted (impl_zero col) field (IsAI m col) (HasDefault col).
Proof.
  unfold skipped, omitted, impl_zero.
  by rewrite SqlBuilderFacts.bool_decide_sym.
Qed.

Lemma insert_cols_spec m rval order keys vals :
  all_valid GoName rval order ->
  insert_cols m rval order keys vals
  = Ok (keys ++ (impl_insert_columns m rval order).*1,
        vals ++ (impl_insert_columns m rval order).*2).
Proof.
  revert keys vals.
  induction order as [|[name col] rest IH]; intros keys vals Hv; cbn [insert_cols].
  - by rewrite !app_nil_r.
  - apply SqlBuilderFacts.all_valid_cons in Hv as [[field Hf] Hv]. simpl in Hf.
    unfold impl_insert_columns.
    rewrite (SqlBuilderFacts.select_cons (impl_field rval) _ name col rest field Hf).
    rewrite Hf, SqlBuilderFacts.included_not_omitted, <- impl_skipped_omitted.
    fold (impl_insert_columns m rval rest).
    destruct (skipped m col field); cbn [negb]; rewrite IH by done; [done|].
    by rewrite !fmap_cons, <- !app_assoc.
Qed.

Lemma updated_no_allow zero field name :
  updated zero field name [] = negb (bool_decide (zero = field)).
Proof.
  unfold updated. rewrite (SqlBuilderFacts.bool_decide_sym field).
  rewrite (bool_decide_eq_false_2 (name ∈ [])) by (by intros ?%elem_of_nil).
  apply orb_false_r.
Qed.

Lemma update_cols_spec e rval order sql vals :
  all_valid GoName rval order ->
  update_cols e rval order sql vals
  = Ok (sql +:+ set_text e (impl_update_columns rval order).*1,
        vals ++ (impl_update_columns rval order).*2).
Proof.
  revert sql vals.
  induction order as [|[name col] rest IH]; intros sql vals Hv; cbn [update_cols].
  - by rewrite append_nil_r, app_nil_r.
  - apply SqlBuilderFacts.all_valid_cons in Hv as [[field Hf] Hv]. simpl in Hf.
    unfold impl_update_columns.
    rewrite (SqlBuilderFacts.select_cons (impl_field rval) _ name col rest field Hf).
    rewrite Hf, updated_no_allow.
    fold (impl_update_columns rval rest). unfold impl_zero.
    destruct (bool_decide (reflect_Zero (GoType col) = field)); cbn [negb];
      rewrite IH by done; [reflexivity|].
    rewrite !fmap_cons. cbn [set_text fst snd].
    by rewrite !append_assoc, <- app_assoc.
Qed.

(** What [insertMult] does with the first record: nothing to insert is the
    no-columns error; otherwise one statement is executed, made of the
    columns the specification names. *)
Lemma insertMult_head newModel e order v rest log m :
  newModel (ORecord v) = Ok m ->
  all_valid GoName v (order m) ->
  insertMult newModel e order (ORecord v :: rest) log
  = let kv := impl_insert_columns m v (order m) in
    let sql := insert_sql e m kv.*1 kv.*2 in
    if bool_decide (kv = []) then (log, Some ErrNoColumns)
    else match Exec e sql kv.*2 with
         | Some err => (log ++ [(sql, kv.*2)], Some err)
         | None => insertMult newModel e order rest (log ++ [(sql, kv.*2)])
         end.
Proof.
  intros Hm Hv. cbn [insertMult]. rewrite Hm, insert_cols_spec by done.
  cbn [app]. destruct (impl_insert_columns m v (order m)) as [|p kv]; done.
Qed.

(** What [updateMult] does with the first record. *)
Lemma updateMult_head newModel e order uorder v rest log m :
  newModel (ORecord v) = Ok m ->
  all_valid GoName v (order m) ->
  updateMult newModel e order uorder (ORecord v :: rest) log
  = let kv := impl_update_columns v (order m) in
    let sql := ("UPDATE " +:+ Quote e (Prefix e +:+ ModelName m)) +:+ " SET " in
    let sql := sql +:+ set_text e kv.*1 in
    let sql := Truncate (String.length sql - 1) sql in
    match where_ e sql m v (uorder m) with
    | (_, Err err) => (log, Some err)
    | (sql, Ok whereVals) =>
        match Exec e sql (kv.*2 ++ whereVals) with
        | Some err => (log ++ [(sql, kv.*2 ++ whereVals)], Some err)
        | None =>
            updateMult newModel e order uorder rest
              (log ++ [(sql, kv.*2 ++ whereVals)])
        end
    end.
Proof.
  intros Hm Hv. cbn [updateMult]. rewrite Hm, update_cols_spec by done.
  done.
Qed.

(** With no column to set, [updateMult] stops at the WHERE synthesis and
    executes nothing. *)
Lemma updateMult_nothing_set newModel e order uorder v rest log m :
  newModel (ORecord v) = Ok m ->
  all_valid GoName v (order m) ->
  impl_update_columns v (order m) = [] ->
  keys_among_columns (PK m) (uorder m) (order m) ->
  updateMult newModel e order uorder (ORecord v :: rest) log
  = (log, Some ErrNoWhereKey).
Proof.
  intros Hm Hv Hnil Hk.
  rewrite (updateMult_head _ _ _ _ _ _ _ m) by done. cbv zeta.
  destruct (SqlBuilderFacts.no_key_when_nothing_set
              (impl_field v) impl_zero [] _ _ _ Hv Hnil Hk) as [H1 H2].
  rewrite where_unusable_pk by exact H1.
  unfold impl_keyed_where, impl_usable. by rewrite H1, H2.
Qed.

(** ** The text of the statements *)

Lemma write_keys_spec e keys sql :
  keys <> [] -> write_keys e keys sql = sql +:+ quoted_list e keys +:+ ",".
Proof.
  unfold quoted_list. revert sql.
  induction keys as [|k rest IH]; [done|]. intros sql _. cbn [write_keys].
  destruct rest as [|k' rest].
  - cbn [write_keys fmap list_fmap String.concat]. by rewrite ?append_assoc.
  - rewrite IH by done. rewrite !fmap_cons. cbn [String.concat].
    by rewrite ?append_assoc.
Qed.

Lemma write_marks_spec vals sql :
  vals <> [] -> write_marks vals sql = sql +:+ placeholders vals +:+ ",".
Proof.
  unfold placeholders. revert sql.
  induction vals as [|v rest IH]; [done|]. intros sql _. cbn [write_marks].
  change "?," with ("?" +:+ ",").
  destruct rest as [|v' rest].
  - cbn [write_marks length replicate String.concat]. by rewrite ?append_assoc.
  - rewrite IH by done. cbn [length replicate String.concat].
    by rewrite ?append_assoc.
Qed.

(** The text of an INSERT: the quoted columns and one placeholder per value,
    both joined by commas. *)
Lemma insert_sql_spec e m keys vals :
  keys <> [] -> vals <> [] ->
  insert_sql e m keys vals
  = "INSERT INTO " +:+ Quote e (Prefix e +:+ ModelName m)
    +:+ "(" +:+ quoted_list e keys +:+ ")VALUES(" +:+ placeholders vals +:+ ")".
Proof.
  intros Hk Hv. unfold insert_sql. cbv zeta.
  rewrite append_nil_l, write_keys_spec by done.
  rewrite <- !append_assoc, (Truncate_suffix _ ",").
  rewrite write_marks_spec by done.
  rewrite <- !append_assoc, (Truncate_suffix _ ",").
  by rewrite !append_assoc.
Qed.

Lemma set_text_spec e names :
  names <> [] -> set_text e names = assignments e names +:+ ",".
Proof.
  unfold assignments. induction names as [|n rest IH]; [done|]. intros _.
  cbn [set_text]. change "=?," with ("=?" +:+ ",").
  destruct rest as [|n' rest].
  - cbn [set_text fmap list_fmap String.concat].
    by rewrite ?append_nil_r, ?append_assoc.
  - rewrite IH by done. rewrite !fmap_cons. cbn [String.concat].
    by rewrite ?append_assoc.
Qed.

(** ** [where] on a key of one column, and what it returns on success *)

Lemma where_single_pk e sql m rval uorder :
  length (PK m) <= 1 ->
  where_ e sql m rval uorder = impl_keyed_where e sql m rval uorder.
Proof.
  intros Hlen. destruct (impl_usable rval (PK m)) eqn:Hu.
  - rewrite where_usable_pk_unjoined by done.
    unfold impl_keyed_where. rewrite Hu.
    destruct (PK m) as [|c [|c' cs]]; [done | done | simpl in Hlen; lia].
  - by apply where_unusable_pk.
Qed.

Lemma usable_values rval cols :
  impl_usable rval cols = true -> impl_values rval cols <> [].
Proof.
  unfold impl_usable, usable, impl_values. destruct cols as [|c cs]; [done|].
  cbn [forallb omap list_omap]. destruct (impl_field rval c); [done|].
  by rewrite andb_false_r.
Qed.

(** On success [where] has written a WHERE clause after what the buffer
    held, and returns an argument at least. *)
Lemma where_ok e sql m rval uorder sql' vals :
  where_ e sql m rval uorder = (sql', Ok vals) ->
  (exists conds, sql' = sql +:+ " WHERE " +:+ conds) /\ vals <> [].
Proof.
  destruct (impl_usable rval (PK m)) eqn:Hu.
  - rewrite where_usable_pk_unjoined by done. intros [= <- <-].
    split; [by eexists | by apply usable_values].
  - rewrite where_unusable_pk by done. unfold impl_keyed_where, first_usable.
    rewrite Hu.
    destruct (List.find _ uorder) as [[n key]|] eqn:Hfind; [|done].
    intros [= <- <-]. apply List.find_some in Hfind as [_ Hk].
    split; [by eexists | by apply usable_values].
Qed.

(** ** One statement per record *)



(** [checkCols] in terms of the columns. *)
Lemma checkCols_loop_Forall cols rval :
  checkCols_loop cols rval = true
  <-> Forall (fun col => exists field,
                FieldByName rval (GoName col) = Some field
                /\ field <> reflect_Zero (GoType col)) cols.
Proof.
  induction cols as [|col rest IH]; cbn [checkCols_loop].
  - split; [constructor | done].
  - rewrite Forall_cons, <- IH.
    destruct (FieldByName rval (GoName col)) as [field|].
    + destruct (bool_decide (reflect_Zero (GoType col) = field)) eqn:Hz.
      * apply bool_decide_eq_true in Hz. split; [done|].
        intros [(f & [= <-] & Hne) _]. by destruct Hne.
      * apply bool_decide_eq_false in Hz. split.
        -- intros H. split; [|done]. exists field. split; [done|]. by intros ->.
        -- by intros [_ H].
    + split; [done|]. by intros [(f & [=] & _) _].
Qed.

(** ** [deleteMult] *)

Lemma deleteMult_log newModel e uorder objs log log' err :
  deleteMult newModel e uorder objs log = (log', err) ->
  exists added,
    log' = log ++ added
    /\ length added <= length objs
    /\ (err = None -> length added = length objs)
    /\ Forall (fun st => delete_text st.1 /\ st.2 <> []) added.
Proof.
  revert log. induction objs as [|v rest IH]; intros log; cbn [deleteMult].
  - intros [= <- <-]. exists []. by rewrite app_nil_r.
  - assert (Hstop : forall e0, (log, Some e0) = (log', err) ->
      exists added, log' = log ++ added /\ length added <= length (v :: rest)
        /\ (err = None -> length added = length (v :: rest))
        /\ Forall (fun st => delete_text st.1 /\ st.2 <> []) added).
    { intros e0 [= <- <-]. exists []. rewrite app_nil_r.
      split_and!; [done | simpl; lia | done | constructor]. }
    destruct (newModel v) as [m|e0]; [|apply Hstop].
    destruct v as [rval|]; [|apply Hstop].
    destruct (where_ e _ m rval (uorder m)) as [sql' [vals|e0]] eqn:Hw; [|apply Hstop].
    apply where_ok in Hw as [[conds ->] Hvals].
    assert (Hst : delete_text
              ((("" +:+ "DELETE FROM ") +:+ Quote e (Prefix e +:+ ModelName m))
               +:+ " WHERE " +:+ conds)).
    { exists (Quote e (Prefix e +:+ ModelName m)), conds.
      by rewrite append_nil_l, append_assoc. }
    destruct (Exec e _ vals) as [e0|].
    + intros [= <- <-]. eexists [_]. split_and!; [done | simpl; lia | done |].
      by repeat constructor.
    + intros H. apply IH in H as (added & -> & Hle & Hall & Hf).
      eexists (_ :: added). rewrite <- app_assoc. split_and!; [done | simpl; lia | |].
      * intros Herr. simpl. by rewrite Hall.
      * by repeat constructor.
Qed.

End ImplFacts.


(* ===================================================================== *)
(** * Facts about package fetch                                           *)
(* ===================================================================== *)

Module FetchFacts.
Import Fetch.

(** ** [parseObject] *)

Lemma parseObject_VStruct ty fs here ret :
  parseObject (VStruct ty fs) here ret
  = let '(fs', ret', err) := parse_fields parseObject here fs 0 ret in
    (VStruct ty fs', ret', err).
Proof. reflexivity. Qed.







(** ** Flat records *)









Lemma Append_New_None z items items' :
  Append_New z items = None -> Append_New z items' = None.
Proof. by destruct z as [|[]| | | |]. Qed.

Lemma Append_New_Some z items items1 :
  Append_New z items = Some items1 -> exists x, items1 = items ++ [x].
Proof. destruct z as [|[]| | | |]; try done. intros [= <-]. by eexists. Qed.

(** [getColumns] and [Scan] keep a record a record of its type. *)
Lemma getColumns_struct ty fs cols :
  exists fs', (getColumns (VStruct ty fs) cols).1 = VStruct ty fs'.
Proof.
  unfold getColumns. rewrite parseObject_VStruct.
  destruct (parse_fields _ _ _ _ _) as [[fs' ret'] [e|]]; by eexists.
Qed.

Lemma scan_loop_struct row buff ty fs :
  exists fs', (scan_loop row buff (VStruct ty fs)).1 = VStruct ty fs'.
Proof.
  revert buff fs. induction row as [|src row IH]; intros [|[p|] buff] fs;
    try by eexists.
  - cbn [scan_loop].
    destruct (update_at (VStruct ty fs) p (convertAssign src)) as [v'|e] eqn:Hu;
      [|by eexists].
    assert (exists fs', v' = VStruct ty fs') as [fs' ->]; [|apply IH].
    destruct p as [|[|i] p']; cbn [update_at] in Hu.
    + by destruct src as [[]|].
    + done.
    + destruct (fs !! i) as [[f vf]|]; [|done].
      destruct (update_at vf p' _); [|done]. injection Hu as <-. by eexists.
  - cbn [scan_loop]. apply IH.
Qed.

Lemma Scan_struct row buff ty fs :
  exists fs', (Scan row buff (VStruct ty fs)).1 = VStruct ty fs'.
Proof.
  unfold Scan. destruct (bool_decide _); [apply scan_loop_struct | by eexists].
Qed.

Section WithHooks.

Variable methods : string -> option Method.

(** The loop of [fetchObjToFixedSlice] ends with the length of the receiver
    when no error occurred, and with 0 otherwise; the receiver keeps its
    length. *)
Lemma fixed_loop_end cols l i items rows :
  match fixed_loop methods cols l i items rows with
  | Ended None count items' _ => count = l /\ length items' = length items
  | Ended (Some _) count items' _ => count = 0 /\ length items' = length items
  | Panicked => True
  end.
Proof.
  revert i items. induction rows as [|row rest IH]; intros i items; simpl.
  - by destruct (bool_decide (i < l)).
  - destruct (bool_decide (i < l)); [|done].
    destruct (items !! i) as [item|]; [|done].
    destruct (getColumns item cols) as [item1 [buff|e]];
      [|by rewrite length_insert].
    destruct (Scan row buff item1) as [item2 [e|]]; [by rewrite length_insert|].
    destruct (afterFetch methods item2) as [item3 [e|]]; [by rewrite length_insert|].
    specialize (IH (S i) (<[i:=item3]> items)).
    destruct (fixed_loop _ _ _ _ _ _) as [[e|] c items' unread|]; [| |done];
      by rewrite length_insert in IH.
Qed.

(** Without an error the loop reads one row per element from position [i]
    on, as long as there are rows: the rows beyond the length of the
    receiver stay unread. *)
Lemma fixed_loop_unread cols l i items rows count items' unread :
  fixed_loop methods cols l i items rows = Ended None count items' unread ->
  unread = drop (l - i) rows.
Proof.
  revert i items. induction rows as [|row rest IH]; intros i items; simpl.
  - destruct (bool_decide (i < l)); intros [= <- <- <-]; by rewrite drop_nil.
  - destruct (bool_decide (i < l)) eqn:Hlt.
    + apply bool_decide_eq_true in Hlt.
      destruct (items !! i) as [item|]; [|done].
      destruct (getColumns item cols) as [item1 [buff|e]]; [|done].
      destruct (Scan row buff item1) as [item2 [e|]]; [done|].
      destruct (afterFetch methods item2) as [item3 [e|]]; [done|].
      intros H. apply IH in H. rewrite H.
      replace (l - i) with (S (l - S i)) by lia. done.
    + apply bool_decide_eq_false in Hlt. intros [= <- <- <-].
      replace (l - i) with 0 by lia. done.
Qed.

(** The loop of [fetchObjToSlice] ends with 0 when an error occurred. *)
Lemma slice_loop_end cols z l i count items rows :
  match slice_loop methods cols z l i count items rows with
  | Ended (Some _) count' _ _ => count' = 0
  | _ => True
  end.
Proof.
  revert i count items. induction rows as [|row rest IH]; intros i count items; simpl.
  - done.
  - destruct (if bool_decide (l <= i) then Append_New z items else Some items)
      as [items1|]; [|done].
    destruct (items1 !! i) as [item|]; [|done].
    destruct (getColumns item cols) as [item1 [buff|e]]; [|done].
    destruct (Scan row buff item1) as [item2 [e|]]; [done|].
    destruct (afterFetch methods item2) as [item3 [e|]]; [done|].
    apply IH.
Qed.

(** Without an error the loop of [fetchObjToSlice] counts the rows. *)
Lemma slice_loop_count cols z l i count items rows count' items' unread :
  slice_loop methods cols z l i count items rows = Ended None count' items' unread ->
  count' = count + length rows /\ unread = [].
Proof.
  revert i count items. induction rows as [|row rest IH]; intros i count items; simpl.
  - intros [= <- <- <-]. split; [lia | done].
  - destruct (if bool_decide (l <= i) then Append_New z items else Some items)
      as [items1|]; [|done].
    destruct (items1 !! i) as [item|]; [|done].
    destruct (getColumns item cols) as [item1 [buff|e]]; [|done].
    destruct (Scan row buff item1) as [item2 [e|]]; [done|].
    destruct (afterFetch methods item2) as [item3 [e|]]; [done|].
    intros H. apply IH in H as [-> ->]. split; [lia | done].
Qed.

(** Whatever the receiver, an error comes with the count 0. *)
Lemma fetchOnceObj_error val rows count e obj rows' :
  fetchOnceObj methods val rows = Return count (Some e) obj rows' -> count = 0.
Proof.
  unfold fetchOnceObj. destruct (Columns rows) as [cols|e0]; [|by intros [= <- _ _ _]].
  destruct (getColumns val cols) as [val1 [buff|e1]]; [|by intros [= <- _ _ _]].
  destruct (pending rows) as [|row rest]; [done|].
  destruct (Scan row buff val1) as [val2 [e2|]]; [by intros [= <- _ _ _]|].
  destruct (afterFetch methods val2) as [val3 [e3|]]; [by intros [= <- _ _ _]|done].
Qed.

Lemma fetchObjToFixedSlice_error val rows count e obj rows' :
  fetchObjToFixedSlice methods val rows = Return count (Some e) obj rows' -> count = 0.
Proof.
  unfold fetchObjToFixedSlice.
  assert (Hloop : forall z items,
    (if negb (isStruct (itemType z)) then Return 0 (Some ErrInvalidKind) val rows
     else match Columns rows with
          | Ok cols =>
              match fixed_loop methods cols (length items) 0 items (pending rows) with
              | Ended err count items unread =>
                  Return count err (set_items val items) (mkRows (Columns rows) unread)
              | Panicked => Panic
              end
          | Err e => Return 0 (Some e) val rows
          end) = Return count (Some e) obj rows' -> count = 0).
  { intros z items. destruct (negb _); [by intros [= <- _ _ _]|].
    destruct (Columns rows) as [cols|e0]; [|by intros [= <- _ _ _]].
    pose proof (fixed_loop_end cols (length items) 0 items (pending rows)) as H.
    destruct (fixed_loop _ _ _ _ _ _) as [[e1|] c items' unread|]; [| |done].
    - destruct H as [-> _]. by intros [= <- _ _ _].
    - done. }
  destruct val; try done; apply Hloop.
Qed.

Lemma fetchObjToSlice_error val rows count e obj rows' :
  fetchObjToSlice methods val rows = Return count (Some e) obj rows' -> count = 0.
Proof.
  unfold fetchObjToSlice. destruct val as [| |[]| | |]; try done.
  destruct (negb _); [by intros [= <- _ _ _]|].
  destruct (Columns rows) as [cols|e0]; [|by intros [= <- _ _ _]].
  pose proof (slice_loop_end cols elem (length items) 0 0 items (pending rows)) as H.
  destruct (slice_loop _ _ _ _ _ _ _ _) as [[e1|] c items' unread|]; [| |done].
  - subst c. by intros [= <- _ _ _].
  - done.
Qed.

Lemma through_pointer_Return o count err obj rows :
  through_pointer o = Return count err obj rows ->
  exists elem, o = Return count err elem rows /\ obj = VPtr elem.
Proof. destruct o; [|done]. intros [= -> -> <- ->]. by eexists. Qed.

Lemma Object_error rows obj count e obj' rows' :
  Object methods rows obj = Return count (Some e) obj' rows' -> count = 0.
Proof.
  unfold Object. destruct obj as [| |elem| | |]; try by intros [= <- _ _ _].
  - destruct elem; try by intros [= <- _ _ _].
    + intros (? & H & _)%through_pointer_Return. by eapply fetchOnceObj_error.
    + apply fetchObjToSlice_error.
    + intros (? & H & _)%through_pointer_Return. by eapply fetchObjToFixedSlice_error.
  - apply fetchObjToFixedSlice_error.
Qed.

(** A fetch into a slice or through a pointer to an array that reports no
    error returns the length of the receiver, and leaves unread the rows
    beyond that length. *)
Lemma fetchObjToFixedSlice_success val z items rows count obj rows' :
  val = VSlice z items \/ val = VArray z items ->
  fetchObjToFixedSlice methods val rows = Return count None obj rows' ->
  count = length items
  /\ pending rows' = drop (length items) (pending rows)
  /\ exists items', obj = set_items val items' /\ length items' = length items.
Proof.
  intros Hval H.
  assert (H' :
    (if negb (isStruct (itemType z)) then Return 0 (Some ErrInvalidKind) val rows
     else match Columns rows with
          | Ok cols =>
              match fixed_loop methods cols (length items) 0 items (pending rows) with
              | Ended err count items unread =>
                  Return count err (set_items val items) (mkRows (Columns rows) unread)
              | Panicked => Panic
              end
          | Err e => Return 0 (Some e) val rows
          end) = Return count None obj rows')
    by (by destruct Hval; subst val).
  clear H. destruct (negb _); [done|].
  destruct (Columns rows) as [cols|e0]; [|done].
  pose proof (fixed_loop_end cols (length items) 0 items (pending rows)) as He.
  pose proof (fixed_loop_unread cols (length items) 0 items (pending rows)) as Hu.
  destruct (fixed_loop _ _ _ _ _ _) as [[e1|] c items' unread|]; [done| |done].
  destruct He as [-> Hlen]. injection H' as <- <- <-. simpl.
  split_and!; [done | |by exists items'].
  rewrite (Hu _ _ _ eq_refl). by rewrite Nat.sub_0_r.
Qed.

(** With no row to read, [fetchOnceObj] still runs [getColumns] on the
    receiver: it returns what [getColumns] reports and leaves the receiver as
    [parseObject] left it. *)
Lemma fetchOnceObj_no_rows val cols :
  fetchOnceObj methods val (mkRows (Ok cols) [])
  = Return 0
      match (getColumns val cols).2 with Ok _ => None | Err e => Some e end
      (getColumns val cols).1 (mkRows (Ok cols) []).
Proof.
  unfold fetchOnceObj. simpl. by destruct (getColumns val cols) as [val1 [buff|e]].
Qed.

(** ** What the loops leave alone *)

(** The loop of [fetchObjToFixedSlice] writes to the elements of the rows it
    reads only, whether it ends with an error or not. *)
Lemma fixed_loop_frame cols l i items rows err count items' unread j :
  fixed_loop methods cols l i items rows = Ended err count items' unread ->
  j < i \/ i + length rows <= j -> items' !! j = items !! j.
Proof.
  revert i items. induction rows as [|row rest IH]; intros i items; simpl.
  - destruct (bool_decide (i < l)); by intros [= _ _ <- _].
  - destruct (bool_decide (i < l)); [|by intros [= _ _ <- _]].
    destruct (items !! i) as [item|]; [|done].
    intros H Hj. assert (i <> j) by lia.
    destruct (getColumns item cols) as [item1 [buff|e]];
      [|injection H as _ _ <- _; by rewrite list_lookup_insert_ne].
    destruct (Scan row buff item1) as [item2 [e|]];
      [injection H as _ _ <- _; by rewrite list_lookup_insert_ne|].
    destruct (afterFetch methods item2) as [item3 [e|]];
      [injection H as _ _ <- _; by rewrite list_lookup_insert_ne|].
    apply IH in H; [|lia]. by rewrite H, list_lookup_insert_ne.
Qed.

(** The loop of [fetchObjToSlice] writes to the elements of the rows it
    reads only; without an error the slice ends as long as the longer of the
    receiver and the rows. *)
Lemma slice_loop_frame cols z l i count items rows err count' items' unread :
  length items = l `max` i ->
  slice_loop methods cols z l i count items rows = Ended err count' items' unread ->
  (forall j, j < i \/ i + length rows <= j -> items' !! j = items !! j)
  /\ (err = None -> length items' = l `max` (i + length rows)).
Proof.
  revert i count items. induction rows as [|row rest IH]; intros i count items Hlen;
    simpl.
  - intros [= <- _ <- _]. split; [done|]. intros _. by rewrite Nat.add_0_r.
  - destruct (if bool_decide (l <= i) then Append_New z items else Some items)
      as [items1|] eqn:Happ; [|done].
    assert (Hlen1 : length items1 = l `max` S i).
    { destruct (bool_decide (l <= i)) eqn:Hli.
      - apply bool_decide_eq_true in Hli.
        apply Append_New_Some in Happ as [x ->]. rewrite length_app. simpl. lia.
      - apply bool_decide_eq_false in Hli. injection Happ as <-. lia. }
    assert (H1 : forall j, j < i \/ i + S (length rest) <= j ->
                           items1 !! j = items !! j).
    { intros j Hj. destruct (bool_decide (l <= i)) eqn:Hli; [|by injection Happ as <-].
      apply bool_decide_eq_true in Hli.
      apply Append_New_Some in Happ as [x ->].
      destruct Hj as [Hj|Hj].
      - apply lookup_app_l. lia.
      - rewrite !lookup_ge_None_2; [done | lia |]. rewrite length_app. simpl. lia. }
    destruct (items1 !! i) as [item|]; [|done].
    assert (Hend : forall item' e,
      Ended (Some e) 0 (<[i:=item']> items1) rest = Ended err count' items' unread ->
      (forall j, j < i \/ i + S (length rest) <= j -> items' !! j = items !! j)
      /\ (err = None -> length items' = l `max` (i + S (length rest)))).
    { intros item' e [= <- _ <- _]. split; [|done].
      intros j Hj. rewrite list_lookup_insert_ne by lia. by apply H1. }
    destruct (getColumns item cols) as [item1 [buff|e]]; [|apply Hend].
    destruct (Scan row buff item1) as [item2 [e|]]; [apply Hend|].
    destruct (afterFetch methods item2) as [item3 [e|]]; [apply Hend|].
    intros H. apply IH in H as [Hframe Hgrow]; [|by rewrite length_insert].
    split.
    + intros j Hj. rewrite Hframe by lia.
      rewrite list_lookup_insert_ne by lia. by apply H1.
    + intros He. rewrite (Hgrow He). lia.
Qed.

(** A slice whose element type is not a pointer to a record cannot grow:
    the loop of [fetchObjToSlice] ends without an error only when the rows
    fit the receiver. *)
Lemma slice_loop_fits cols z l i count items rows count' items' unread :
  Append_New z [] = None -> i <= l ->
  slice_loop methods cols z l i count items rows = Ended None count' items' unread ->
  i + length rows <= l.
Proof.
  intros Hz. revert i count items.
  induction rows as [|row rest IH]; intros i count items Hi; simpl.
  - intros _. lia.
  - destruct (bool_decide (l <= i)) eqn:Hli.
    { by rewrite (Append_New_None z [] items Hz). }
    apply bool_decide_eq_false in Hli.
    destruct (items !! i) as [item|]; [|done].
    destruct (getColumns item cols) as [item1 [buff|e]]; [|done].
    destruct (Scan row buff item1) as [item2 [e|]]; [done|].
    destruct (afterFetch methods item2) as [item3 [e|]]; [done|].
    intros H. apply IH in H; lia.
Qed.

(** ** [fetchOnceObj] *)

(** What is handed to [afterFetch] by [fetchOnceObj] is the record, not a
    pointer to it: a method with a pointer receiver is not in its method
    set. *)
Lemma afterFetch_struct ty fs :
  (forall f, methods ty = Some f -> ptrReceiver f = true) ->
  afterFetch methods (VStruct ty fs) = (VStruct ty fs, None).
Proof.
  intros H. cbn [afterFetch]. destruct (methods ty) as [f|]; [|done].
  by rewrite (H f eq_refl).
Qed.



(** Methods with a pointer receiver play no part in [fetchOnceObj]. *)
Lemma fetchOnceObj_pointer_hook ty fs rows :
  (forall f, methods ty = Some f -> ptrReceiver f = true) ->
  fetchOnceObj methods (VStruct ty fs) rows
  = fetchOnceObj (fun _ => None) (VStruct ty fs) rows.
Proof.
  intros Hm. unfold fetchOnceObj. destruct (Columns rows) as [cols|e]; [|done].
  destruct (getColumns_struct ty fs cols) as [fs1 H1].
  destruct (getColumns _ cols) as [v1 [buff|e]]; simpl in H1; subst v1; [|done].
  destruct (pending rows) as [|row rest]; [done|].
  destruct (Scan_struct row buff ty fs1) as [fs2 H2].
  destruct (Scan row buff _) as [v2 [e|]]; simpl in H2; subst v2; [done|].
  by rewrite (afterFetch_struct ty fs2 Hm).
Qed.


(** ** The loops under their callers *)

(** [fetchObjToFixedSlice] keeps the kind, the element type and the length
    of its receiver and every element beyond the rows, with an error or
    without. *)
Lemma fetchObjToFixedSlice_frame val rows count err obj rows' :
  fetchObjToFixedSlice methods val rows = Return count err obj rows' ->
  exists z items items',
    (val = VSlice z items \/ val = VArray z items)
    /\ obj = set_items val items'
    /\ length items' = length items
    /\ forall j, length (pending rows) <= j -> items' !! j = items !! j.
Proof.
  unfold fetchObjToFixedSlice.
  assert (Hloop : forall z items,
    val = VSlice z items \/ val = VArray z items ->
    (if negb (isStruct (itemType z)) then Return 0 (Some ErrInvalidKind) val rows
     else match Columns rows with
          | Ok cols =>
              match fixed_loop methods cols (length items) 0 items (pending rows) with
              | Ended err count items unread =>
                  Return count err (set_items val items) (mkRows (Columns rows) unread)
              | Panicked => Panic
              end
          | Err e => Return 0 (Some e) val rows
          end) = Return count err obj rows' ->
    exists z items items',
      (val = VSlice z items \/ val = VArray z items)
      /\ obj = set_items val items'
      /\ length items' = length items
      /\ forall j, length (pending rows) <= j -> items' !! j = items !! j).
  { intros z items Hval.
    assert (Hsame : val = set_items val items) by (by destruct Hval as [-> | ->]).
    destruct (negb _).
    { intros [= _ _ <- _]. by exists z, items, items. }
    destruct (Columns rows) as [cols|e0].
    2:{ intros [= _ _ <- _]. by exists z, items, items. }
    pose proof (fixed_loop_end cols (length items) 0 items (pending rows)) as Hend.
    destruct (fixed_loop _ _ _ _ _ _) as [err1 c items' unread|] eqn:Hf; [|done].
    intros [= _ _ <- _]. exists z, items, items'. split; [done|]. split; [done|].
    split; [by destruct err1 as [e1|]; destruct Hend|].
    intros j Hj. apply (fixed_loop_frame _ _ _ _ _ _ _ _ _ j Hf). right. simpl. lia. }
  destruct val as [s|z0|x|ty fs|z items|z items]; try done.
  - apply Hloop. by left.
  - apply Hloop. by right.
Qed.

(** [fetchObjToSlice] without an error: every row is read and counted, the
    slice is as long as the longer of the receiver and the rows, and the
    elements beyond the rows are kept. *)
Lemma fetchObjToSlice_success z items rows count obj rows' :
  fetchObjToSlice methods (VPtr (VSlice z items)) rows = Return count None obj rows' ->
  count = length (pending rows)
  /\ rows' = mkRows (Columns rows) []
  /\ exists items',
       obj = VPtr (VSlice z items')
       /\ length items' = length items `max` length (pending rows)
       /\ forall j, length (pending rows) <= j -> items' !! j = items !! j.
Proof.
  unfold fetchObjToSlice. destruct (negb _); [done|].
  destruct (Columns rows) as [cols|e0]; [|done].
  destruct (slice_loop _ _ _ _ _ _ _ _) as [err c items' unread|] eqn:Hs; [|done].
  intros [= -> -> <- <-].
  pose proof (slice_loop_count _ _ _ _ _ _ _ _ _ _ Hs) as [-> ->].
  apply slice_loop_frame in Hs as [Hframe Hgrow]; [|lia].
  split; [done|]. split; [done|]. exists items'. split; [done|].
  split; [by rewrite Hgrow|]. intros j Hj. apply Hframe. right. simpl. lia.
Qed.

(** [fetchObjToSlice] into a slice whose element type is not a pointer to a
    record does not end without an error when the rows outnumber the
    elements. *)
Lemma fetchObjToSlice_fits z items rows count obj rows' :
  Append_New z [] = None ->
  fetchObjToSlice methods (VPtr (VSlice z items)) rows = Return count None obj rows' ->
  length (pending rows) <= length items.
Proof.
  intros Hz. unfold fetchObjToSlice. destruct (negb _); [done|].
  destruct (Columns rows) as [cols|e0]; [|done].
  destruct (slice_loop _ _ _ _ _ _ _ _) as [err c items' unread|] eqn:Hs; [|done].
  intros [= -> -> <- <-].
  apply slice_loop_fits in Hs; [simpl in Hs; lia | done | lia].
Qed.

End WithHooks.

End FetchFacts.


(* ===================================================================== *)
(** * Facts about the column properties                                   *)
(* ===================================================================== *)

Module SchemaFacts.
Import Schema.

Lemma IsAI_true m i : IsAI m i = true <-> AI m = Some i.
Proof. unfold IsAI. apply bool_decide_eq_true. Qed.

(** [nullable] on the AI column is refused when it declares the column
    nullable. *)
Lemma setNullable_on_AI m i col vals :
  IsAI m i = true ->
  vals = [] \/ (exists v, vals = [v] /\ parseBool v = Some true) ->
  setNullable m i col vals = Err (ErrSchema (Name col) "nullable").
Proof.
  intros Hai [->|(v & -> & Hv)]; unfold setNullable.
  - by rewrite Hai.
  - by rewrite Hv, Hai.
Qed.

(** [ai] on a nullable column is refused. *)
Lemma setAI_on_nullable m i col vals :
  Nullable col = true -> setAI m i col vals = Err (ErrSchema (Name col) "ai").
Proof.
  intros Hn. unfold setAI. rewrite Hn.
  repeat match goal with |- context [if ?b then _ else _] => destruct b end; done.
Qed.

Lemma setNullable_applying m i col vals m' col' :
  setNullable m i col vals = Ok (m', col') ->
  applying m i col -> applying m' i col'.
Proof.
  unfold setNullable. intros H (Hlen & Hinv & Hcur).
  assert (Hd : forall b,
    (if b && IsAI m i then Err (ErrSchema (Name col) "nullable")
     else Ok (m, setCol_Nullable col b)) = Ok (m', col') ->
    applying m' i col').
  { intros b Hb. destruct (b && IsAI m i) eqn:Hbi; [done|].
    injection Hb as <- <-. split_and!; [done..|].
    intros Hai%IsAI_true. rewrite Hai, andb_true_r in Hbi. by subst b. }
  destruct vals as [|v [|v' vals]]; [by apply (Hd true) | | done].
  destruct (parseBool v) as [b|]; [by apply (Hd b) | done].
Qed.

Lemma setAI_applying m i col vals m' col' :
  setAI m i col vals = Ok (m', col') ->
  applying m i col -> applying m' i col'.
Proof.
  unfold setAI. intros H (Hlen & Hinv & Hcur).
  repeat match type of H with
         | (if ?b then _ else _) = _ => destruct b eqn:?; [done|]
         end.
  injection H as <- <-. split_and!; [done | | done].
  intros j c [= <-] Hc. simpl in Hc.
  apply lookup_lt_Some in Hc. lia.
Qed.

Lemma untouched_applying m i col m' col' :
  untouched m col m' col' -> applying m i col -> applying m' i col'.
Proof.
  intros (Hai & Hcols & Hn) (Hlen & Hinv & Hcur). unfold applying, noNullableAI.
  rewrite Hai, Hcols, Hn. done.
Qed.

Ltac step_ok H :=
  repeat match type of H with
         | (if ?b then _ else _) = _ => destruct b; [try done|try done]
         | match ?x with _ => _ end = _ => destruct x; try done
         end;
  try (injection H as <- <-; done).

Lemma setPK_untouched m i col vals m' col' :
  setPK m i col vals = Ok (m', col') -> untouched m col m' col'.
Proof. unfold setPK. intros H. destruct vals; [|done]. step_ok H. Qed.

Lemma setDefault_untouched m i col vals m' col' :
  setDefault m i col vals = Ok (m', col') -> untouched m col m' col'.
Proof.
  unfold setDefault. intros H. destruct vals as [|v [|]]; [done| |done]. step_ok H.
Qed.

Lemma setOCC_untouched m i col vals m' col' :
  setOCC m i col vals = Ok (m', col') -> untouched m col m' col'.
Proof.
  unfold setOCC. intros H. destruct vals as [|v [|]]; [| |done].
  - step_ok H.
  - destruct (parseBool v) as [[]|]; [| |done]; step_ok H.
Qed.

Lemma setName_untouched m col vals m' col' :
  setName m col vals = Ok (m', col') -> untouched m col m' col'.
Proof.
  unfold setName. intros H. destruct vals as [|v [|]]; [done| |done]. step_ok H.
Qed.

Lemma setLen_untouched m col vals m' col' :
  setLen m col vals = Ok (m', col') -> untouched m col m' col'.
Proof.
  unfold setLen. intros H. destruct vals as [|a [|b [|]]]; [| | |done].
  - step_ok H.
  - destruct (parseNat a); [|done]. step_ok H.
  - destruct (parseNat a), (parseNat b); try done. step_ok H.
Qed.

Lemma setUnique_untouched m i col vals m' col' :
  setUnique m i col vals = Ok (m', col') -> untouched m col m' col'.
Proof.
  unfold setUnique. intros H. destruct vals as [|v [|]]; [done| |done]. step_ok H.
Qed.

Lemma setIndex_untouched m i col vals m' col' :
  setIndex m i col vals = Ok (m', col') -> untouched m col m' col'.
Proof.
  unfold setIndex. intros H. destruct vals as [|v [|]]; [done| |done]. step_ok H.
Qed.

Lemma setFK_untouched m i col vals m' col' :
  setFK m i col vals = Ok (m', col') -> untouched m col m' col'.
Proof.
  unfold setFK. intros H. destruct vals as [|n [|t [|c rules]]]; [done..|]. step_ok H.
Qed.

Lemma applyProp_applying m i col prop m' col' :
  applyProp m i col prop = Ok (m', col') ->
  applying m i col -> applying m' i col'.
Proof.
  unfold applyProp. destruct prop as [name vals]. intros H.
  repeat match type of H with
         | (if String.eqb name ?s then _ else _) = _ =>
             destruct (String.eqb name s)
         end;
    eauto using setNullable_applying, setAI_applying, untouched_applying,
      setName_untouched, setLen_untouched, setPK_untouched, setUnique_untouched,
      setIndex_untouched, setFK_untouched, setOCC_untouched, setDefault_untouched.
  done.
Qed.

Lemma applyProps_applying props m i col m' col' :
  applyProps m i col props = Ok (m', col') ->
  applying m i col -> applying m' i col'.
Proof.
  revert m col. induction props as [|prop rest IH]; intros m col; simpl.
  - by intros [= <- <-].
  - destruct (applyProp m i col prop) as [[m1 col1]|e] eqn:Hp; [|done].
    intros H Ha. apply (IH _ _ H). by eapply applyProp_applying.
Qed.

(** A column joins the model without making the AI column nullable. *)
Lemma parseColumn_noNullableAI m f m' :
  parseColumn m f = Ok m' -> noNullableAI m -> noNullableAI m'.
Proof.
  unfold parseColumn. intros H Hinv.
  destruct (applyProps _ _ _ _) as [[m1 col1]|e] eqn:Hp; [|done].
  destruct (existsb _ _); [done|]. injection H as <-.
  apply applyProps_applying in Hp as (Hlen & Hinv1 & Hcur).
  - intros j c Hai Hc. unfold addCol in *. simpl in *.
    apply lookup_app_Some in Hc as [Hc|[Hge Hc]]; [by eapply Hinv1|].
    apply list_lookup_singleton_Some in Hc as [Hj <-].
    apply Hcur. rewrite Hai. f_equal. lia.
  - split_and!; [done | done |]. done.
Qed.

Lemma walk_noNullableAI fields m m' :
  walk fields m = Ok m' -> noNullableAI m -> noNullableAI m'.
Proof.
  revert m. induction fields as [|f rest IH]; intros m; simpl.
  - by intros [= <-].
  - match goal with |- context [if ?b then _ else _] => destruct b end; [apply IH|].
    destruct (parseColumn m f) as [m1|e] eqn:Hp; [|done].
    intros H Hinv. apply (IH _ H). by eapply parseColumn_noNullableAI.
Qed.

Lemma compile_noNullableAI fields m :
  compile fields = Ok m -> noNullableAI m.
Proof. intros H. by apply (walk_noNullableAI _ _ _ H). Qed.

End SchemaFacts.


(* ===================================================================== *)
(** * The claims                                                          *)
(* ===================================================================== *)

Module Claims.
Import Examples.

Lemma select_Permutation {C : Type} (fieldOf : C -> option scalar)
    (keep : string -> C -> scalar -> bool) (order cols : list (string * C)) :
  order ≡ₚ cols -> Spec.select fieldOf keep order ≡ₚ Spec.select fieldOf keep cols.
Proof. intros H. unfold Spec.select. by rewrite H. Qed.

Lemma all_valid_Permutation {C : Type} (goName : C -> string) rval
    (order cols : list (string * C)) :
  order ≡ₚ cols -> Spec.all_valid goName rval cols -> Spec.all_valid goName rval order.
Proof. intros H. unfold Spec.all_valid. by rewrite H. Qed.

Lemma keys_among_Permutation {C : Type} (pk : list C) indices uorder
    (order cols : list (string * C)) :
  order ≡ₚ cols -> uorder ≡ₚ indices ->
  Spec.keys_among_columns pk indices cols ->
  Spec.keys_among_columns pk uorder order.
Proof.
  intros Ho Hu [Hpk Hidx]. split.
  - eapply Forall_impl; [exact Hpk|]. intros c Hc. simpl in Hc. by rewrite Ho.
  - rewrite Hu. eapply Forall_impl; [exact Hidx|]. intros idx Hi. simpl in Hi.
    eapply Forall_impl; [exact Hi|]. intros c Hc. simpl in Hc. by rewrite Ho.
Qed.

(** C1 (the code departs from it).  A fetch into a slice, or through a
    pointer to an array, should return the smaller of the number of rows and
    the length of the receiver.  With two rows and a slice of three members
    the first two members are populated and the third is left alone, but the
    count returned is 3, the length; with three rows and a slice of two
    members the count is 2 and the third row stays unread. *)
Theorem C1_fixed_receiver_returns_its_length :
  Fetch.Object noHooks (memberRows 2) (members 3)
  = Fetch.Return 3 None
      (Fetch.VSlice (Fetch.VNil (member 0 ""))
         [Fetch.VPtr (member 0 "email-0"); Fetch.VPtr (member 1 "email-1");
          Fetch.VPtr (member 0 "")])
      (Fetch.mkRows (Ok ["id"; "Email"]) [])
  /\ 3 <> 2 `min` 3
  /\ Fetch.Object noHooks (memberRows 3) (members 2)
     = Fetch.Return 2 None
         (Fetch.VSlice (Fetch.VNil (member 0 ""))
            [Fetch.VPtr (member 0 "email-0"); Fetch.VPtr (member 1 "email-1")])
         (Fetch.mkRows (Ok ["id"; "Email"]) [memberRow 2]).
Proof. split_and!; [reflexivity | lia | reflexivity]. Qed.

(** C2 (the code departs from it).  When [AfterFetch] returns an error the
    traversal stops and the error is returned, but with the count 0, not
    with the number of rows populated so far: here the member 0 is populated
    and accepted, the member 1 is populated and refused, the third row is
    not read, and the count returned is 0, through a pointer to a slice as
    well as into a slice. *)
Theorem C2_hook_error_comes_with_count_zero :
  Fetch.Object hooks (memberRows 3) (Fetch.VPtr (members 1))
  = Fetch.Return 0 (Some (ErrHook "refused"))
      (Fetch.VPtr
         (Fetch.VSlice (Fetch.VNil (member 0 ""))
            [Fetch.VPtr (member 0 "email-0"); Fetch.VPtr (member 1 "email-1")]))
      (Fetch.mkRows (Ok ["id"; "Email"]) [memberRow 2])
  /\ Fetch.Object hooks (memberRows 3) (members 3)
     = Fetch.Return 0 (Some (ErrHook "refused"))
         (Fetch.VSlice (Fetch.VNil (member 0 ""))
            [Fetch.VPtr (member 0 "email-0"); Fetch.VPtr (member 1 "email-1");
             Fetch.VPtr (member 0 "")])
         (Fetch.mkRows (Ok ["id"; "Email"]) [memberRow 2]).
Proof. split; reflexivity. Qed.

(** C3 (the code departs from it).  In a batch INSERT every values tuple
    should have one entry per column of the first record.  Here the first
    user fixes the columns [name] and [age]; the second user has the zero
    [name], a column with a default, and her tuple is left with the single
    entry for [age], which now sits under [name]. *)
Theorem C3_batch_insert_drops_zero_default_value :
  SqlBuilder.buildInsertManySQL NewUser [user 0 "ann" 30; user 0 "" 31] inOrder
  = Ok (SqlBuilder.mkInsert "{#user}" ["{name}"; "{age}"]
          [[SStr "ann"; SInt 30]; [SInt 31]]).
Proof. reflexivity. Qed.

(** C4 (the code departs from it).  For the two-column primary key
    [(a, b)] with both columns non-zero, [where] of [src/impl.go] writes the
    two conditions with nothing between them, while the keyed WHERE of the
    specification joins them by AND; [where] of [src/sqlbuilder.go] hands
    the two conditions to [And]. *)
Theorem C4_impl_where_writes_pk_conditions_without_AND :
  Impl.where_ mysql "DELETE FROM `pair`" iPairModel (pair_ 1 2) []
  = ("DELETE FROM `pair` WHERE `a`=?`b`=?", Ok [SInt 1; SInt 2])
  /\ Spec.impl_keyed_where mysql "DELETE FROM `pair`" iPairModel (pair_ 1 2) []
     = ("DELETE FROM `pair` WHERE `a`=? AND `b`=?", Ok [SInt 1; SInt 2])
  /\ SqlBuilder.where_ [] pairModel (pair_ 1 2) []
     = ([("{a}=?", SInt 1); ("{b}=?", SInt 2)], None).
Proof. split_and!; reflexivity. Qed.

(** C5, as amended.  When the primary key cannot be used (it is empty, or
    one of its columns is absent or zero), [where] takes the first unique
    index that can be used in the order in which [range] visits
    [m.UniqueIndexes], an order Go leaves unspecified; when no index can be
    used it returns the no-where-key error and adds nothing to the
    statement.  This holds for [src/sqlbuilder.go] and for [src/impl.go]. *)
Theorem C5_where_takes_first_usable_index_in_range_order
    (w : SqlBuilder.WhereStmt) (m : SqlBuilder.Model) (rval : StructVal)
    (uorder : list (string * list SqlBuilder.Column))
    (e : Impl.engine) (sql : string) (m' : Impl.Model)
    (uorder' : list (string * list Impl.Column)) :
  Spec.sb_usable rval (SqlBuilder.PK m) = false ->
  Spec.impl_usable rval (Impl.PK m') = false ->
  range_order uorder (SqlBuilder.UniqueIndexes m) ->
  range_order uorder' (Impl.UniqueIndexes m') ->
  SqlBuilder.where_ w m rval uorder
  = match Spec.first_usable (Spec.sb_field rval) SqlBuilder.Zero uorder with
    | Some idx => (w ++ Spec.sb_conditions rval idx.2, None)
    | None => (w, Some ErrNoWhereKey)
    end
  /\ Impl.where_ e sql m' rval uorder'
     = match Spec.first_usable (Spec.impl_field rval) Spec.impl_zero uorder' with
       | Some idx =>
           (sql +:+ " WHERE " +:+ Spec.and_joined e idx.2,
            Ok (Spec.impl_values rval idx.2))
       | None => (sql, Err ErrNoWhereKey)
       end.
Proof.
  intros Hpk Hpk' _ _. split.
  - rewrite SqlBuilderFacts.where_spec. unfold Spec.keyed_where. by rewrite Hpk.
  - rewrite ImplFacts.where_unusable_pk by done.
    unfold Spec.impl_keyed_where. by rewrite Hpk'.
Qed.

Lemma C5_where_takes_first_usable_index_in_range_order_witness :
  Spec.sb_usable (user 0 "ann" 30) (SqlBuilder.PK userModel) = false
  /\ Spec.impl_usable (user 0 "ann" 30) (Impl.PK iUserModel) = false
  /\ range_order (uReversed userModel) (SqlBuilder.UniqueIndexes userModel)
  /\ range_order (iUReversed iUserModel) (Impl.UniqueIndexes iUserModel)
  /\ SqlBuilder.where_ [] userModel (user 0 "ann" 30) (uReversed userModel)
     = ([("{age}=?", SInt 30)], None)
  /\ Impl.where_ mysql "DELETE FROM `user`" iUserModel (user 0 "ann" 30)
       (iUReversed iUserModel)
     = ("DELETE FROM `user` WHERE `age`=?", Ok [SInt 30]).
Proof.
  assert (H1 : Spec.sb_usable (user 0 "ann" 30) (SqlBuilder.PK userModel) = false)
    by reflexivity.
  assert (H2 : Spec.impl_usable (user 0 "ann" 30) (Impl.PK iUserModel) = false)
    by reflexivity.
  assert (H3 : range_order (uReversed userModel) (SqlBuilder.UniqueIndexes userModel))
    by apply reverse_Permutation.
  assert (H4 : range_order (iUReversed iUserModel) (Impl.UniqueIndexes iUserModel))
    by apply reverse_Permutation.
  split_and!; try assumption.
  - exact (proj1 (C5_where_takes_first_usable_index_in_range_order
                    [] userModel (user 0 "ann" 30) (uReversed userModel)
                    mysql "DELETE FROM `user`" iUserModel (iUReversed iUserModel)
                    H1 H2 H3 H4)).
  - exact (proj2 (C5_where_takes_first_usable_index_in_range_order
                    [] userModel (user 0 "ann" 30) (uReversed userModel)
                    mysql "DELETE FROM `user`" iUserModel (iUReversed iUserModel)
                    H1 H2 H3 H4)).
Defined.

(** C5 as it is written fails: the unique indices [u_name] and [u_age] were
    inserted in this order and both can be used; when [range] visits
    [u_age] first, [where] takes [u_age], not the first usable index in
    insertion order. *)
Lemma C5_counterexample :
  Spec.sb_usable (user 0 "ann" 30) (SqlBuilder.PK userModel) = false
  /\ range_order (uReversed userModel) (SqlBuilder.UniqueIndexes userModel)
  /\ Spec.keyed_where [] userModel (user 0 "ann" 30)
       (SqlBuilder.UniqueIndexes userModel)
     = ([("{name}=?", SStr "ann")], None)
  /\ SqlBuilder.where_ [] userModel (user 0 "ann" 30) (uReversed userModel)
     = ([("{age}=?", SInt 30)], None)
  /\ SqlBuilder.where_ [] userModel (user 0 "ann" 30) (uReversed userModel)
     <> Spec.keyed_where [] userModel (user 0 "ann" 30)
          (SqlBuilder.UniqueIndexes userModel).
Proof.
  split_and!; [reflexivity | apply reverse_Permutation | reflexivity | reflexivity |].
  intros H. vm_compute in H. discriminate H.
Qed.

(** C6.  A single-row INSERT holds a pair for exactly the columns whose
    value is non-zero or that are neither AI nor carry a default: the pairs
    of the statement [insert] builds are those of the model's columns that
    pass this test, and [insertMult] executes one statement made of the same
    columns (or reports that there is no column).  The test is the negation
    of: the value is zero and the column is AI or has a default. *)
Theorem C6_insert_keeps_nonzero_or_plain_columns
    (NewModel : StructVal -> result SqlBuilder.Model)
    (newModel : Impl.object -> result Impl.Model) (e : Impl.engine)
    (v : StructVal) (m : SqlBuilder.Model) (m' : Impl.Model)
    (order : SqlBuilder.Model -> list (string * SqlBuilder.Column))
    (order' : Impl.Model -> list (string * Impl.Column))
    (rest : list Impl.object) (log : list (string * list scalar)) :
  NewModel v = Ok m ->
  newModel (Impl.ORecord v) = Ok m' ->
  range_order (order m) (SqlBuilder.Cols m) ->
  range_order (order' m') (Impl.Cols m') ->
  Spec.all_valid SqlBuilder.GoName v (SqlBuilder.Cols m) ->
  Spec.all_valid Impl.GoName v (Impl.Cols m') ->
  (exists stmt,
     SqlBuilder.insert NewModel v order = Ok stmt
     /\ SqlBuilder.pairs stmt
        ≡ₚ Spec.braces <$> Spec.insert_columns m v (SqlBuilder.Cols m))
  /\ (exists kv,
        kv ≡ₚ Spec.impl_insert_columns m' v (Impl.Cols m')
        /\ Impl.insertMult newModel e order' (Impl.ORecord v :: rest) log
           = if bool_decide (kv = []) then (log, Some ErrNoColumns)
             else
               let sql := Impl.insert_sql e m' kv.*1 kv.*2 in
               match Impl.Exec e sql kv.*2 with
               | Some err => (log ++ [(sql, kv.*2)], Some err)
               | None =>
                   Impl.insertMult newModel e order' rest (log ++ [(sql, kv.*2)])
               end)
  /\ (forall zero field isAI hasDefault,
        Spec.included zero field isAI hasDefault
        = negb (Spec.omitted zero field isAI hasDefault)).
Proof.
  intros Hm Hm' Ho Ho' Hv Hv'. split_and!.
  - destruct (SqlBuilderFacts.insert_spec NewModel v order m Hm) as (stmt & Hs & _ & Hp).
    { by eapply all_valid_Permutation. }
    exists stmt. split; [done|]. rewrite Hp.
    apply fmap_Permutation. by apply select_Permutation.
  - exists (Spec.impl_insert_columns m' v (order' m')). split.
    + by apply select_Permutation.
    + apply ImplFacts.insertMult_head; [done|]. by eapply all_valid_Permutation.
  - apply SqlBuilderFacts.included_not_omitted.
Qed.

Lemma C6_insert_keeps_nonzero_or_plain_columns_witness :
  NewUser (user 0 "" 0) = Ok userModel
  /\ newUser (Impl.ORecord (user 0 "" 0)) = Ok iUserModel
  /\ range_order (inOrder userModel) (SqlBuilder.Cols userModel)
  /\ range_order (iInOrder iUserModel) (Impl.Cols iUserModel)
  /\ Spec.all_valid SqlBuilder.GoName (user 0 "" 0) (SqlBuilder.Cols userModel)
  /\ Spec.all_valid Impl.GoName (user 0 "" 0) (Impl.Cols iUserModel)
  /\ (exists stmt,
        SqlBuilder.insert NewUser (user 0 "" 0) inOrder = Ok stmt
        /\ SqlBuilder.pairs stmt ≡ₚ [("{age}", SInt 0)])
  /\ (exists kv,
        kv ≡ₚ [("age", SInt 0)]
        /\ Impl.insertMult newUser mysql iInOrder [Impl.ORecord (user 0 "" 0)] []
           = ([("INSERT INTO `user`(`age`)VALUES(?)", [SInt 0])], None)).
Proof.
  assert (H1 : NewUser (user 0 "" 0) = Ok userModel) by reflexivity.
  assert (H2 : newUser (Impl.ORecord (user 0 "" 0)) = Ok iUserModel) by reflexivity.
  assert (H3 : range_order (inOrder userModel) (SqlBuilder.Cols userModel))
    by reflexivity.
  assert (H4 : range_order (iInOrder iUserModel) (Impl.Cols iUserModel))
    by reflexivity.
  assert (H5 : Spec.all_valid SqlBuilder.GoName (user 0 "" 0) (SqlBuilder.Cols userModel))
    by (repeat constructor; by eexists).
  assert (H6 : Spec.all_valid Impl.GoName (user 0 "" 0) (Impl.Cols iUserModel))
    by (repeat constructor; by eexists).
  destruct (C6_insert_keeps_nonzero_or_plain_columns
              NewUser newUser mysql (user 0 "" 0) userModel iUserModel
              inOrder iInOrder [] [] H1 H2 H3 H4 H5 H6)
    as ((stmt & Hs & Hp) & (kv & Hkv & Hi) & _).
  split_and!; try assumption.
  - exists stmt. split; [exact Hs | exact Hp].
  - exists kv. split; [exact Hkv|]. rewrite Hi.
    apply Permutation_singleton_r in Hkv. rewrite Hkv. reflexivity.
Defined.

(** C7, as amended.  UPDATE sets exactly the columns that are non-zero or
    named in the allow-list ([updateMult] has no allow-list and sets the
    non-zero columns).  There is no no-columns check: when that set is empty
    every column is zero, so, the key columns being columns of the model,
    the WHERE synthesis finds no usable key and the operation fails with the
    no-where-key error, before anything is executed. *)
Theorem C7_update_sets_nonzero_or_listed_columns
    (NewModel : StructVal -> result SqlBuilder.Model)
    (newModel : Impl.object -> result Impl.Model) (e : Impl.engine)
    (v : StructVal) (m : SqlBuilder.Model) (m' : Impl.Model)
    (allow : list string)
    (order : SqlBuilder.Model -> list (string * SqlBuilder.Column))
    (uorder : SqlBuilder.Model -> list (string * list SqlBuilder.Column))
    (order' : Impl.Model -> list (string * Impl.Column))
    (uorder' : Impl.Model -> list (string * list Impl.Column))
    (rest : list Impl.object) (log : list (string * list scalar)) :
  NewModel v = Ok m ->
  newModel (Impl.ORecord v) = Ok m' ->
  range_order (order m) (SqlBuilder.Cols m) ->
  range_order (uorder m) (SqlBuilder.UniqueIndexes m) ->
  range_order (order' m') (Impl.Cols m') ->
  range_order (uorder' m') (Impl.UniqueIndexes m') ->
  Spec.all_valid SqlBuilder.GoName v (SqlBuilder.Cols m) ->
  Spec.all_valid Impl.GoName v (Impl.Cols m') ->
  (exists sets,
     sets ≡ₚ Spec.update_columns v allow (SqlBuilder.Cols m)
     /\ SqlBuilder.update NewModel v allow order uorder
        = match Spec.keyed_where [] m v (uorder m) with
          | (w, None) =>
              Ok (SqlBuilder.mkUpdate ("{#" +:+ SqlBuilder.ModelName m +:+ "}")
                    (Spec.braces <$> sets) w)
          | (_, Some err) => Err err
          end)
  /\ (exists sets,
        sets ≡ₚ Spec.impl_update_columns v (Impl.Cols m')
        /\ Impl.updateMult newModel e order' uorder' (Impl.ORecord v :: rest) log
           = let sql :=
               ("UPDATE " +:+ Impl.Quote e (Impl.Prefix e +:+ Impl.ModelName m'))
               +:+ " SET " in
             let sql := sql +:+ Spec.set_text e sets.*1 in
             let sql := Impl.Truncate (String.length sql - 1) sql in
             match Impl.where_ e sql m' v (uorder' m') with
             | (_, Err err) => (log, Some err)
             | (sql, Ok whereVals) =>
                 match Impl.Exec e sql (sets.*2 ++ whereVals) with
                 | Some err => (log ++ [(sql, sets.*2 ++ whereVals)], Some err)
                 | None =>
                     Impl.updateMult newModel e order' uorder' rest
                       (log ++ [(sql, sets.*2 ++ whereVals)])
                 end
             end)
  /\ (Spec.update_columns v allow (SqlBuilder.Cols m) = [] ->
      Spec.keys_among_columns (SqlBuilder.PK m) (SqlBuilder.UniqueIndexes m)
        (SqlBuilder.Cols m) ->
      SqlBuilder.update NewModel v allow order uorder = Err ErrNoWhereKey)
  /\ (Spec.impl_update_columns v (Impl.Cols m') = [] ->
      Spec.keys_among_columns (Impl.PK m') (Impl.UniqueIndexes m') (Impl.Cols m') ->
      Impl.updateMult newModel e order' uorder' (Impl.ORecord v :: rest) log
      = (log, Some ErrNoWhereKey)).
Proof.
  intros Hm Hm' Ho Hu Ho' Hu' Hv Hv'.
  assert (Hvo : Spec.all_valid SqlBuilder.GoName v (order m))
    by (by eapply all_valid_Permutation).
  assert (Hvo' : Spec.all_valid Impl.GoName v (order' m'))
    by (by eapply all_valid_Permutation).
  split_and!.
  - exists (Spec.update_columns v allow (order m)). split.
    + by apply select_Permutation.
    + by apply SqlBuilderFacts.update_spec.
  - exists (Spec.impl_update_columns v (order' m')). split.
    + by apply select_Permutation.
    + by apply ImplFacts.updateMult_head.
  - intros Hnil Hk.
    rewrite (SqlBuilderFacts.update_spec _ _ _ _ _ m) by done.
    rewrite (SqlBuilderFacts.keyed_where_nothing_set [] m v allow (order m)); [done..| |].
    + apply Permutation_nil_r. rewrite <- Hnil. symmetry. by apply select_Permutation.
    + by eapply keys_among_Permutation.
  - intros Hnil Hk.
    apply (ImplFacts.updateMult_nothing_set _ _ _ _ _ _ _ m'); [done..| |].
    + apply Permutation_nil_r. rewrite <- Hnil. symmetry. by apply select_Permutation.
    + by eapply keys_among_Permutation.
Qed.

Lemma C7_update_sets_nonzero_or_listed_columns_witness :
  NewUser (user 7 "" 30) = Ok userModel
  /\ newUser (Impl.ORecord (user 7 "" 30)) = Ok iUserModel
  /\ range_order (inOrder userModel) (SqlBuilder.Cols userModel)
  /\ range_order (uInOrder userModel) (SqlBuilder.UniqueIndexes userModel)
  /\ range_order (iInOrder iUserModel) (Impl.Cols iUserModel)
  /\ range_order (iUInOrder iUserModel) (Impl.UniqueIndexes iUserModel)
  /\ Spec.all_valid SqlBuilder.GoName (user 7 "" 30) (SqlBuilder.Cols userModel)
  /\ Spec.all_valid Impl.GoName (user 7 "" 30) (Impl.Cols iUserModel)
  /\ (exists sets,
        sets ≡ₚ [("id", SInt 7); ("name", SStr ""); ("age", SInt 30)]
        /\ SqlBuilder.update NewUser (user 7 "" 30) ["name"] inOrder uInOrder
           = Ok (SqlBuilder.mkUpdate "{#user}" (Spec.braces <$> sets)
                   [("{id}=?", SInt 7)]))
  /\ (exists sets,
        sets ≡ₚ [("id", SInt 7); ("age", SInt 30)]
        /\ Impl.updateMult newUser mysql iInOrder iUInOrder
             [Impl.ORecord (user 7 "" 30)] []
           = ([("UPDATE `user` SET `id`=?,`age`=? WHERE `id`=?",
                [SInt 7; SInt 30; SInt 7])], None)).
Proof.
  assert (H1 : NewUser (user 7 "" 30) = Ok userModel) by reflexivity.
  assert (H2 : newUser (Impl.ORecord (user 7 "" 30)) = Ok iUserModel) by reflexivity.
  assert (H3 : range_order (inOrder userModel) (SqlBuilder.Cols userModel))
    by reflexivity.
  assert (H4 : range_order (uInOrder userModel) (SqlBuilder.UniqueIndexes userModel))
    by reflexivity.
  assert (H5 : range_order (iInOrder iUserModel) (Impl.Cols iUserModel))
    by reflexivity.
  assert (H6 : range_order (iUInOrder iUserModel) (Impl.UniqueIndexes iUserModel))
    by reflexivity.
  assert (H7 : Spec.all_valid SqlBuilder.GoName (user 7 "" 30) (SqlBuilder.Cols userModel))
    by (repeat constructor; by eexists).
  assert (H8 : Spec.all_valid Impl.GoName (user 7 "" 30) (Impl.Cols iUserModel))
    by (repeat constructor; by eexists).
  destruct (C7_update_sets_nonzero_or_listed_columns
              NewUser newUser mysql (user 7 "" 30) userModel iUserModel ["name"]
              inOrder uInOrder iInOrder iUInOrder [] [] H1 H2 H3 H4 H5 H6 H7 H8)
    as ((sets & Hs & Hupd) & (sets' & Hs' & Hupd') & _ & _).
  split_and!; try assumption.
  - exists sets. split; [exact Hs | exact Hupd].
  - exists (Spec.impl_update_columns (user 7 "" 30) (iInOrder iUserModel)).
    split; [reflexivity | reflexivity].
Defined.

(** C7 as it is written fails: a user whose columns are all zero, updated
    with no allow-list, has no column to set; [update] and [updateMult] then
    fail with the no-where-key error, not with a no-columns error. *)
Lemma C7_counterexample :
  Spec.update_columns (user 0 "" 0) [] (SqlBuilder.Cols userModel) = []
  /\ SqlBuilder.update NewUser (user 0 "" 0) [] inOrder uInOrder = Err ErrNoWhereKey
  /\ SqlBuilder.update NewUser (user 0 "" 0) [] inOrder uInOrder <> Err ErrNoColumns
  /\ Spec.impl_update_columns (user 0 "" 0) (Impl.Cols iUserModel) = []
  /\ Impl.updateMult newUser mysql iInOrder iUInOrder [Impl.ORecord (user 0 "" 0)] []
     = ([], Some ErrNoWhereKey)
  /\ (Impl.updateMult newUser mysql iInOrder iUInOrder [Impl.ORecord (user 0 "" 0)] []).2
     <> Some ErrNoColumns.
Proof.
  split_and!; try reflexivity.
  - intros H. vm_compute in H. discriminate H.
  - intros H. vm_compute in H. discriminate H.
Qed.

(** C8.  A column cannot be both auto-increment and nullable: [nullable]
    declaring the AI column nullable is a schema error naming the column,
    [ai] on a nullable column is a schema error naming the column, and in
    every model the compiler returns the AI column, if any, is not
    nullable. *)
Theorem C8_auto_increment_column_is_never_nullable :
  (forall (m : Schema.Model) (i : nat) (col : Schema.Column) (vals : list string),
      Schema.IsAI m i = true ->
      vals = [] \/ (exists v, vals = [v] /\ Schema.parseBool v = Some true) ->
      Schema.setNullable m i col vals = Err (ErrSchema (Schema.Name col) "nullable"))
  /\ (forall (m : Schema.Model) (i : nat) (col : Schema.Column) (vals : list string),
        Schema.Nullable col = true ->
        Schema.setAI m i col vals = Err (ErrSchema (Schema.Name col) "ai"))
  /\ (forall (fields : list Schema.Field) (m : Schema.Model),
        Schema.compile fields = Ok m -> Schema.noNullableAI m).
Proof.
  split_and!.
  - apply SchemaFacts.setNullable_on_AI.
  - apply SchemaFacts.setAI_on_nullable.
  - apply SchemaFacts.compile_noNullableAI.
Qed.

Lemma C8_auto_increment_column_is_never_nullable_witness :
  Schema.compile plainFields = Ok plainModel
  /\ Schema.noNullableAI plainModel
  /\ Schema.compile aiThenNullable = Err (ErrSchema "id" "nullable")
  /\ Schema.compile nullableThenAI = Err (ErrSchema "id" "ai")
  /\ Schema.IsAI plainModel 0 = true
  /\ Schema.setNullable plainModel 0
       (Schema.mkColumn "id" "ID" true 0 0 false false "") ["T"]
     = Err (ErrSchema "id" "nullable")
  /\ Schema.setAI Schema.emptyModel 0
       (Schema.mkColumn "id" "ID" true 0 0 true false "") []
     = Err (ErrSchema "id" "ai").
Proof.
  destruct C8_auto_increment_column_is_never_nullable as (Hn & Ha & Hc).
  split_and!.
  - reflexivity.
  - apply (Hc plainFields). reflexivity.
  - reflexivity.
  - reflexivity.
  - reflexivity.
  - apply (Hn plainModel 0 (Schema.mkColumn "id" "ID" true 0 0 false false "") ["T"]).
    + reflexivity.
    + right. exists "T". split; reflexivity.
  - apply (Ha Schema.emptyModel 0 (Schema.mkColumn "id" "ID" true 0 0 true false "") []).
    reflexivity.
Defined.

(** C9.  The deprecated [Obj(obj, rows)] is [Object(rows, obj)]: the same
    count, the same error, the same receiver and the same cursor after the
    call, whatever the receiver and the rows. *)
Theorem C9_Obj_is_Object_with_arguments_swapped
    (methods : string -> option Fetch.Method) (obj : Fetch.value) (rows : Fetch.Rows) :
  Fetch.Obj methods obj rows = Fetch.Object methods rows obj.
Proof. reflexivity. Qed.

(** C10 (the code departs from it).  With no row in the result a fetch
    through a pointer to a record should leave the record as it was.  It
    returns the count 0 and no error, but [fetchOnceObj] runs [getColumns]
    before it asks for a row, and [parseObject] allocates the nil pointer
    fields: the nil [Nick] of the profile is a pointer to the empty string
    after the call.  Through a pointer to a slice, where [getColumns] runs
    after [rows.Next()], the same profile is left as it was. *)
Theorem C10_no_row_still_allocates_nil_pointer_fields :
  Fetch.Object noHooks noRows (Fetch.VPtr (profile 5 nilString))
  = Fetch.Return 0 None
      (Fetch.VPtr (profile 5 (Fetch.VPtr (Fetch.VScalar (SStr ""))))) noRows
  /\ profile 5 (Fetch.VPtr (Fetch.VScalar (SStr ""))) <> profile 5 nilString
  /\ Fetch.Object noHooks noRows
       (Fetch.VPtr (Fetch.VSlice (Fetch.VNil (profile 0 nilString))
                      [Fetch.VPtr (profile 5 nilString)]))
     = Fetch.Return 0 None
         (Fetch.VPtr (Fetch.VSlice (Fetch.VNil (profile 0 nilString))
                        [Fetch.VPtr (profile 5 nilString)])) noRows.
Proof. split_and!; [reflexivity | discriminate | reflexivity]. Qed.

End Claims.

(** * Further properties of the helpers

    What the code of [src/sqlbuilder.go], [src/impl.go] and of package
    [fetch] shows beyond the statements above. *)

Module Extras.
Import Examples.

(** ** [src/sqlbuilder.go] *)

(** X1.  [count] filters on every column of the record that is not zero,
    and on nothing else: its statement is the COUNT query on the
    table of the model with one condition [{col}=?] per column whose field
    exists and differs from the zero value of the column, in the order the
    columns are visited; with no such column it fails, as [whereAny] does,
    and builds no statement. *)
Theorem X1_count_filters_on_every_nonzero_column
    (NewModel : StructVal -> result SqlBuilder.Model) (v : StructVal)
    (order : SqlBuilder.Model -> list (string * SqlBuilder.Column))
    (m : SqlBuilder.Model) :
  NewModel v = Ok m ->
  SqlBuilder.count NewModel v order
  = if bool_decide (Spec.nonzero_conditions v (order m) = [])
    then Err ErrNoWhereKey
    else Ok (SqlBuilder.mkSelect "COUNT(*) AS count"
               ("{#" +:+ SqlBuilder.ModelName m +:+ "}") false
               (Spec.nonzero_conditions v (order m))).
Proof.
  intros Hm. unfold SqlBuilder.count, SqlBuilder.getModel. rewrite Hm.
  rewrite SqlBuilderFacts.whereAny_spec.
  by destruct (bool_decide _).
Qed.

Lemma X1_count_filters_on_every_nonzero_column_witness :
  NewUser (user 0 "ann" 30) = Ok userModel
  /\ SqlBuilder.count NewUser (user 0 "ann" 30) inOrder
     = Ok (SqlBuilder.mkSelect "COUNT(*) AS count" "{#user}" false
             [("{name}=?", SStr "ann"); ("{age}=?", SInt 30)]).
Proof.
  split; [reflexivity|].
  exact (X1_count_filters_on_every_nonzero_column
           NewUser (user 0 "ann" 30) inOrder userModel eq_refl).
Defined.

(** X2.  [find], [forUpdate], [del] and [update] never build a statement
    without a condition: when they succeed, the WHERE part of the statement
    is made of the conditions of one key of the model, the primary key or a
    unique index, every column of which is set in the record, and it holds
    one condition at least.  [forUpdate] differs from [find] by the
    FOR UPDATE mark only. *)
Theorem X2_keyed_statements_are_conditioned_on_a_key
    (NewModel : StructVal -> result SqlBuilder.Model) (v : StructVal)
    (allow : list string)
    (order : SqlBuilder.Model -> list (string * SqlBuilder.Column))
    (uorder : SqlBuilder.Model -> list (string * list SqlBuilder.Column))
    (m : SqlBuilder.Model) :
  NewModel v = Ok m ->
  (forall s, SqlBuilder.find NewModel v uorder = Ok s ->
     Spec.on_key m v (uorder m) (SqlBuilder.sWhere s)
     /\ SqlBuilder.sForUpdate s = false
     /\ SqlBuilder.forUpdate NewModel v uorder
        = Ok (SqlBuilder.mkSelect (SqlBuilder.sCols s) (SqlBuilder.sTable s) true
                (SqlBuilder.sWhere s)))
  /\ (forall s, SqlBuilder.del NewModel v uorder = Ok s ->
        Spec.on_key m v (uorder m) (SqlBuilder.dWhere s))
  /\ (forall s, SqlBuilder.update NewModel v allow order uorder = Ok s ->
        Spec.on_key m v (uorder m) (SqlBuilder.uWhere s)).
Proof.
  intros Hm. split_and!.
  - intros s. unfold SqlBuilder.find, SqlBuilder.forUpdate, SqlBuilder.getModel.
    rewrite Hm, SqlBuilderFacts.where_spec.
    destruct (Spec.keyed_where [] m v (uorder m)) as [w [e|]] eqn:Hw; [done|].
    intros [= <-]. split; [|done]. by apply SqlBuilderFacts.keyed_where_on_key.
  - intros s. unfold SqlBuilder.del, SqlBuilder.getModel.
    rewrite Hm, SqlBuilderFacts.where_spec.
    destruct (Spec.keyed_where [] m v (uorder m)) as [w [e|]] eqn:Hw; [done|].
    intros [= <-]. by apply SqlBuilderFacts.keyed_where_on_key.
  - intros s Hs.
    assert (Hvalid : Spec.all_valid SqlBuilder.GoName v (order m)).
    { revert Hs. unfold SqlBuilder.update, SqlBuilder.getModel. rewrite Hm.
      destruct (SqlBuilder.update_loop _ _ _ _) as [sql|e] eqn:Hl; [|done].
      intros _. by eapply SqlBuilderFacts.update_loop_valid. }
    rewrite (SqlBuilderFacts.update_spec _ _ _ _ _ _ Hm Hvalid) in Hs.
    destruct (Spec.keyed_where [] m v (uorder m)) as [w [e|]] eqn:Hw; [done|].
    injection Hs as <-. by apply SqlBuilderFacts.keyed_where_on_key.
Qed.

Lemma X2_keyed_statements_are_conditioned_on_a_key_witness :
  NewUser (user 7 "" 0) = Ok userModel
  /\ SqlBuilder.del NewUser (user 7 "" 0) uInOrder
     = Ok (SqlBuilder.mkDelete "{#user}" [("{id}=?", SInt 7)])
  /\ Spec.on_key userModel (user 7 "" 0) (uInOrder userModel) [("{id}=?", SInt 7)].
Proof.
  split; [reflexivity|]. split; [reflexivity|].
  exact (proj1 (proj2 (X2_keyed_statements_are_conditioned_on_a_key
                         NewUser (user 7 "" 0) [] inOrder uInOrder userModel eq_refl))
           (SqlBuilder.mkDelete "{#user}" [("{id}=?", SInt 7)]) eq_refl).
Defined.

(** X3.  A batch of one record is a single INSERT: on a slice that holds
    one record [buildInsertManySQL] builds the statement [insert] builds for
    that record, and fails when and as [insert] fails. *)
Theorem X3_batch_of_one_record_is_insert
    (NewModel : StructVal -> result SqlBuilder.Model) (v : StructVal)
    (order : SqlBuilder.Model -> list (string * SqlBuilder.Column)) :
  SqlBuilder.buildInsertManySQL NewModel [v] order = SqlBuilder.insert NewModel v order.
Proof.
  unfold SqlBuilder.buildInsertManySQL, SqlBuilder.insert.
  cbn [SqlBuilder.many_loop].
  destruct (SqlBuilder.getModel NewModel v) as [[m irval]|e]; [|done].
  rewrite bool_decide_eq_true_2 by done.
  rewrite SqlBuilderFacts.first_loop_insert_loop.
  change (SqlBuilder.Table (SqlBuilder.Insert "")
            ("{#" +:+ SqlBuilder.ModelName m +:+ "}"))
    with (SqlBuilder.Insert ("{#" +:+ SqlBuilder.ModelName m +:+ "}")).
  by destruct (SqlBuilder.insert_loop _ _ _ _).
Qed.

(** X4.  A batch INSERT follows its first record: when
    [buildInsertManySQL] succeeds, the table is the table of the model of
    the first record, the columns are the columns [insert] keeps for the
    first record, in the order they were visited, and every later record
    has the type of the first. *)
Theorem X4_batch_insert_follows_its_first_record
    (NewModel : StructVal -> result SqlBuilder.Model)
    (order : SqlBuilder.Model -> list (string * SqlBuilder.Column))
    (first : StructVal) (rest : list StructVal) (m : SqlBuilder.Model)
    (stmt : SqlBuilder.InsertStmt) :
  NewModel first = Ok m ->
  SqlBuilder.buildInsertManySQL NewModel (first :: rest) order = Ok stmt ->
  SqlBuilder.iTable stmt = "{#" +:+ SqlBuilder.ModelName m +:+ "}"
  /\ SqlBuilder.iCols stmt
     = (Spec.braces <$> Spec.insert_columns m first (order m)).*1
  /\ Forall (fun r => TypeName r = TypeName first) rest.
Proof.
  intros Hm Hs.
  destruct (SqlBuilderFacts.buildInsertManySQL_cons _ _ _ _ _ _ Hm Hs)
    as (sql & _ & _ & Htab & Hcols & _ & Hty & _).
  done.
Qed.

Lemma X4_batch_insert_follows_its_first_record_witness :
  NewUser (user 0 "ann" 30) = Ok userModel
  /\ SqlBuilder.buildInsertManySQL NewUser [user 0 "ann" 30; user 0 "bob" 31] inOrder
     = Ok (SqlBuilder.mkInsert "{#user}" ["{name}"; "{age}"]
             [[SStr "ann"; SInt 30]; [SStr "bob"; SInt 31]])
  /\ Forall (fun r => TypeName r = TypeName (user 0 "ann" 30)) [user 0 "bob" 31].
Proof.
  split; [reflexivity|]. split; [reflexivity|].
  exact (proj2 (proj2 (X4_batch_insert_follows_its_first_record
                         NewUser inOrder (user 0 "ann" 30) [user 0 "bob" 31] userModel
                         (SqlBuilder.mkInsert "{#user}" ["{name}"; "{age}"]
                            [[SStr "ann"; SInt 30]; [SStr "bob"; SInt 31]])
                         eq_refl eq_refl))).
Defined.

(** X5.  A batch INSERT holds the tuple of the first record, as [insert]
    builds it, and then one tuple for each later record, in their order;
    the tuple of a later record is shorter than the column list by the
    number of columns the filter drops for that record, so it is aligned
    with the columns exactly when no retained column is zero and AI or
    defaulted in it. *)
Theorem X5_batch_insert_adds_one_tuple_per_later_record
    (NewModel : StructVal -> result SqlBuilder.Model)
    (order : SqlBuilder.Model -> list (string * SqlBuilder.Column))
    (first : StructVal) (rest : list StructVal) (m : SqlBuilder.Model)
    (stmt : SqlBuilder.InsertStmt) :
  NewModel first = Ok m ->
  SqlBuilder.buildInsertManySQL NewModel (first :: rest) order = Ok stmt ->
  exists sql rows,
    SqlBuilder.insert NewModel first order = Ok sql
    /\ SqlBuilder.iArgs stmt = SqlBuilder.iArgs sql ++ rows
    /\ Forall2
         (fun r row =>
            exists m', NewModel r = Ok m'
              /\ length row
                 + length (Spec.dropped_keys m' r
                             (Spec.insert_columns m first (order m)).*1)
                 = length (SqlBuilder.iCols stmt))
         rest rows.
Proof.
  intros Hm Hs.
  destruct (SqlBuilderFacts.buildInsertManySQL_cons _ _ _ _ _ _ Hm Hs)
    as (sql & Hins & _ & _ & Hcols & _ & _ & rows & Hargs & Hrows).
  exists sql, rows. split; [done|]. split; [done|].
  rewrite Hcols, !length_fmap.
  eapply Forall2_impl; [exact Hrows|]. intros r row (m' & Hm' & Hlen).
  exists m'. split; [done|]. by rewrite length_fmap in Hlen.
Qed.

Lemma X5_batch_insert_adds_one_tuple_per_later_record_witness :
  NewUser (user 0 "ann" 30) = Ok userModel
  /\ SqlBuilder.buildInsertManySQL NewUser [user 0 "ann" 30; user 0 "" 31] inOrder
     = Ok (SqlBuilder.mkInsert "{#user}" ["{name}"; "{age}"]
             [[SStr "ann"; SInt 30]; [SInt 31]])
  /\ exists sql rows,
       SqlBuilder.insert NewUser (user 0 "ann" 30) inOrder = Ok sql
       /\ [[SStr "ann"; SInt 30]; [SInt 31]] = SqlBuilder.iArgs sql ++ rows
       /\ Forall2
            (fun r row =>
               exists m', NewUser r = Ok m'
                 /\ length row
                    + length (Spec.dropped_keys m' r
                                (Spec.insert_columns userModel (user 0 "ann" 30)
                                   (inOrder userModel)).*1)
                    = 2)
            [user 0 "" 31] rows.
Proof.
  split; [reflexivity|]. split; [reflexivity|].
  exact (X5_batch_insert_adds_one_tuple_per_later_record
           NewUser inOrder (user 0 "ann" 30) [user 0 "" 31] userModel
           (SqlBuilder.mkInsert "{#user}" ["{name}"; "{age}"]
              [[SStr "ann"; SInt 30]; [SInt 31]])
           eq_refl eq_refl).
Defined.

(** ** [src/impl.go] *)

(** X6.  The statement [insertMult] executes for a record with a column to
    insert at least is [INSERT INTO table(c1,...,cn)VALUES(?,...,?)]: the
    quoted table name with the prefix of the dialect, the quoted names of
    the retained columns joined by commas with no comma left at the end,
    and one placeholder per value; its arguments are the values of these
    columns in the same order.  The statement is logged whether [Exec]
    fails or not, and the next record is taken only when it does not. *)
Theorem X6_insertMult_writes_one_placeholder_per_column
    (newModel : Impl.object -> result Impl.Model) (e : Impl.engine)
    (order : Impl.Model -> list (string * Impl.Column))
    (v : StructVal) (rest : list Impl.object)
    (log : list (string * list scalar)) (m : Impl.Model) :
  newModel (Impl.ORecord v) = Ok m ->
  Spec.all_valid Impl.GoName v (order m) ->
  Spec.impl_insert_columns m v (order m) <> [] ->
  let kv := Spec.impl_insert_columns m v (order m) in
  let sql := "INSERT INTO " +:+ Impl.Quote e (Impl.Prefix e +:+ Impl.ModelName m)
             +:+ "(" +:+ Spec.quoted_list e kv.*1
             +:+ ")VALUES(" +:+ Spec.placeholders kv.*2 +:+ ")" in
  Impl.insertMult newModel e order (Impl.ORecord v :: rest) log
  = match Impl.Exec e sql kv.*2 with
    | Some err => (log ++ [(sql, kv.*2)], Some err)
    | None => Impl.insertMult newModel e order rest (log ++ [(sql, kv.*2)])
    end.
Proof.
  intros Hm Hvalid Hkv. cbv zeta.
  rewrite (ImplFacts.insertMult_head _ _ _ _ _ _ _ Hm Hvalid). cbv zeta.
  rewrite bool_decide_eq_false_2 by done.
  rewrite ImplFacts.insert_sql_spec; [done | |];
    by destruct (Spec.impl_insert_columns m v (order m)).
Qed.

Lemma X6_insertMult_writes_one_placeholder_per_column_witness :
  newUser (Impl.ORecord (user 0 "ann" 30)) = Ok iUserModel
  /\ Spec.all_valid Impl.GoName (user 0 "ann" 30) (iInOrder iUserModel)
  /\ Spec.impl_insert_columns iUserModel (user 0 "ann" 30) (iInOrder iUserModel) <> []
  /\ Impl.insertMult newUser mysql iInOrder [Impl.ORecord (user 0 "ann" 30)] []
     = ([("INSERT INTO `user`(`name`,`age`)VALUES(?,?)", [SStr "ann"; SInt 30])],
        None).
Proof.
  assert (H1 : newUser (Impl.ORecord (user 0 "ann" 30)) = Ok iUserModel)
    by reflexivity.
  assert (H2 : Spec.all_valid Impl.GoName (user 0 "ann" 30) (iInOrder iUserModel))
    by (repeat constructor; by eexists).
  assert (H3 : Spec.impl_insert_columns iUserModel (user 0 "ann" 30)
                 (iInOrder iUserModel) <> []) by (vm_compute; discriminate).
  split_and!; try assumption.
  exact (X6_insertMult_writes_one_placeholder_per_column
           newUser mysql iInOrder (user 0 "ann" 30) [] [] iUserModel H1 H2 H3).
Defined.

(** X7.  For a model whose primary key has one column at most, [where] of
    [src/impl.go] is the keyed WHERE synthesis: the condition of the primary
    key when its column is set, otherwise the conditions, joined by AND, of
    the first unique index that can be used, otherwise the no-where-key
    error and a buffer left as it was. *)
Theorem X7_impl_where_is_keyed_where_for_a_single_column_pk
    (e : Impl.engine) (sql : string) (m : Impl.Model) (rval : StructVal)
    (uorder : list (string * list Impl.Column)) :
  length (Impl.PK m) <= 1 ->
  Impl.where_ e sql m rval uorder = Spec.impl_keyed_where e sql m rval uorder.
Proof. apply ImplFacts.where_single_pk. Qed.

Lemma X7_impl_where_is_keyed_where_for_a_single_column_pk_witness :
  length (Impl.PK iUserModel) <= 1
  /\ Impl.where_ mysql "DELETE FROM `user`" iUserModel (user 7 "ann" 30)
       (iUInOrder iUserModel)
     = ("DELETE FROM `user` WHERE `id`=?", Ok [SInt 7]).
Proof.
  assert (H : length (Impl.PK iUserModel) <= 1) by (simpl; lia).
  split; [exact H|].
  exact (X7_impl_where_is_keyed_where_for_a_single_column_pk
           mysql "DELETE FROM `user`" iUserModel (user 7 "ann" 30)
           (iUInOrder iUserModel) H).
Defined.

(** X8.  [deleteMult] never executes a DELETE without a WHERE clause: the
    statements it hands to [Exec] are added to those executed before, there
    is one per record at most, and exactly one per record when no error is
    returned; each is [DELETE FROM table WHERE ...] and comes with one
    argument at least. *)
Theorem X8_deleteMult_executes_only_conditioned_deletes
    (newModel : Impl.object -> result Impl.Model) (e : Impl.engine)
    (uorder : Impl.Model -> list (string * list Impl.Column))
    (objs : list Impl.object) (log : list (string * list scalar)) :
  exists added,
    (Impl.deleteMult newModel e uorder objs log).1 = log ++ added
    /\ length added <= length objs
    /\ ((Impl.deleteMult newModel e uorder objs log).2 = None ->
        length added = length objs)
    /\ Forall (fun st => Spec.delete_text st.1 /\ st.2 <> []) added.
Proof.
  destruct (Impl.deleteMult newModel e uorder objs log) as [log' err] eqn:Hd.
  apply ImplFacts.deleteMult_log in Hd as (added & -> & Hle & Hn & Hall).
  by exists added.
Qed.

(** X9.  The statement [updateMult] executes for a record with a column to
    set at least is [UPDATE table SET c1=?,...,cn=?] followed by the WHERE
    part of the key: the comma written after the last assignment is taken
    off before the WHERE part is written.  Its arguments are the values set
    followed by the values of the key; when no key can be used nothing is
    executed. *)
Theorem X9_updateMult_writes_assignments_then_where
    (newModel : Impl.object -> result Impl.Model) (e : Impl.engine)
    (order : Impl.Model -> list (string * Impl.Column))
    (uorder : Impl.Model -> list (string * list Impl.Column))
    (v : StructVal) (rest : list Impl.object)
    (log : list (string * list scalar)) (m : Impl.Model) :
  newModel (Impl.ORecord v) = Ok m ->
  Spec.all_valid Impl.GoName v (order m) ->
  Spec.impl_update_columns v (order m) <> [] ->
  let kv := Spec.impl_update_columns v (order m) in
  let head := "UPDATE " +:+ Impl.Quote e (Impl.Prefix e +:+ Impl.ModelName m)
              +:+ " SET " +:+ Spec.assignments e kv.*1 in
  Impl.updateMult newModel e order uorder (Impl.ORecord v :: rest) log
  = match Impl.where_ e head m v (uorder m) with
    | (_, Err err) => (log, Some err)
    | (sql, Ok whereVals) =>
        match Impl.Exec e sql (kv.*2 ++ whereVals) with
        | Some err => (log ++ [(sql, kv.*2 ++ whereVals)], Some err)
        | None =>
            Impl.updateMult newModel e order uorder rest
              (log ++ [(sql, kv.*2 ++ whereVals)])
        end
    end.
Proof.
  intros Hm Hvalid Hkv. cbv zeta.
  rewrite (ImplFacts.updateMult_head _ _ _ _ _ _ _ _ Hm Hvalid). cbv zeta.
  rewrite ImplFacts.set_text_spec
    by (by destruct (Spec.impl_update_columns v (order m))).
  set (a := Spec.assignments e (Spec.impl_update_columns v (order m)).*1).
  set (q := Impl.Quote e (Impl.Prefix e +:+ Impl.ModelName m)).
  assert (Hshape : (("UPDATE " +:+ q) +:+ " SET ") +:+ a +:+ ","
                   = ("UPDATE " +:+ q +:+ " SET " +:+ a) +:+ ",")
    by (by rewrite !ImplFacts.append_assoc).
  rewrite Hshape.
  pose proof (ImplFacts.Truncate_suffix ("UPDATE " +:+ q +:+ " SET " +:+ a) ",")
    as Hcut.
  change (String.length ",") with 1 in Hcut. by rewrite Hcut.
Qed.

Lemma X9_updateMult_writes_assignments_then_where_witness :
  newUser (Impl.ORecord (user 7 "ann" 30)) = Ok iUserModel
  /\ Spec.all_valid Impl.GoName (user 7 "ann" 30) (iInOrder iUserModel)
  /\ Spec.impl_update_columns (user 7 "ann" 30) (iInOrder iUserModel) <> []
  /\ Impl.updateMult newUser mysql iInOrder iUInOrder
       [Impl.ORecord (user 7 "ann" 30)] []
     = ([("UPDATE `user` SET `id`=?,`name`=?,`age`=? WHERE `id`=?",
          [SInt 7; SStr "ann"; SInt 30; SInt 7])], None).
Proof.
  assert (H1 : newUser (Impl.ORecord (user 7 "ann" 30)) = Ok iUserModel)
    by reflexivity.
  assert (H2 : Spec.all_valid Impl.GoName (user 7 "ann" 30) (iInOrder iUserModel))
    by (repeat constructor; by eexists).
  assert (H3 : Spec.impl_update_columns (user 7 "ann" 30) (iInOrder iUserModel) <> [])
    by (vm_compute; discriminate).
  split_and!; try assumption.
  exact (X9_updateMult_writes_assignments_then_where
           newUser mysql iInOrder iUInOrder (user 7 "ann" 30) [] [] iUserModel
           H1 H2 H3).
Defined.


(** X19.  [checkCols] holds exactly when there is a column at least and
    every column has its field in the record, with a value that is not the
    zero value of the type of the column. *)
Theorem X19_checkCols_holds_for_set_columns_only
    (cols : list Impl.Column) (rval : StructVal) :
  Impl.checkCols cols rval = true
  <-> cols <> []
      /\ Forall (fun col => exists field,
                   FieldByName rval (Impl.GoName col) = Some field
                   /\ field <> Impl.reflect_Zero (Impl.GoType col)) cols.
Proof.
  rewrite <- ImplFacts.checkCols_loop_Forall. unfold Impl.checkCols.
  destruct cols as [|col rest]; [by split; [|intros [? _]] | by split; [|intros [_ ?]]].
Qed.

(** ** Package [fetch] *)

(** X10.  [Object] refuses every receiver that is not a pointer to a
    record, or a slice, a pointer to a slice or a pointer to an array of
    records (behind any number of pointers): it returns 0 and
    [ErrInvalidKind], reads no row and leaves the receiver as it was.  An
    array that is not passed by pointer is among them. *)
Theorem X10_Object_refuses_other_receivers
    (methods : string -> option Fetch.Method) (rows : Fetch.Rows)
    (obj : Fetch.value) :
  Spec.fetchable obj = false ->
  Fetch.Object methods rows obj = Fetch.Return 0 (Some ErrInvalidKind) obj rows.
Proof.
  destruct obj as [s|z|x|ty fs|z items|z items]; try done.
  - destruct x as [s|z|x|ty fs|z items|z items]; try done.
    + cbn [Spec.fetchable Fetch.Object Fetch.fetchObjToSlice]. by intros ->.
    + cbn [Spec.fetchable Fetch.Object Fetch.fetchObjToFixedSlice
             Fetch.through_pointer].
      by intros ->.
  - cbn [Spec.fetchable Fetch.Object Fetch.fetchObjToFixedSlice]. by intros ->.
Qed.

Lemma X10_Object_refuses_other_receivers_witness :
  Spec.fetchable (Fetch.VArray (Fetch.VNil (member 0 "")) [Fetch.VPtr (member 0 "")])
  = false
  /\ Fetch.Object hooks (memberRows 2)
       (Fetch.VArray (Fetch.VNil (member 0 "")) [Fetch.VPtr (member 0 "")])
     = Fetch.Return 0 (Some ErrInvalidKind)
         (Fetch.VArray (Fetch.VNil (member 0 "")) [Fetch.VPtr (member 0 "")])
         (memberRows 2).
Proof.
  split; [reflexivity|].
  exact (X10_Object_refuses_other_receivers hooks (memberRows 2)
           (Fetch.VArray (Fetch.VNil (member 0 "")) [Fetch.VPtr (member 0 "")])
           eq_refl).
Defined.

(** X11.  A fetch through a pointer to a slice that returns no error has
    read every row and returns their number; the slice is as long as the
    longer of the receiver and the rows, and the elements beyond the rows
    are the ones the receiver had. *)
Theorem X11_slice_pointer_takes_every_row
    (methods : string -> option Fetch.Method) (rows rows' : Fetch.Rows)
    (z : Fetch.value) (items : list Fetch.value) (count : nat)
    (obj : Fetch.value) :
  Fetch.Object methods rows (Fetch.VPtr (Fetch.VSlice z items))
  = Fetch.Return count None obj rows' ->
  count = length (Fetch.pending rows)
  /\ rows' = Fetch.mkRows (Fetch.Columns rows) []
  /\ exists items',
       obj = Fetch.VPtr (Fetch.VSlice z items')
       /\ length items' = length items `max` length (Fetch.pending rows)
       /\ forall j, length (Fetch.pending rows) <= j -> items' !! j = items !! j.
Proof. apply FetchFacts.fetchObjToSlice_success. Qed.

Lemma X11_slice_pointer_takes_every_row_witness :
  exists obj,
    Fetch.Object noHooks (memberRows 3) (Fetch.VPtr (members 1))
    = Fetch.Return 3 None obj (Fetch.mkRows (Ok ["id"; "Email"]) [])
    /\ exists items',
         obj = Fetch.VPtr (Fetch.VSlice (Fetch.VNil (member 0 "")) items')
         /\ length items' = 3.
Proof.
  eexists. split; [reflexivity|].
  destruct (X11_slice_pointer_takes_every_row noHooks (memberRows 3) _
              (Fetch.VNil (member 0 "")) [Fetch.VPtr (member 0 "")] 3 _ eq_refl)
    as (_ & _ & items' & Hobj & Hlen & _).
  exists items'. split; [exact Hobj | exact Hlen].
Defined.

(** X12.  A slice grows by pointers to new records only.  Through a
    pointer to a slice whose element type is not a pointer to a record (a
    slice of records, say), a fetch of more rows than the slice has elements
    never returns without an error: [reflect.Append] panics on the first
    row beyond the receiver. *)
Theorem X12_slice_of_records_cannot_grow
    (methods : string -> option Fetch.Method) (rows rows' : Fetch.Rows)
    (z : Fetch.value) (items : list Fetch.value) (count : nat)
    (obj : Fetch.value) :
  Fetch.Append_New z [] = None ->
  length items < length (Fetch.pending rows) ->
  Fetch.Object methods rows (Fetch.VPtr (Fetch.VSlice z items))
  <> Fetch.Return count None obj rows'.
Proof.
  intros Hz Hlen H. apply FetchFacts.fetchObjToSlice_fits in H; [lia | done].
Qed.

Lemma X12_slice_of_records_cannot_grow_witness :
  Fetch.Append_New (member 0 "") [] = None
  /\ length [member 0 ""] < length (Fetch.pending (memberRows 2))
  /\ Fetch.Object hooks (memberRows 2)
       (Fetch.VPtr (Fetch.VSlice (member 0 "") [member 0 ""]))
     = Fetch.Panic
  /\ Fetch.Object hooks (memberRows 2)
       (Fetch.VPtr (Fetch.VSlice (member 0 "") [member 0 ""]))
     <> Fetch.Return 2 None (Fetch.VPtr (Fetch.VSlice (member 0 "") [member 0 ""]))
          (memberRows 0).
Proof.
  assert (H1 : Fetch.Append_New (member 0 "") [] = None) by reflexivity.
  assert (H2 : length [member 0 ""] < length (Fetch.pending (memberRows 2)))
    by (simpl; lia).
  split_and!; [exact H1 | exact H2 | reflexivity |].
  exact (X12_slice_of_records_cannot_grow hooks (memberRows 2) (memberRows 0)
           (member 0 "") [member 0 ""] 2
           (Fetch.VPtr (Fetch.VSlice (member 0 "") [member 0 ""])) H1 H2).
Defined.


(** X14.  Through a pointer to a record, an [AfterFetch] method with a
    pointer receiver is not called: [fetchOnceObj] hands the record itself
    to [afterFetch], and the method set of a record type holds the methods
    with a value receiver only.  The fetch does what it does for a type
    without the method. *)
Theorem X14_record_pointer_skips_pointer_receiver_hook
    (methods : string -> option Fetch.Method) (rows : Fetch.Rows)
    (ty : string) (fs : list (Fetch.StructField * Fetch.value)) :
  (forall f, methods ty = Some f -> Fetch.ptrReceiver f = true) ->
  Fetch.Object methods rows (Fetch.VPtr (Fetch.VStruct ty fs))
  = Fetch.Object (fun _ => None) rows (Fetch.VPtr (Fetch.VStruct ty fs)).
Proof.
  intros Hm. cbn [Fetch.Object].
  by rewrite (FetchFacts.fetchOnceObj_pointer_hook methods ty fs rows Hm).
Qed.

Lemma X14_record_pointer_skips_pointer_receiver_hook_witness :
  (forall f, hooks "Member" = Some f -> Fetch.ptrReceiver f = true)
  /\ refuseOne (member 1 "email-1") = (member 1 "email-1", Some (ErrHook "refused"))
  /\ Fetch.Object hooks (Fetch.mkRows (Ok ["id"; "Email"]) [memberRow 1])
       (Fetch.VPtr (member 0 ""))
     = Fetch.Return 1 None (Fetch.VPtr (member 1 "email-1"))
         (Fetch.mkRows (Ok ["id"; "Email"]) []).
Proof.
  assert (H : forall f, hooks "Member" = Some f -> Fetch.ptrReceiver f = true)
    by (by intros f [= <-]).
  split; [exact H|]. split; [reflexivity|].
  exact (X14_record_pointer_skips_pointer_receiver_hook hooks
           (Fetch.mkRows (Ok ["id"; "Email"]) [memberRow 1]) "Member"
           [(fID, Fetch.VScalar (SInt 0)); (fEmail, Fetch.VScalar (SStr ""))] H).
Defined.

(** X15.  A fetch into a slice, or through a pointer to an array, never
    changes the length of its receiver and never touches an element beyond
    the rows, whether it returns an error or not. *)
Theorem X15_fixed_receiver_keeps_length_and_tail
    (methods : string -> option Fetch.Method) (rows rows' : Fetch.Rows)
    (z : Fetch.value) (items : list Fetch.value) (count : nat)
    (err : option error) (obj : Fetch.value) :
  Fetch.Object methods rows (Fetch.VSlice z items) = Fetch.Return count err obj rows'
  \/ Fetch.Object methods rows (Fetch.VPtr (Fetch.VArray z items))
     = Fetch.Return count err (Fetch.VPtr obj) rows' ->
  exists z' items',
    (obj = Fetch.VSlice z' items' \/ obj = Fetch.VArray z' items')
    /\ z' = z
    /\ length items' = length items
    /\ forall j, length (Fetch.pending rows) <= j -> items' !! j = items !! j.
Proof.
  intros [H|H].
  - cbn [Fetch.Object] in H.
    apply FetchFacts.fetchObjToFixedSlice_frame in H
      as (z0 & items0 & items' & [[= <- <-]|[=]] & -> & Hlen & Hframe).
    exists z, items'. split; [by left | done].
  - cbn [Fetch.Object] in H.
    destruct (Fetch.fetchObjToFixedSlice methods (Fetch.VArray z items) rows)
      as [c e o r|] eqn:Hf; [|done].
    injection H as -> -> -> ->.
    apply FetchFacts.fetchObjToFixedSlice_frame in Hf
      as (z0 & items0 & items' & [[=]|[= <- <-]] & -> & Hlen & Hframe).
    exists z, items'. split; [by right | done].
Qed.

Lemma X15_fixed_receiver_keeps_length_and_tail_witness :
  exists obj,
    Fetch.Object noHooks (memberRows 1) (members 3)
    = Fetch.Return 3 None obj (memberRows 0)
    /\ exists z' items',
         (obj = Fetch.VSlice z' items' \/ obj = Fetch.VArray z' items')
         /\ length items' = 3
         /\ items' !! 2 = Some (Fetch.VPtr (member 0 "")).
Proof.
  eexists. split; [reflexivity|].
  destruct (X15_fixed_receiver_keeps_length_and_tail noHooks (memberRows 1) _
              (Fetch.VNil (member 0 "")) (replicate 3 (Fetch.VPtr (member 0 "")))
              3 None _ (or_introl eq_refl))
    as (z' & items' & Hobj & _ & Hlen & Hframe).
  exists z', items'. split; [exact Hobj|]. split; [exact Hlen|].
  apply (Hframe 2). simpl. lia.
Defined.





End Extras.
